(** * The bookmarks router of the hoarder app, embedded and verified

    The router (createBookmark, updateBookmark, updateBookmarkText,
    deleteBookmark, recrawlBookmark, getBookmark, searchBookmarks,
    getBookmarks, updateTags) is embedded as functions over an explicit
    world: the relational store, and the trace of the effects a procedure
    performs outside the store (transaction boundaries, jobs handed to the
    queues, asset releases, calls of the search engine).

    What the router imports and does not define is modelled as follows.
    - drizzle: a table is the list of its rows in insertion order; [findFirst]
      is the first matching row, [findMany] all of them; [transaction], on the
      synchronous sqlite driver and given an async callback, commits before
      the statements of the callback run and puts nothing back.
    - strings: a character stands for a UTF-16 code unit below 256.
    - object literals used as maps ([{}]): reads see the members inherited
      from [Object.prototype], and [Object.values] lists array-index keys
      first.
    - the schema: primary keys and the unique (userId, name) of tags are
      checked by the inserts; generated columns (ids, createdAt) are handed
      to the procedure by its caller, as the generator's choice.
    - the queues: [add] appends the job to the trace. *)

From Stdlib Require Import ZArith QArith.QArith_base Lia Ascii String.
From stdpp Require Import base option list strings gmap sorting.

Local Open Scope string_scope.
Local Open Scope list_scope.
Local Open Scope Z_scope.

(** ** Data model *)

Abbreviation Id := string (only parsing).
Abbreviation Time := Z (only parsing).

Inductive TaggingStatus := TsPending | TsSuccess | TsFailure.
Inductive AttachedBy := Human | Ai.
Inductive AssetType := Image | Pdf.

Record Bookmark := mkBookmark {
  bk_id : Id;
  bk_userId : Id;
  bk_createdAt : Time;
  bk_archived : bool;
  bk_favourited : bool;
  bk_note : option string;
  bk_taggingStatus : option TaggingStatus }.

Record BookmarkLink := mkBookmarkLink {
  bl_id : Id;
  bl_url : string;
  bl_title : option string;
  bl_description : option string;
  bl_imageUrl : option string;
  bl_crawledAt : option Time;
  bl_htmlContent : option string;
  bl_screenshotAssetId : option Id;
  bl_fullPageScreenshotAssetId : option Id }.

Record BookmarkText := mkBookmarkText {
  bt_id : Id;
  bt_text : option string }.

Record BookmarkAsset := mkBookmarkAsset {
  ba_id : Id;
  ba_assetType : AssetType;
  ba_assetId : Id;
  ba_content : option string;
  ba_info : option string;
  ba_metadata : option string }.

Record BookmarkTag := mkBookmarkTag {
  tg_id : Id;
  tg_name : string;
  tg_userId : Id }.

Record TagOnBookmark := mkTagOnBookmark {
  tob_bookmarkId : Id;
  tob_tagId : Id;
  tob_attachedBy : AttachedBy }.

Record BookmarkInList := mkBookmarkInList {
  bil_bookmarkId : Id;
  bil_listId : Id }.

Global Instance TaggingStatus_eq_dec : EqDecision TaggingStatus.
Proof. solve_decision. Defined.
Global Instance AttachedBy_eq_dec : EqDecision AttachedBy.
Proof. solve_decision. Defined.
Global Instance AssetType_eq_dec : EqDecision AssetType.
Proof. solve_decision. Defined.
Global Instance Bookmark_eq_dec : EqDecision Bookmark.
Proof. solve_decision. Defined.
Global Instance BookmarkLink_eq_dec : EqDecision BookmarkLink.
Proof. solve_decision. Defined.
Global Instance BookmarkText_eq_dec : EqDecision BookmarkText.
Proof. solve_decision. Defined.
Global Instance BookmarkAsset_eq_dec : EqDecision BookmarkAsset.
Proof. solve_decision. Defined.
Global Instance BookmarkTag_eq_dec : EqDecision BookmarkTag.
Proof. solve_decision. Defined.
Global Instance TagOnBookmark_eq_dec : EqDecision TagOnBookmark.
Proof. solve_decision. Defined.

(** The store: one list of rows per table of the schema. *)
Record Db := mkDb {
  bookmarks : list Bookmark;
  bookmarkLinks : list BookmarkLink;
  bookmarkTexts : list BookmarkText;
  bookmarkAssets : list BookmarkAsset;
  bookmarkTags : list BookmarkTag;
  tagsOnBookmarks : list TagOnBookmark;
  bookmarksInLists : list BookmarkInList }.

Definition emptyDb : Db := mkDb [] [] [] [] [] [] [].

(** ** Effects outside the store *)

Inductive Queue := LinkCrawlerQueue | OpenAIQueue | SearchIndexingQueue.
Inductive IndexOp := OpIndex | OpDelete.

(** A job payload: the bookmark id and, for search jobs, the operation. *)
Record Job := mkJob {
  job_bookmarkId : Id;
  job_type : option IndexOp }.

(** The options object of [client.search]. *)
Record SearchParams := mkSearchParams {
  sp_filter : list string;
  sp_showRankingScore : bool;
  sp_attributesToRetrieve : list string;
  sp_sort : list string }.

Inductive Event :=
| EvBegin
| EvCommit
| EvAdd (q : Queue) (name : string) (j : Job)
| EvDeleteAsset (userId assetId : Id)
| EvSearch (text : string) (params : SearchParams).

Record World := mkWorld {
  db : Db;
  trace : list Event }.

(** ** Errors and the procedure monad *)

Inductive Code :=
  UNAUTHORIZED | NOT_FOUND | FORBIDDEN | BAD_REQUEST | INTERNAL_SERVER_ERROR.

Inductive Error :=
| TRPCError (code : Code) (message : option string)
| DriverError (message : string)
| TypeError (message : string).

Inductive Result (A : Type) :=
| Ok (a : A)
| Err (e : Error).
Arguments Ok {A} a.
Arguments Err {A} e.

(** A procedure threads the world; a throw keeps the effects performed so
    far. *)
Definition M (A : Type) : Type := World → Result A * World.

Global Instance M_ret : MRet M := λ A a w, (Ok a, w).
Global Instance M_bind : MBind M := λ A B f m w,
  match m w with
  | (Ok a, w') => f a w'
  | (Err e, w') => (Err e, w')
  end.

Definition throw {A} (e : Error) : M A := λ w, (Err e, w).
Definition getDb : M Db := λ w, (Ok (db w), w).
Definition putDb (d : Db) : M unit := λ w, (Ok (), mkWorld d (trace w)).
Definition emit (e : Event) : M unit :=
  λ w, (Ok (), mkWorld (db w) (trace w ++ [e])).

(** Modelled from the spec: the queues of "@hoarder/shared/queues" are not in
    the sources. [queue.add(name, payload)] is the enqueue of the Job Queue:
    it hands the payload to the topic, which the trace records. *)
Definition add (q : Queue) (name : string) (j : Job) : M unit :=
  emit (EvAdd q name j).

(** Modelled from the spec: [deleteAsset] of "@hoarder/shared/assetdb" is not
    in the sources. [deleteAsset({userId, assetId})] is the release of the
    Asset Store, which the trace records. *)
Definition deleteAsset (userId assetId : Id) : M unit :=
  emit (EvDeleteAsset userId assetId).

(** [db.transaction(async (tx) => ...)]. The database handle of "@hoarder/db"
    is not in the sources; the router reads [deleted.changes] off a delete,
    the run result of the synchronous sqlite driver. The transaction of that
    driver begins, calls its callback and commits when the callback returns.
    The callbacks of the router are async functions: called, they return a
    promise at their first [await], before any of their statements has run.
    So the transaction commits empty, the statements of the callback run
    after the commit, each on its own, and an error thrown among them
    rejects the promise the router awaits: what ran before it stays. *)
Definition transaction {A} (cb : M A) : M A :=
  emit EvBegin;; emit EvCommit;; cb.

(** ** Callers *)

Record User := mkUser { user_id : Id }.
Record Context := mkContext { ctx_user : option User }.

(** Modelled from the spec: [authedProcedure] of "../index" is not in the
    sources. The Mutation API is the ownership-checked boundary of
    authenticated callers: the procedure runs with the caller's user, and a
    call without one is refused. *)
Definition authedProcedure {A} (ctx : Context) (k : User → M A) : M A :=
  match ctx_user ctx with
  | None => throw (TRPCError UNAUTHORIZED None)
  | Some u => k u
  end.

(** ** ensureBookmarkOwnership *)

Definition ensureBookmarkOwnership {A}
    (ctx : Context) (bookmarkId : Id) (next : M A) : M A :=
  d ← getDb;
  let bookmark := head (filter (λ b, bk_id b = bookmarkId) (bookmarks d)) in
  match ctx_user ctx with
  | None => throw (TRPCError UNAUTHORIZED (Some "User is not authorized"))
  | Some user =>
    match bookmark with
    | None => throw (TRPCError NOT_FOUND (Some "Bookmark not found"))
    | Some bookmark =>
      if decide (bk_userId bookmark ≠ user_id user)
      then throw (TRPCError FORBIDDEN
                    (Some "User is not allowed to access resource"))
      else next
    end
  end.

(** ** The public schema *)

Inductive ZBookmarkContent :=
| ContentLink (link : BookmarkLink)
| ContentText (text : string)
| ContentAsset (assetType : AssetType) (assetId : Id)
| ContentUnknown.

(** [{attachedBy, ...tag}]: the provenance and the spread fields of the tag
    row (none when the joined tag is null). *)
Record ZBookmarkTags := mkZBookmarkTags {
  zt_attachedBy : AttachedBy;
  zt_tag : option BookmarkTag }.

(** [{tags, content, ...rest}] *)
Record ZBookmark := mkZBookmark {
  zb_tags : list ZBookmarkTags;
  zb_content : ZBookmarkContent;
  zb_rest : Bookmark }.

(** A row of the relational query
    [with: {tagsOnBookmarks: {with: {tag: true}}, link, text, asset}]. *)
Record BookmarkQueryReturnType := mkQueryRow {
  q_rest : Bookmark;
  q_tagsOnBookmarks : list (TagOnBookmark * option BookmarkTag);
  q_link : option BookmarkLink;
  q_text : option BookmarkText;
  q_asset : option BookmarkAsset }.

Definition toZodSchema (bookmark : BookmarkQueryReturnType) : ZBookmark :=
  let content :=
    match q_link bookmark with
    | Some link => ContentLink link
    | None =>
      match q_text bookmark with
      | Some text => ContentText (default "" (bt_text text))
      | None =>
        match q_asset bookmark with
        | Some asset => ContentAsset (ba_assetType asset) (ba_assetId asset)
        | None => ContentUnknown
        end
      end
    end in
  {| zb_tags := map (λ t, mkZBookmarkTags (tob_attachedBy t.1) t.2)
                    (q_tagsOnBookmarks bookmark);
     zb_content := content;
     zb_rest := q_rest bookmark |}.

(** The relations of one bookmark row, as the relational query loads them. *)
Definition withRelations (d : Db) (b : Bookmark) : BookmarkQueryReturnType :=
  {| q_rest := b;
     q_tagsOnBookmarks :=
       map (λ t, (t, head (filter (λ g, tg_id g = tob_tagId t) (bookmarkTags d))))
           (filter (λ t, tob_bookmarkId t = bk_id b) (tagsOnBookmarks d));
     q_link := head (filter (λ l, bl_id l = bk_id b) (bookmarkLinks d));
     q_text := head (filter (λ t, bt_id t = bk_id b) (bookmarkTexts d));
     q_asset := head (filter (λ a, ba_id a = bk_id b) (bookmarkAssets d)) |}.

(** ** Writes *)

Definition setBookmarks (l : list Bookmark) (d : Db) : Db :=
  mkDb l (bookmarkLinks d) (bookmarkTexts d) (bookmarkAssets d)
       (bookmarkTags d) (tagsOnBookmarks d) (bookmarksInLists d).
Definition setBookmarkLinks (l : list BookmarkLink) (d : Db) : Db :=
  mkDb (bookmarks d) l (bookmarkTexts d) (bookmarkAssets d)
       (bookmarkTags d) (tagsOnBookmarks d) (bookmarksInLists d).
Definition setBookmarkTexts (l : list BookmarkText) (d : Db) : Db :=
  mkDb (bookmarks d) (bookmarkLinks d) l (bookmarkAssets d)
       (bookmarkTags d) (tagsOnBookmarks d) (bookmarksInLists d).
Definition setBookmarkAssets (l : list BookmarkAsset) (d : Db) : Db :=
  mkDb (bookmarks d) (bookmarkLinks d) (bookmarkTexts d) l
       (bookmarkTags d) (tagsOnBookmarks d) (bookmarksInLists d).
Definition setBookmarkTags (l : list BookmarkTag) (d : Db) : Db :=
  mkDb (bookmarks d) (bookmarkLinks d) (bookmarkTexts d) (bookmarkAssets d)
       l (tagsOnBookmarks d) (bookmarksInLists d).
Definition setTagsOnBookmarks (l : list TagOnBookmark) (d : Db) : Db :=
  mkDb (bookmarks d) (bookmarkLinks d) (bookmarkTexts d) (bookmarkAssets d)
       (bookmarkTags d) l (bookmarksInLists d).
Definition setBookmarksInLists (l : list BookmarkInList) (d : Db) : Db :=
  mkDb (bookmarks d) (bookmarkLinks d) (bookmarkTexts d) (bookmarkAssets d)
       (bookmarkTags d) (tagsOnBookmarks d) l.

(** Modelled from the spec: the schema of [bookmarks] is not in the sources.
    [insert(bookmarks).values({userId}).returning()] fills the other columns
    with their defaults: the generated id and createdAt, which the caller of
    the procedure chooses here, flags off, no note, tagging pending (a new
    bookmark is observed with taggingStatus = pending). The id is the
    identity of the bookmark: the insert is rejected when a row has it. *)
Definition insertBookmarks (userId newId : Id) (now : Time) : M Bookmark :=
  d ← getDb;
  if decide (newId ∈ map bk_id (bookmarks d))
  then throw (DriverError "UNIQUE constraint failed: bookmarks.id")
  else
    let row := mkBookmark newId userId now false false None (Some TsPending) in
    putDb (setBookmarks (bookmarks d ++ [row]) d);;
    mret row.

(** Modelled from the spec: the schema of the content tables is not in the
    sources. A content row is the one variant attached to the bookmark of its
    id: the insert is rejected when the table has a row of that id. *)
Definition insertBookmarkLinks (row : BookmarkLink) : M BookmarkLink :=
  d ← getDb;
  if decide (bl_id row ∈ map bl_id (bookmarkLinks d))
  then throw (DriverError "UNIQUE constraint failed: bookmarkLinks.id")
  else putDb (setBookmarkLinks (bookmarkLinks d ++ [row]) d);; mret row.

Definition insertBookmarkTexts (row : BookmarkText) : M BookmarkText :=
  d ← getDb;
  if decide (bt_id row ∈ map bt_id (bookmarkTexts d))
  then throw (DriverError "UNIQUE constraint failed: bookmarkTexts.id")
  else putDb (setBookmarkTexts (bookmarkTexts d ++ [row]) d);; mret row.

Definition insertBookmarkAssets (row : BookmarkAsset) : M BookmarkAsset :=
  d ← getDb;
  if decide (ba_id row ∈ map ba_id (bookmarkAssets d))
  then throw (DriverError "UNIQUE constraint failed: bookmarkAssets.id")
  else putDb (setBookmarkAssets (bookmarkAssets d ++ [row]) d);; mret row.

(** [String.prototype.trim] strips white space and line terminators. Of
    the code units below 256 these are tab, LF, VT, FF, CR, space and the
    no-break space U+00A0; the others (U+FEFF, U+2028, U+2029 and the space
    separators above 255) are not characters of the strings here. *)
Definition isWhiteSpace (c : ascii) : bool :=
  bool_decide (nat_of_ascii c ∈ [9; 10; 11; 12; 13; 32; 160]%nat).

Fixpoint trimStart (s : string) : string :=
  match s with
  | EmptyString => EmptyString
  | String c s' => if isWhiteSpace c then trimStart s' else s
  end.

Fixpoint trimEnd (s : string) : string :=
  match s with
  | EmptyString => EmptyString
  | String c s' =>
    match trimEnd s' with
    | EmptyString => if isWhiteSpace c then EmptyString else String c EmptyString
    | t => String c t
    end
  end.

Definition trim (s : string) : string := trimEnd (trimStart s).

(** ** createBookmark *)

Inductive NewBookmarkRequest :=
| NewLink (url : string)
| NewText (text : string)
| NewAsset (assetType : AssetType) (assetId : Id)
| NewUnknown.

Definition createBookmarkTx (user : User) (input : NewBookmarkRequest)
    (newId : Id) (now : Time) : M ZBookmark :=
  bookmark ← insertBookmarks (user_id user) newId now;
  content ←
    match input with
    | NewLink url =>
      link ← insertBookmarkLinks
        (mkBookmarkLink (bk_id bookmark) (trim url)
           None None None None None None None);
      mret (ContentLink link)
    | NewText text =>
      text ← insertBookmarkTexts (mkBookmarkText (bk_id bookmark) (Some text));
      mret (ContentText (default "" (bt_text text)))
    | NewAsset assetType assetId =>
      asset ← insertBookmarkAssets
        (mkBookmarkAsset (bk_id bookmark) assetType assetId None None None);
      mret (ContentAsset (ba_assetType asset) (ba_assetId asset))
    | NewUnknown => throw (TRPCError BAD_REQUEST None)
    end;
  mret {| zb_tags := []; zb_content := content; zb_rest := bookmark |}.

Definition createBookmark (ctx : Context) (input : NewBookmarkRequest)
    (newId : Id) (now : Time) : M ZBookmark :=
  authedProcedure ctx (λ user,
    bookmark ← transaction (createBookmarkTx user input newId now);
    (* Enqueue crawling request *)
    match zb_content bookmark with
    | ContentLink _ =>
      add LinkCrawlerQueue "crawl" (mkJob (bk_id (zb_rest bookmark)) None)
    | ContentText _ | ContentAsset _ _ =>
      add OpenAIQueue "openai" (mkJob (bk_id (zb_rest bookmark)) None)
    | ContentUnknown => mret ()
    end;;
    add SearchIndexingQueue "search_indexing"
        (mkJob (bk_id (zb_rest bookmark)) (Some OpIndex));;
    mret bookmark).

(** ** updateBookmark *)

Record UpdateBookmarksRequest := mkUpdateBookmarksRequest {
  ub_bookmarkId : Id;
  ub_archived : option bool;
  ub_favourited : option bool;
  ub_note : option string }.

(** [set({archived, favourited, note})]: a column whose value is undefined is
    left as it is. *)
Definition setColumns (input : UpdateBookmarksRequest) (b : Bookmark) : Bookmark :=
  mkBookmark (bk_id b) (bk_userId b) (bk_createdAt b)
    (default (bk_archived b) (ub_archived input))
    (default (bk_favourited b) (ub_favourited input))
    (match ub_note input with Some n => Some n | None => bk_note b end)
    (bk_taggingStatus b).

Definition updateBookmark (ctx : Context) (input : UpdateBookmarksRequest)
    : M Bookmark :=
  authedProcedure ctx (λ user,
  ensureBookmarkOwnership ctx (ub_bookmarkId input) (
    d ← getDb;
    let hit b := bk_userId b = user_id user ∧ bk_id b = ub_bookmarkId input in
    match ub_archived input, ub_favourited input, ub_note input with
    | None, None, None => throw (DriverError "No values to set")
    | _, _, _ =>
      let res := map (setColumns input) (filter hit (bookmarks d)) in
      putDb (setBookmarks
               (map (λ b, if decide (hit b) then setColumns input b else b)
                    (bookmarks d)) d);;
      match res with
      | [] => throw (TRPCError NOT_FOUND (Some "Bookmark not found"))
      | r :: _ =>
        add SearchIndexingQueue "search_indexing"
            (mkJob (ub_bookmarkId input) (Some OpIndex));;
        mret r
      end
    end)).

(** ** updateBookmarkText *)

(** [text: z.string().max(2000)]: the input parser runs for the authenticated
    caller and before the middleware of the procedure; a text of more than
    2000 code units is refused with BAD_REQUEST. The message of the refusal
    is the parser's report of the issue, which is not modelled. *)
Definition updateBookmarkText (ctx : Context) (bookmarkId : Id) (text : string)
    : M unit :=
  authedProcedure ctx (λ user,
  if decide (2000 < Z.of_nat (String.length text))
  then throw (TRPCError BAD_REQUEST None)
  else
  ensureBookmarkOwnership ctx bookmarkId (
    d ← getDb;
    let res := filter (λ t, bt_id t = bookmarkId) (bookmarkTexts d) in
    putDb (setBookmarkTexts
             (map (λ t, if decide (bt_id t = bookmarkId)
                        then mkBookmarkText (bt_id t) (Some text) else t)
                  (bookmarkTexts d)) d);;
    if decide (length res = 0%nat)
    then throw (TRPCError NOT_FOUND (Some "Bookmark not found"))
    else add SearchIndexingQueue "search_indexing"
             (mkJob bookmarkId (Some OpIndex)))).

(** ** deleteBookmark *)

(** Modelled from the spec: the foreign keys of the schema are not in the
    sources. [delete(bookmarks).where(userId = .. and id = ..)] reports the
    number of bookmark rows it removed; deleting a bookmark cascades to its
    tag attachments, and the other rows that exist only for the bookmark (its
    content variant, its list memberships) are taken to go the same way. *)
Definition deleteBookmarks (userId bookmarkId : Id) : M nat :=
  d ← getDb;
  let hit b := bk_userId b = userId ∧ bk_id b = bookmarkId in
  let changes := length (filter hit (bookmarks d)) in
  (if decide (changes = 0%nat) then mret ()
   else putDb
     (mkDb (filter (λ b, ¬ hit b) (bookmarks d))
           (filter (λ l, bl_id l ≠ bookmarkId) (bookmarkLinks d))
           (filter (λ t, bt_id t ≠ bookmarkId) (bookmarkTexts d))
           (filter (λ a, ba_id a ≠ bookmarkId) (bookmarkAssets d))
           (bookmarkTags d)
           (filter (λ t, tob_bookmarkId t ≠ bookmarkId) (tagsOnBookmarks d))
           (filter (λ t, bil_bookmarkId t ≠ bookmarkId) (bookmarksInLists d))));;
  mret changes.

(** The mutation behind the gate. *)
Definition deleteBookmarkMutation (user : User) (bookmarkId : Id) : M unit :=
  d ← getDb;
  let asset := head (filter (λ a, ba_id a = bookmarkId) (bookmarkAssets d)) in
  changes ← deleteBookmarks (user_id user) bookmarkId;
  add SearchIndexingQueue "search_indexing"
      (mkJob bookmarkId (Some OpDelete));;
  if decide (0 < changes)%nat
  then
    match asset with
    | Some asset => deleteAsset (user_id user) (ba_assetId asset)
    | None => mret ()
    end
  else mret ().

Definition deleteBookmark (ctx : Context) (bookmarkId : Id) : M unit :=
  authedProcedure ctx (λ user,
  ensureBookmarkOwnership ctx bookmarkId (
    deleteBookmarkMutation user bookmarkId)).

(** ** recrawlBookmark *)

Definition recrawlBookmark (ctx : Context) (bookmarkId : Id) : M unit :=
  authedProcedure ctx (λ user,
  ensureBookmarkOwnership ctx bookmarkId (
    add LinkCrawlerQueue "crawl" (mkJob bookmarkId None))).

(** ** getBookmark *)

Definition getBookmark (ctx : Context) (bookmarkId : Id) : M ZBookmark :=
  authedProcedure ctx (λ user,
  ensureBookmarkOwnership ctx bookmarkId (
    d ← getDb;
    let bookmark :=
      head (filter (λ b, bk_userId b = user_id user ∧ bk_id b = bookmarkId)
                   (bookmarks d)) in
    match bookmark with
    | None => throw (TRPCError NOT_FOUND (Some "Bookmark not found"))
    | Some bookmark => mret (toZodSchema (withRelations d bookmark))
    end)).

(** ** searchBookmarks *)

Record Hit := mkHit {
  hit_id : Id;
  hit_rankingScore : Q }.

(** The search engine is outside the program, and [getSearchIdxClient] of
    "@hoarder/shared/search" is not in the sources: a client is any function
    from the query text and the options to the hits it answers with, and the
    procedure is given the client, or none when search is not configured. *)
Definition SearchClient : Type := string → SearchParams → list Hit.

Definition search (client : SearchClient) (text : string)
    (params : SearchParams) : M (list Hit) :=
  emit (EvSearch text params);;
  mret (client text params).

(** [Array.prototype.sort(compare)], which is stable: an element goes before
    the elements it started before unless [compare] puts one of them strictly
    first. [gt a b] is [compare(a, b) > 0]. *)
Fixpoint sortInsert {A} (gt : A → A → bool) (x : A) (l : list A) : list A :=
  match l with
  | [] => [x]
  | y :: l' => if gt x y then y :: sortInsert gt x l' else x :: y :: l'
  end.

Definition sort {A} (gt : A → A → bool) (l : list A) : list A :=
  foldr (sortInsert gt) [] l.

(** [resp.hits.reduce((acc, r) => { acc[r.id] = r._rankingScore; return acc },
    {})]: an object literal used as a map from ids to scores. The key
    [__proto__] is the accessor of the prototype, whose setter ignores a
    number: that assignment stores nothing. *)
Definition idToRank (hits : list Hit) : gmap string Q :=
  foldl (λ (acc : gmap string Q) r,
           if decide (hit_id r = "__proto__") then acc
           else <[hit_id r := hit_rankingScore r]> acc)
        ∅ hits.

(** [idToRank[b.id] - idToRank[a.id] > 0]; with an id that has no score of
    its own (it reads as undefined, or as the member inherited from
    [Object.prototype]) the difference is NaN, which is not greater than
    zero. *)
Definition rankGt (idToRank : gmap string Q)
    (a b : BookmarkQueryReturnType) : bool :=
  match idToRank !! bk_id (q_rest b), idToRank !! bk_id (q_rest a) with
  | Some rb, Some ra => negb (Qle_bool rb ra)
  | _, _ => false
  end.

Record GetBookmarksResponse := mkGetBookmarksResponse {
  r_bookmarks : list ZBookmark;
  r_nextCursor : option Time }.

Definition ownerFilter (user : User) : string :=
  "userId = '" ++ user_id user ++ "'".

Definition searchBookmarks (client : option SearchClient) (ctx : Context)
    (text : string) : M GetBookmarksResponse :=
  authedProcedure ctx (λ user,
    match client with
    | None =>
      throw (TRPCError INTERNAL_SERVER_ERROR
               (Some "Search functionality is not configured"))
    | Some client =>
      hits ← search client text
        {| sp_filter := [ownerFilter user];
           sp_showRankingScore := true;
           sp_attributesToRetrieve := ["id"];
           sp_sort := ["createdAt:desc"] |};
      if decide (length hits = 0%nat)
      then mret (mkGetBookmarksResponse [] None)
      else
        let idToRank := idToRank hits in
        d ← getDb;
        let results :=
          map (withRelations d)
              (filter (λ b, bk_userId b = user_id user
                            ∧ bk_id b ∈ map hit_id hits)
                      (bookmarks d)) in
        let results := sort (rankGt idToRank) results in
        mret (mkGetBookmarksResponse (map toZodSchema results) None)
    end).

(** ** getBookmarks *)

Record GetBookmarksRequest := mkGetBookmarksRequest {
  gb_ids : option (list Id);
  gb_archived : option bool;
  gb_favourited : option bool;
  gb_tagId : option Id;
  gb_listId : option Id;
  gb_limit : option nat;
  gb_cursor : option Time }.

(** A condition that is [undefined] is dropped from [and(...)]. *)
Definition whenSet {A} (o : option A) (P : A → Prop) : Prop :=
  match o with
  | Some a => P a
  | None => True
  end.

Global Instance whenSet_dec {A} (o : option A) (P : A → Prop)
    `{∀ a, Decision (P a)} : Decision (whenSet o P).
Proof. destruct o; simpl; apply _. Defined.

(** The [where] of the [bookmarksSq] subquery. *)
Definition bookmarksSqWhere (d : Db) (user : User)
    (input : GetBookmarksRequest) (b : Bookmark) : Prop :=
  bk_userId b = user_id user
  ∧ whenSet (gb_archived input) (λ a, bk_archived b = a)
  ∧ whenSet (gb_favourited input) (λ f, bk_favourited b = f)
  ∧ whenSet (gb_ids input) (λ ids, bk_id b ∈ ids)
  ∧ whenSet (gb_tagId input) (λ tagId,
      Exists (λ t, tob_bookmarkId t = bk_id b ∧ tob_tagId t = tagId)
             (tagsOnBookmarks d))
  ∧ whenSet (gb_listId input) (λ listId,
      Exists (λ t, bil_bookmarkId t = bk_id b ∧ bil_listId t = listId)
             (bookmarksInLists d))
  ∧ whenSet (gb_cursor input) (λ cursor, bk_createdAt b ≤ cursor).

Global Instance bookmarksSqWhere_dec d user input b :
  Decision (bookmarksSqWhere d user input b).
Proof. unfold bookmarksSqWhere. apply _. Defined.

(** [orderBy(desc(key))]: the larger key first. SQL leaves the order of rows
    with equal keys open; here they stay in the order they had. *)
Definition orderByDesc {A} (key : A → Time) (l : list A) : list A :=
  sort (λ a b, bool_decide (key a < key b)) l.

(** A row of the joined select. *)
Record JoinRow := mkJoinRow {
  row_bookmarksSq : Bookmark;
  row_tagsOnBookmarks : option TagOnBookmark;
  row_bookmarkTags : option BookmarkTag;
  row_bookmarkLinks : option BookmarkLink;
  row_bookmarkTexts : option BookmarkText;
  row_bookmarkAssets : option BookmarkAsset }.

(** The right side of a left join: the matching rows, or one null. *)
Definition leftJoin {A} (matching : list A) : list (option A) :=
  match matching with
  | [] => [None]
  | _ => map Some matching
  end.

Definition joinRows (d : Db) (sq : list Bookmark) : list JoinRow :=
  b ← sq;
  t ← leftJoin (filter (λ t, tob_bookmarkId t = bk_id b) (tagsOnBookmarks d));
  g ← leftJoin (match t with
                | Some t => filter (λ g, tob_tagId t = tg_id g) (bookmarkTags d)
                | None => []
                end);
  l ← leftJoin (filter (λ l, bl_id l = bk_id b) (bookmarkLinks d));
  x ← leftJoin (filter (λ x, bt_id x = bk_id b) (bookmarkTexts d));
  a ← leftJoin (filter (λ a, ba_id a = bk_id b) (bookmarkAssets d));
  [mkJoinRow b t g l x a].

(** [Array.prototype.reduce] with a callback that may throw. *)
Fixpoint reduce {A B} (f : B → A → M B) (l : list A) (acc : B) : M B :=
  match l with
  | [] => mret acc
  | x :: l' => acc' ← f acc x; reduce f l' acc'
  end.

(** A [Record<string, V>] that starts as [{}] and is built by assignments:
    its own properties in the order they were first assigned. *)
Definition hasKey {V} (o : list (string * V)) (k : string) : Prop :=
  k ∈ map fst o.

(** The members of [Object.prototype], which an object literal inherits: a
    read of one of these keys that finds no own property gives the inherited
    member, a function (for [__proto__] the prototype object), which is
    truthy and has no property [tags]. *)
Definition objectPrototype : list string :=
  ["constructor"; "__defineGetter__"; "__defineSetter__"; "hasOwnProperty";
   "__lookupGetter__"; "__lookupSetter__"; "isPrototypeOf";
   "propertyIsEnumerable"; "toString"; "valueOf"; "__proto__";
   "toLocaleString"].

Definition inherited (k : string) : Prop := k ∈ objectPrototype.

Global Instance inherited_dec k : Decision (inherited k).
Proof. unfold inherited. apply _. Defined.

Global Instance hasKey_dec {V} (o : list (string * V)) k : Decision (hasKey o k).
Proof. unfold hasKey. apply _. Defined.

Definition alterKey {V} (f : V → V) (k : string) (o : list (string * V))
    : list (string * V) :=
  map (λ kv, if decide (kv.1 = k) then (kv.1, f kv.2) else kv) o.

Definition pushTag (t : ZBookmarkTags) (b : ZBookmark) : ZBookmark :=
  mkZBookmark (zb_tags b ++ [t]) (zb_content b) (zb_rest b).

Definition reduceRow (acc : list (string * ZBookmark)) (row : JoinRow)
    : M (list (string * ZBookmark)) :=
  let bookmarkId := bk_id (row_bookmarksSq row) in
  let acc :=
    (* if (!acc[bookmarkId]) *)
    if decide (hasKey acc bookmarkId ∨ inherited bookmarkId) then acc
    else
      let content :=
        match row_bookmarkLinks row with
        | Some link => ContentLink link
        | None =>
          match row_bookmarkTexts row with
          | Some text => ContentText (default "" (bt_text text))
          | None =>
            match row_bookmarkAssets row with
            | Some asset =>
              ContentAsset (ba_assetType asset) (ba_assetId asset)
            | None => ContentUnknown
            end
          end
        end in
      acc ++ [(bookmarkId, mkZBookmark [] content (row_bookmarksSq row))] in
  match row_bookmarkTags row with
  | Some tag =>
    match row_tagsOnBookmarks row with
    | None =>
      throw (DriverError "Invariant failed: if bookmark tag is set, its many-to-many relation must also be set")
    | Some t =>
      (* acc[bookmarkId].tags.push(...) *)
      if decide (hasKey acc bookmarkId)
      then
        mret (alterKey (pushTag (mkZBookmarkTags (tob_attachedBy t) (Some tag)))
                       bookmarkId acc)
      else
        throw (TypeError
                 "Cannot read properties of undefined (reading 'push')")
    end
  | None => mret acc
  end.

(** The array index a property key denotes, if it is one: a canonical
    decimal numeral below 2^32 - 1. *)
Definition digit (c : ascii) : option N :=
  let n := N_of_ascii c in
  if ((48 <=? n) && (n <=? 57))%N then Some (n - 48)%N else None.

Fixpoint digits (s : string) (acc : N) : option N :=
  match s with
  | EmptyString => Some acc
  | String c s' =>
    match digit c with
    | Some v => digits s' (10 * acc + v)%N
    | None => None
    end
  end.

Definition arrayIndex (s : string) : option N :=
  match s with
  | EmptyString => None
  | String c s' =>
    if bool_decide (c = "0"%char ∧ s' ≠ EmptyString) then None
    else
      match digits s 0%N with
      | Some n => if (n <=? 4294967294)%N then Some n else None
      | None => None
      end
  end.

(** [Object.values]: the values of the array-index keys in ascending numeric
    order, then those of the other keys in assignment order. *)
Definition objectValues {V} (o : list (string * V)) : list V :=
  let indexed := omap (λ kv, option_map (λ n, (n, kv.2)) (arrayIndex kv.1)) o in
  let named := filter (λ kv, arrayIndex kv.1 = None) o in
  map snd (sort (λ a b, (b.1 <? a.1)%N) indexed) ++ map snd named.

Section GetBookmarks.

(** The page size of "../types/bookmarks", which is not in the sources. *)
Variable DEFAULT_NUM_BOOKMARKS_PER_PAGE : nat.

(** [if (!input.limit) input.limit = DEFAULT]: an unset limit and a limit of
    zero are both falsy. *)
Definition effectiveLimit (input : GetBookmarksRequest) : nat :=
  match gb_limit input with
  | None | Some O => DEFAULT_NUM_BOOKMARKS_PER_PAGE
  | Some n => n
  end.

Definition getBookmarks (ctx : Context) (input : GetBookmarksRequest)
    : M GetBookmarksResponse :=
  authedProcedure ctx (λ user,
    if decide (gb_ids input = Some [])
    then mret (mkGetBookmarksResponse [] None)
    else
      let limit := effectiveLimit input in
      d ← getDb;
      let sq :=
        take (limit + 1)
             (orderByDesc bk_createdAt
                (filter (bookmarksSqWhere d user input) (bookmarks d))) in
      let results := orderByDesc (λ r, bk_createdAt (row_bookmarksSq r))
                                 (joinRows d sq) in
      bookmarksRes ← reduce reduceRow results [];
      let bookmarksArr := objectValues bookmarksRes in
      if decide (limit < length bookmarksArr)%nat
      then
        mret (mkGetBookmarksResponse
                (take (length bookmarksArr - 1) bookmarksArr)
                (option_map (λ b, bk_createdAt (zb_rest b)) (last bookmarksArr)))
      else mret (mkGetBookmarksResponse bookmarksArr None)).

End GetBookmarks.

(** ** updateTags *)

Record AttachItem := mkAttachItem {
  at_tagId : option Id;
  at_tag : string }.

(** Modelled from the spec: the schema of [bookmarkTags] is not in the
    sources; a tag has an identity [id] and a name unique per owner.
    [insert(bookmarkTags).values(rows).onConflictDoNothing()] inserts the rows
    one after the other, the k-th with the generated id [genId k]; a row
    whose id or whose (userId, name) is already in the table is skipped. An
    empty [values] is refused by the query builder. *)
Fixpoint insertTagRows (genId : nat → Id) (k : nat)
    (rows : list (string * Id)) (table : list BookmarkTag) : list BookmarkTag :=
  match rows with
  | [] => table
  | (name, userId) :: rows' =>
    let table' :=
      if decide (genId k ∈ map tg_id table
                 ∨ Exists (λ g, tg_userId g = userId ∧ tg_name g = name) table)
      then table
      else table ++ [mkBookmarkTag (genId k) name userId] in
    insertTagRows genId (S k) rows' table'
  end.

Definition insertBookmarkTags (genId : nat → Id)
    (rows : list (string * Id)) : M unit :=
  match rows with
  | [] => throw (DriverError "values() must be called with at least one value")
  | _ =>
    d ← getDb;
    putDb (setBookmarkTags (insertTagRows genId 0 rows (bookmarkTags d)) d)
  end.

(** Modelled from the spec: the schema of [tagsOnBookmarks] is not in the
    sources; an attachment has the composite key (bookmarkId, tagId).
    [insert(tagsOnBookmarks).values(rows).onConflictDoNothing()] skips a row
    whose (bookmarkId, tagId) is already in the table. The [userId] the
    router passes along is not a column of the attachment. *)
Fixpoint insertAttachmentRows (rows : list TagOnBookmark)
    (table : list TagOnBookmark) : list TagOnBookmark :=
  match rows with
  | [] => table
  | r :: rows' =>
    let table' :=
      if decide (Exists (λ t, tob_bookmarkId t = tob_bookmarkId r
                              ∧ tob_tagId t = tob_tagId r) table)
      then table
      else table ++ [r] in
    insertAttachmentRows rows' table'
  end.

Definition insertTagsOnBookmarks (rows : list TagOnBookmark) : M unit :=
  match rows with
  | [] => throw (DriverError "values() must be called with at least one value")
  | _ =>
    d ← getDb;
    putDb (setTagsOnBookmarks (insertAttachmentRows rows (tagsOnBookmarks d)) d)
  end.

Definition updateTagsTx (user : User) (bookmarkId : Id)
    (attach : list AttachItem) (detach : list Id) (genId : nat → Id) : M unit :=
  (* Detaches *)
  (if decide (0 < length detach)%nat
   then
     d ← getDb;
     putDb (setTagsOnBookmarks
              (filter (λ t, ¬ (tob_bookmarkId t = bookmarkId
                               ∧ tob_tagId t ∈ detach))
                      (tagsOnBookmarks d)) d)
   else mret ());;
  if decide (length attach = 0%nat) then mret ()
  else
    (* New Tags *)
    let toBeCreatedTags :=
      map (λ i, (at_tag i, user_id user))
          (filter (λ i, at_tagId i = None) attach) in
    (if decide (0 < length toBeCreatedTags)%nat
     then insertBookmarkTags genId toBeCreatedTags
     else mret ());;
    d ← getDb;
    let allIds :=
      map tg_id
          (filter (λ g, tg_userId g = user_id user
                        ∧ tg_name g ∈ map at_tag attach)
                  (bookmarkTags d)) in
    insertTagsOnBookmarks
      (map (λ i, mkTagOnBookmark bookmarkId i Human) allIds).

Definition updateTags (ctx : Context) (bookmarkId : Id)
    (attach : list AttachItem) (detach : list Id) (genId : nat → Id) : M unit :=
  authedProcedure ctx (λ user,
  ensureBookmarkOwnership ctx bookmarkId (
    transaction (updateTagsTx user bookmarkId attach detach genId))).

(** ** Reading the trace *)

Global Instance Queue_eq_dec : EqDecision Queue.
Proof. solve_decision. Defined.

(** The jobs handed to queue [q], in order. *)
Definition jobsOn (q : Queue) (tr : list Event) : list (string * Job) :=
  omap (λ e, match e with
             | EvAdd q' name j => if decide (q' = q) then Some (name, j) else None
             | _ => None
             end) tr.

(** The asset releases, in order, as (userId, assetId). *)
Definition released (tr : list Event) : list (Id * Id) :=
  omap (λ e, match e with
             | EvDeleteAsset u a => Some (u, a)
             | _ => None
             end) tr.

(** No job is handed to a queue between a begin and the commit that closes
    it. [inTx] tells whether the trace starts inside a transaction. *)
Fixpoint noAddInTx (inTx : bool) (tr : list Event) : bool :=
  match tr with
  | [] => true
  | EvBegin :: tr' => noAddInTx true tr'
  | EvCommit :: tr' => noAddInTx false tr'
  | EvAdd _ _ _ :: tr' => negb inTx && noAddInTx inTx tr'
  | _ :: tr' => noAddInTx inTx tr'
  end.

(** What a call leaves behind, whatever the type of its result. *)
Definition failure {A} (r : Result A * World) : option Error * World :=
  match r with
  | (Ok _, w) => (None, w)
  | (Err e, w) => (Some e, w)
  end.

(** The procedures that run behind [ensureBookmarkOwnership]. *)
Inductive Mutation :=
| MUpdateBookmark (input : UpdateBookmarksRequest)
| MUpdateBookmarkText (bookmarkId : Id) (text : string)
| MDeleteBookmark (bookmarkId : Id)
| MRecrawlBookmark (bookmarkId : Id)
| MGetBookmark (bookmarkId : Id)
| MUpdateTags (bookmarkId : Id) (attach : list AttachItem) (detach : list Id)
              (genId : nat → Id).

Definition target (m : Mutation) : Id :=
  match m with
  | MUpdateBookmark input => ub_bookmarkId input
  | MUpdateBookmarkText bookmarkId _ => bookmarkId
  | MDeleteBookmark bookmarkId => bookmarkId
  | MRecrawlBookmark bookmarkId => bookmarkId
  | MGetBookmark bookmarkId => bookmarkId
  | MUpdateTags bookmarkId _ _ _ => bookmarkId
  end.

Definition call (ctx : Context) (m : Mutation) (w : World)
    : option Error * World :=
  match m with
  | MUpdateBookmark input => failure (updateBookmark ctx input w)
  | MUpdateBookmarkText bookmarkId text =>
    failure (updateBookmarkText ctx bookmarkId text w)
  | MDeleteBookmark bookmarkId => failure (deleteBookmark ctx bookmarkId w)
  | MRecrawlBookmark bookmarkId => failure (recrawlBookmark ctx bookmarkId w)
  | MGetBookmark bookmarkId => failure (getBookmark ctx bookmarkId w)
  | MUpdateTags bookmarkId attach detach genId =>
    failure (updateTags ctx bookmarkId attach detach genId w)
  end.

(** The input of the call passes the parser of its procedure: the text of
    updateBookmarkText has at most 2000 code units; the other procedures
    take what their type allows. *)
Definition parses (m : Mutation) : Prop :=
  match m with
  | MUpdateBookmarkText _ text =>
    Z.of_nat (String.length text) ≤ 2000
  | _ => True
  end.

Global Instance parses_dec m : Decision (parses m).
Proof. destruct m; simpl; apply _. Defined.

(** The primary key of [bookmarks]. *)
Definition bookmarksKey (d : Db) : Prop := NoDup (map bk_id (bookmarks d)).

(** ** A store to run the procedures on *)

Module Sample.

Definition alice : Context := mkContext (Some (mkUser "alice")).
Definition bob : Context := mkContext (Some (mkUser "bob")).
Definition anonymous : Context := mkContext None.

Definition genId (k : nat) : Id :=
  match k with
  | O => "t7"
  | 1%nat => "t8"
  | _ => "t9"
  end.

(** alice owns a link (b1), an image (b2) and a bookmark without a content
    row (b4); bob owns a text (b3). The tag "rocq" of alice is on b1, attached
    by the tagger; "todo" is hers too. *)
Definition store : Db :=
  {| bookmarks :=
       [mkBookmark "b1" "alice" 10 false false None (Some TsSuccess);
        mkBookmark "b2" "alice" 20 false true None (Some TsPending);
        mkBookmark "b3" "bob" 30 false false None (Some TsPending);
        mkBookmark "b4" "alice" 40 true false (Some "lost") (Some TsFailure)];
     bookmarkLinks :=
       [mkBookmarkLink "b1" "https://example.com" (Some "Example")
          None None (Some 11) None None None];
     bookmarkTexts := [mkBookmarkText "b3" (Some "buy milk")];
     bookmarkAssets := [mkBookmarkAsset "b2" Image "a1" None None None];
     bookmarkTags :=
       [mkBookmarkTag "t1" "rocq" "alice"; mkBookmarkTag "t2" "todo" "alice"];
     tagsOnBookmarks := [mkTagOnBookmark "b1" "t1" Ai];
     bookmarksInLists := [] |}.

Definition world : World := mkWorld store [].

(** The store with a link row of id b9 that no bookmark owns. *)
Definition strayLink : World :=
  mkWorld (setBookmarkLinks
             (bookmarkLinks store
              ++ [mkBookmarkLink "b9" "https://stray.example" None None None
                                 None None None None])
             store) [].

(** An engine that ignores the filter and answers with every id. *)
(** The store with one more bookmark of alice, the oldest, whose id is a
    numeral. *)
Definition numeralId : World :=
  mkWorld (setBookmarks
             (bookmarks store
              ++ [mkBookmark "7" "alice" 5 false false None (Some TsSuccess)])
             store) [].

(** The store with one more bookmark of alice, the newest, whose id is the
    name of a member of Object.prototype. *)
Definition inheritedId : World :=
  mkWorld (setBookmarks
             (bookmarks store
              ++ [mkBookmark "constructor" "alice" 50 false false None
                             (Some TsSuccess)])
             store) [].

Definition longText : string :=
  string_of_list_ascii (replicate 2001 "a"%char).

Definition leakyClient : SearchClient :=
  λ _ _, [mkHit "b3" (9 # 10); mkHit "b1" (1 # 2); mkHit "b2" (7 # 10)].

End Sample.

(** The rows of the content tables, and those of them that belong to one
    bookmark id. *)
Definition variantTotal (d : Db) : nat :=
  (length (bookmarkLinks d) + length (bookmarkTexts d)
   + length (bookmarkAssets d))%nat.

Definition variantRows (d : Db) (bookmarkId : Id) : nat :=
  (length (filter (λ l, bl_id l = bookmarkId) (bookmarkLinks d))
   + length (filter (λ t, bt_id t = bookmarkId) (bookmarkTexts d))
   + length (filter (λ a, ba_id a = bookmarkId) (bookmarkAssets d)))%nat.

(** ** The stages of updateTags, as functions of the store *)

(** The tag rows of one owner and name, and the attachment rows of one
    bookmark and tag. *)
Definition tagRows (d : Db) (owner : Id) (name : string) : list BookmarkTag :=
  filter (λ g, tg_userId g = owner ∧ tg_name g = name) (bookmarkTags d).

Definition attachmentRows (d : Db) (bookmarkId tagId : Id)
    : list TagOnBookmark :=
  filter (λ t, tob_bookmarkId t = bookmarkId ∧ tob_tagId t = tagId)
         (tagsOnBookmarks d).

Definition afterDetach (bookmarkId : Id) (detach : list Id) (d : Db)
    : list TagOnBookmark :=
  filter (λ t, ¬ (tob_bookmarkId t = bookmarkId ∧ tob_tagId t ∈ detach))
         (tagsOnBookmarks d).

Definition afterCreate (user : User) (attach : list AttachItem)
    (genId : nat → Id) (d : Db) : list BookmarkTag :=
  insertTagRows genId 0
    (map (λ i, (at_tag i, user_id user))
         (filter (λ i, at_tagId i = None) attach))
    (bookmarkTags d).

Definition attachedIds (user : User) (attach : list AttachItem)
    (tags : list BookmarkTag) : list Id :=
  map tg_id
      (filter (λ g, tg_userId g = user_id user ∧ tg_name g ∈ map at_tag attach)
              tags).

Definition afterAttach (user : User) (bookmarkId : Id)
    (attach : list AttachItem) (detach : list Id) (genId : nat → Id) (d : Db)
    : list TagOnBookmark :=
  insertAttachmentRows
    (map (λ i, mkTagOnBookmark bookmarkId i Human)
         (attachedIds user attach (afterCreate user attach genId d)))
    (afterDetach bookmarkId detach d).

(** ** getBookmarks, as a page of the matching bookmarks *)

(** The joined rows of one bookmark of the subquery. *)
Definition rowsFor (d : Db) (b : Bookmark) : list JoinRow :=
  t ← leftJoin (filter (λ t, tob_bookmarkId t = bk_id b) (tagsOnBookmarks d));
  g ← leftJoin (match t with
                | Some t => filter (λ g, tob_tagId t = tg_id g) (bookmarkTags d)
                | None => []
                end);
  l ← leftJoin (filter (λ l, bl_id l = bk_id b) (bookmarkLinks d));
  x ← leftJoin (filter (λ x, bt_id x = bk_id b) (bookmarkTexts d));
  a ← leftJoin (filter (λ a, ba_id a = bk_id b) (bookmarkAssets d));
  [mkJoinRow b t g l x a].

(** All the bookmarks of the caller that pass the request's filters and the
    cursor, newest first. *)
Definition matching (d : Db) (user : User) (input : GetBookmarksRequest)
    : list Bookmark :=
  orderByDesc bk_createdAt (filter (bookmarksSqWhere d user input) (bookmarks d)).

(** No bookmark id is an array index: the ids are generated, not numerals. *)
Definition plainIds (d : Db) : Prop :=
  Forall (λ b, arrayIndex (bk_id b) = None) (bookmarks d).

(** No bookmark id is the name of a member of [Object.prototype]. *)
Definition ownIds (d : Db) : Prop :=
  Forall (λ b, ¬ inherited (bk_id b)) (bookmarks d).

(** The order of [desc(key)]: the larger key first. *)
Definition descBy {A} (key : A → Time) : relation A := λ a b, key b ≤ key a.

(** Newest first. *)
Definition newestFirst (l : list Bookmark) : Prop :=
  StronglySorted (descBy bk_createdAt) l.

(** The accumulator of the reduce holds one entry per bookmark seen so far,
    keyed by its id, in the order the bookmarks were first seen. *)
Definition entriesOf (acc : list (string * ZBookmark)) (bs : list Bookmark)
    : Prop :=
  map fst acc = map bk_id bs ∧ map (λ kv, zb_rest kv.2) acc = bs.

(** ** The bookmark card of the mobile app *)

(** The functions of apps/mobile/components/bookmarks/BookmarkCard.tsx that
    decide whether a card is still loading; [Date.now()] is handed to them
    as [now]. *)
Definition MAX_LOADING_MSEC : Z := 30 * 1000.

Definition isBookmarkStillCrawling (now : Time) (bookmark : ZBookmark) : bool :=
  match zb_content bookmark with
  | ContentLink link =>
    bool_decide (bl_crawledAt link = None)
    && bool_decide (now - bk_createdAt (zb_rest bookmark) < MAX_LOADING_MSEC)
  | _ => false
  end.

Definition isBookmarkStillTagging (now : Time) (bookmark : ZBookmark) : bool :=
  bool_decide (bk_taggingStatus (zb_rest bookmark) = Some TsPending)
  && bool_decide (now - bk_createdAt (zb_rest bookmark) < MAX_LOADING_MSEC).

Definition isBookmarkStillLoading (now : Time) (bookmark : ZBookmark) : bool :=
  isBookmarkStillTagging now bookmark || isBookmarkStillCrawling now bookmark.

(** The [refetchInterval] of the card's query: the delay to the next fetch in
    milliseconds, or none ([false]) to stop polling. *)
Definition refetchInterval (now : Time) (data : option ZBookmark) : option Z :=
  match data with
  | None => None
  | Some data =>
    (* If the link is not crawled or not tagged *)
    if isBookmarkStillLoading now data then Some 1000 else None
  end.

(** ** The integrity of the store *)

(** The constraints of the data model: the identities of the rows, the name
    of a tag unique per owner, the composite key of an attachment, and the
    references of content rows and attachments. *)
Definition wellFormed (d : Db) : Prop :=
  NoDup (map bk_id (bookmarks d))
  ∧ NoDup (map bl_id (bookmarkLinks d))
  ∧ NoDup (map bt_id (bookmarkTexts d))
  ∧ NoDup (map ba_id (bookmarkAssets d))
  ∧ NoDup (map tg_id (bookmarkTags d))
  ∧ NoDup (map (λ g, (tg_userId g, tg_name g)) (bookmarkTags d))
  ∧ NoDup (map (λ t, (tob_bookmarkId t, tob_tagId t)) (tagsOnBookmarks d))
  ∧ Forall (λ l, bl_id l ∈ map bk_id (bookmarks d)) (bookmarkLinks d)
  ∧ Forall (λ t, bt_id t ∈ map bk_id (bookmarks d)) (bookmarkTexts d)
  ∧ Forall (λ a, ba_id a ∈ map bk_id (bookmarks d)) (bookmarkAssets d)
  ∧ Forall (λ t, tob_bookmarkId t ∈ map bk_id (bookmarks d)
                 ∧ tob_tagId t ∈ map tg_id (bookmarkTags d))
           (tagsOnBookmarks d).

Global Instance wellFormed_dec d : Decision (wellFormed d).
Proof. unfold wellFormed. apply _. Defined.

(** A bookmark as the public schema shows it. *)
Definition converted (d : Db) (b : Bookmark) : ZBookmark :=
  toZodSchema (withRelations d b).

(** The request for the page after the one that ended with [cursor]. *)
Definition nextPage (cursor : Time) (input : GetBookmarksRequest)
    : GetBookmarksRequest :=
  mkGetBookmarksRequest (gb_ids input) (gb_archived input)
    (gb_favourited input) (gb_tagId input) (gb_listId input) (gb_limit input)
    (Some cursor).

(** The ranking score the handler holds for an id. *)
Definition rankOf (hits : list Hit) (bookmarkId : Id) : option Q :=
  idToRank hits !! bookmarkId.

(** The order of the search results: the first has a score, and so has the
    second, which is no larger. *)
Definition byRank (hits : list Hit) (a b : Id) : Prop :=
  ∃ ra rb, rankOf hits a = Some ra ∧ rankOf hits b = Some rb ∧ (rb <= ra)%Q.

(** The one query searchBookmarks sends to the engine. *)
Definition searchParams (user : User) : SearchParams :=
  {| sp_filter := [ownerFilter user];
     sp_showRankingScore := true;
     sp_attributesToRetrieve := ["id"];
     sp_sort := ["createdAt:desc"] |}.

(** All the jobs in a trace, in order, each with its queue and name. *)
Definition jobs (tr : list Event) : list (Queue * string * Job) :=
  omap (λ e, match e with
             | EvAdd q name j => Some (q, name, j)
             | _ => None
             end) tr.

(** The jobs each gated procedure hands to the queues when it succeeds. *)
Definition jobsOf (m : Mutation) : list (Queue * string * Job) :=
  match m with
  | MUpdateBookmark input =>
    [(SearchIndexingQueue, "search_indexing",
      mkJob (ub_bookmarkId input) (Some OpIndex))]
  | MUpdateBookmarkText bookmarkId _ =>
    [(SearchIndexingQueue, "search_indexing", mkJob bookmarkId (Some OpIndex))]
  | MDeleteBookmark bookmarkId =>
    [(SearchIndexingQueue, "search_indexing", mkJob bookmarkId (Some OpDelete))]
  | MRecrawlBookmark bookmarkId =>
    [(LinkCrawlerQueue, "crawl", mkJob bookmarkId None)]
  | MGetBookmark _ => []
  | MUpdateTags _ _ _ _ => []
  end.

(** The tag a joined row adds to its bookmark in the reduce, if any. *)
Definition rowTag (r : JoinRow) : option ZBookmarkTags :=
  match row_bookmarkTags r, row_tagsOnBookmarks r with
  | Some g, Some t => Some (mkZBookmarkTags (tob_attachedBy t) (Some g))
  | _, _ => None
  end.

(** The content a joined row gives its bookmark in the reduce. *)
Definition rowContent (r : JoinRow) : ZBookmarkContent :=
  match row_bookmarkLinks r with
  | Some link => ContentLink link
  | None =>
    match row_bookmarkTexts r with
    | Some text => ContentText (default "" (bt_text text))
    | None =>
      match row_bookmarkAssets r with
      | Some asset => ContentAsset (ba_assetType asset) (ba_assetId asset)
      | None => ContentUnknown
      end
    end
  end.

(** * Verification *)

(** A closed decidable proposition is settled by evaluating its decision. *)
Ltac by_decide := apply (bool_decide_unpack _); vm_compute; exact I.

(** ** Lists and queries *)

Lemma filter_nil_not_elem {A B} `{EqDecision B} (f : A → B) (k : B) (l : list A) :
  k ∉ map f l → filter (λ x, f x = k) l = [].
Proof.
  induction l as [|x l IH]; intros H; [done|].
  rewrite filter_cons. destruct (decide (f x = k)) as [E|E].
  - exfalso. apply H. rewrite <- E. simpl. left.
  - apply IH. intros Hin. apply H. simpl. by right.
Qed.

Lemma findFirst_key {A B} `{EqDecision B} (f : A → B) (l : list A) (x : A) :
  NoDup (map f l) → x ∈ l →
  head (filter (λ y, f y = f x) l) = Some x.
Proof.
  induction l as [|y l IH]; intros Hnd Hin.
  - by apply elem_of_nil in Hin.
  - simpl in Hnd. apply NoDup_cons in Hnd as [Hy Hnd].
    rewrite filter_cons. apply elem_of_cons in Hin as [->|Hin].
    + by rewrite decide_True.
    + destruct (decide (f y = f x)) as [E|E].
      * exfalso. apply Hy. rewrite E. by apply list_elem_of_fmap_2.
      * by apply IH.
Qed.

(** ** The ownership gate *)

Lemma ensureBookmarkOwnership_not_found {A} ctx user bookmarkId (next : M A) w :
  ctx_user ctx = Some user →
  bookmarkId ∉ map bk_id (bookmarks (db w)) →
  ensureBookmarkOwnership ctx bookmarkId next w
  = (Err (TRPCError NOT_FOUND (Some "Bookmark not found")), w).
Proof.
  intros Hu Hid. unfold ensureBookmarkOwnership, mbind, M_bind, getDb. simpl.
  rewrite Hu. by rewrite (filter_nil_not_elem bk_id).
Qed.

Lemma ensureBookmarkOwnership_forbidden {A} ctx user bookmarkId (next : M A) w b :
  ctx_user ctx = Some user →
  bookmarksKey (db w) →
  b ∈ bookmarks (db w) → bk_id b = bookmarkId → bk_userId b ≠ user_id user →
  ensureBookmarkOwnership ctx bookmarkId next w
  = (Err (TRPCError FORBIDDEN (Some "User is not allowed to access resource")), w).
Proof.
  intros Hu Hk Hb <- Hne. unfold ensureBookmarkOwnership, mbind, M_bind, getDb.
  simpl. rewrite Hu. rewrite (findFirst_key bk_id) by done.
  by rewrite decide_True.
Qed.

Lemma ensureBookmarkOwnership_pass {A} ctx user bookmarkId (next : M A) w b :
  ctx_user ctx = Some user →
  bookmarksKey (db w) →
  b ∈ bookmarks (db w) → bk_id b = bookmarkId → bk_userId b = user_id user →
  ensureBookmarkOwnership ctx bookmarkId next w = next w.
Proof.
  intros Hu Hk Hb <- He. unfold ensureBookmarkOwnership, mbind, M_bind, getDb.
  simpl. rewrite Hu. rewrite (findFirst_key bk_id) by done.
  rewrite decide_False; [done|]. by intros H.
Qed.

Lemma authedProcedure_user {A} ctx user (k : User → M A) :
  ctx_user ctx = Some user → authedProcedure ctx k = k user.
Proof. intros Hu. unfold authedProcedure. by rewrite Hu. Qed.

(** C3 (as the code has it). Behind the gate, a call by an authenticated
    caller whose input passes the parser of the procedure fails with
    NOT_FOUND on an id that no bookmark has, and with FORBIDDEN on a bookmark
    of another user; the missing row is reported first, and in both cases the
    world (store and trace) is left as it was. This holds for updateBookmark,
    updateBookmarkText, deleteBookmark, recrawlBookmark, getBookmark and
    updateTags. An input that the parser refuses (a text of more than 2000
    code units for updateBookmarkText) is answered with BAD_REQUEST before
    the gate, and the world is left as it was. *)
Theorem gate_not_found_then_forbidden ctx user m w :
  ctx_user ctx = Some user →
  bookmarksKey (db w) →
  (parses m →
   (target m ∉ map bk_id (bookmarks (db w)) →
    call ctx m w = (Some (TRPCError NOT_FOUND (Some "Bookmark not found")), w))
   ∧ (∀ b, b ∈ bookmarks (db w) → bk_id b = target m →
           bk_userId b ≠ user_id user →
           call ctx m w
           = (Some (TRPCError FORBIDDEN
                      (Some "User is not allowed to access resource")), w)))
  ∧ (¬ parses m → ∃ msg, call ctx m w = (Some (TRPCError BAD_REQUEST msg), w)).
Proof.
  intros Hu Hk. split; [intros Hp; split|].
  - intros Hid. destruct m; simpl in *;
      unfold updateBookmark, updateBookmarkText, deleteBookmark,
        recrawlBookmark, getBookmark, updateTags;
      rewrite (authedProcedure_user _ user) by done;
      rewrite ?decide_False by lia;
      by rewrite (ensureBookmarkOwnership_not_found _ user).
  - intros b Hb Hid Hne. destruct m; simpl in *;
      unfold updateBookmark, updateBookmarkText, deleteBookmark,
        recrawlBookmark, getBookmark, updateTags;
      rewrite (authedProcedure_user _ user) by done;
      rewrite ?decide_False by lia;
      by rewrite (ensureBookmarkOwnership_forbidden _ user _ _ _ b).
  - intros Hp. destruct m; simpl in Hp; try done.
    exists None. simpl. unfold updateBookmarkText.
    rewrite (authedProcedure_user _ user) by done.
    by rewrite decide_True by lia.
Qed.

Lemma gate_not_found_then_forbidden_witness :
  call Sample.alice (MDeleteBookmark "b9") Sample.world
  = (Some (TRPCError NOT_FOUND (Some "Bookmark not found")), Sample.world)
  ∧ call Sample.alice
      (MUpdateTags "b3" [mkAttachItem None "mine"] [] Sample.genId) Sample.world
    = (Some (TRPCError FORBIDDEN
               (Some "User is not allowed to access resource")), Sample.world)
  ∧ ∃ msg, call Sample.alice (MUpdateBookmarkText "b1" Sample.longText)
             Sample.world
           = (Some (TRPCError BAD_REQUEST msg), Sample.world).
Proof.
  split; [|split].
  - refine (proj1 (proj1 (gate_not_found_then_forbidden Sample.alice
                            (mkUser "alice") (MDeleteBookmark "b9")
                            Sample.world eq_refl _) _) _);
      by_decide.
  - refine (proj2 (proj1 (gate_not_found_then_forbidden Sample.alice
                            (mkUser "alice")
                            (MUpdateTags "b3" [mkAttachItem None "mine"] []
                                         Sample.genId)
                            Sample.world eq_refl _) _)
                  (mkBookmark "b3" "bob" 30 false false None (Some TsPending))
                  _ eq_refl _); by_decide.
  - refine (proj2 (gate_not_found_then_forbidden Sample.alice (mkUser "alice")
                     (MUpdateBookmarkText "b1" Sample.longText)
                     Sample.world eq_refl _) _); by_decide.
Defined.

(** C3, counterexample to the sentence as the specification has it: alice
    calls updateBookmarkText with a text of 2001 characters, on an id that no
    bookmark has and on a bookmark of bob; the input parser answers both
    calls with BAD_REQUEST, not with NOT_FOUND and FORBIDDEN. *)
Lemma updateBookmarkText_long_text_bad_request :
  String.length Sample.longText = 2001%nat
  ∧ ("b9" ∉ map bk_id (bookmarks Sample.store))
  ∧ (∃ msg, updateBookmarkText Sample.alice "b9" Sample.longText Sample.world
            = (Err (TRPCError BAD_REQUEST msg), Sample.world))
  ∧ mkBookmark "b3" "bob" 30 false false None (Some TsPending)
    ∈ bookmarks Sample.store
  ∧ (∃ msg, updateBookmarkText Sample.alice "b3" Sample.longText Sample.world
            = (Err (TRPCError BAD_REQUEST msg), Sample.world)).
Proof.
  split; [by vm_compute|]. split; [by_decide|].
  split; [eexists; by vm_compute|]. split; [by_decide|eexists; by vm_compute].
Qed.

(** ** createBookmark *)

Ltac run_M :=
  unfold mbind, M_bind, mret, M_ret, throw, getDb, putDb, emit, add,
    deleteAsset in *; simpl in *.

(** What the callback of createBookmark does: it fails, or it returns the new
    bookmark row together with one row in the table of its content; either
    way it adds nothing to the trace. *)
Lemma createBookmarkTx_spec user input newId now w :
  match createBookmarkTx user input newId now w with
  | (Err e, w') => trace w' = trace w
  | (Ok b, w') =>
    trace w' = trace w
    ∧ zb_rest b = mkBookmark newId (user_id user) now false false None
                             (Some TsPending)
    ∧ zb_tags b = []
    ∧ bookmarks (db w') = bookmarks (db w) ++ [zb_rest b]
    ∧ bookmarkTags (db w') = bookmarkTags (db w)
    ∧ tagsOnBookmarks (db w') = tagsOnBookmarks (db w)
    ∧ bookmarksInLists (db w') = bookmarksInLists (db w)
    ∧ match input with
      | NewLink url =>
        ∃ l, zb_content b = ContentLink l ∧ bl_id l = newId
             ∧ bl_url l = trim url
             ∧ bookmarkLinks (db w') = bookmarkLinks (db w) ++ [l]
             ∧ bookmarkTexts (db w') = bookmarkTexts (db w)
             ∧ bookmarkAssets (db w') = bookmarkAssets (db w)
      | NewText text =>
        zb_content b = ContentText text
        ∧ bookmarkLinks (db w') = bookmarkLinks (db w)
        ∧ bookmarkTexts (db w')
          = bookmarkTexts (db w) ++ [mkBookmarkText newId (Some text)]
        ∧ bookmarkAssets (db w') = bookmarkAssets (db w)
      | NewAsset assetType assetId =>
        zb_content b = ContentAsset assetType assetId
        ∧ bookmarkLinks (db w') = bookmarkLinks (db w)
        ∧ bookmarkTexts (db w') = bookmarkTexts (db w)
        ∧ bookmarkAssets (db w')
          = bookmarkAssets (db w)
            ++ [mkBookmarkAsset newId assetType assetId None None None]
      | NewUnknown => False
      end
  end.
Proof.
  unfold createBookmarkTx, insertBookmarks, insertBookmarkLinks,
    insertBookmarkTexts, insertBookmarkAssets. run_M.
  destruct (decide (newId ∈ map bk_id (bookmarks (db w)))); [done|]. simpl.
  destruct input; simpl; [| | |done].
  - case_decide; simpl; [done|]. repeat split; eauto 10.
  - case_decide; simpl; [done|]. repeat split; eauto 10.
  - case_decide; simpl; [done|]. repeat split; eauto 10.
Qed.

(** The transaction has committed before its callback runs a statement. *)
Lemma transaction_run {A} (cb : M A) (w : World) :
  transaction cb w = cb (mkWorld (db w) (trace w ++ [EvBegin; EvCommit])).
Proof. unfold transaction. run_M. by rewrite <- app_assoc. Qed.

(** C1. createBookmark is not atomic: the unknown type is rejected after the
    bookmark row was inserted, and the row stays. The call of alice below
    fails with BAD_REQUEST and hands no job to any queue, yet the store has
    gained the bookmark row b9 without any content row: the transaction had
    committed before the insert ran, and nothing is put back. *)
Theorem createBookmark_not_atomic :
  let r := createBookmark Sample.alice NewUnknown "b9" 50 Sample.world in
  r.1 = Err (TRPCError BAD_REQUEST None)
  ∧ ("b9" ∉ map bk_id (bookmarks Sample.store))
  ∧ bookmarks (db r.2)
    = bookmarks Sample.store
      ++ [mkBookmark "b9" "alice" 50 false false None (Some TsPending)]
  ∧ variantRows (db r.2) "b9" = 0%nat
  ∧ variantTotal (db r.2) = variantTotal Sample.store
  ∧ trace r.2 = [EvBegin; EvCommit].
Proof.
  split; [reflexivity|]. split; [by_decide|]. by repeat split.
Qed.

(** C2. A successful createBookmark hands exactly one job to the crawl queue
    and none to the openai queue when the new bookmark is a link, exactly one
    job to the openai queue and none to the crawl queue when it is a text or
    an asset, and in every case exactly one search_indexing job of kind
    index; each job carries the id of the new bookmark. *)
Theorem createBookmark_jobs ctx input newId now w b w' :
  createBookmark ctx input newId now w = (Ok b, w') →
  ∃ new,
    trace w' = trace w ++ new
    ∧ bk_id (zb_rest b) = newId
    ∧ jobsOn SearchIndexingQueue new
      = [("search_indexing", mkJob newId (Some OpIndex))]
    ∧ match input with
      | NewLink _ =>
        (∃ l, zb_content b = ContentLink l)
        ∧ jobsOn LinkCrawlerQueue new = [("crawl", mkJob newId None)]
        ∧ jobsOn OpenAIQueue new = []
      | NewText _ | NewAsset _ _ =>
        (∀ l, zb_content b ≠ ContentLink l)
        ∧ jobsOn OpenAIQueue new = [("openai", mkJob newId None)]
        ∧ jobsOn LinkCrawlerQueue new = []
      | NewUnknown => False
      end.
Proof.
  unfold createBookmark, authedProcedure.
  destruct (ctx_user ctx) as [user|]; [|done].
  pose proof (createBookmarkTx_spec user input newId now
                (mkWorld (db w) (trace w ++ [EvBegin; EvCommit]))) as Htx.
  unfold mbind at 1, M_bind at 1. rewrite transaction_run.
  destruct (createBookmarkTx user input newId now _) as [[b1|e] w1]; [|done].
  run_M.
  destruct Htx as (Htr & Hrest & _ & _ & _ & _ & _ & Hin). simpl in *.
  assert (Hid : bk_id (zb_rest b1) = newId) by by rewrite Hrest.
  destruct input.
  - destruct Hin as (l & Hc & _). rewrite Hc. intros [= <- <-]. simpl.
    rewrite Htr, <- !app_assoc. simpl. rewrite Hid.
    eexists; split; [reflexivity|]. rewrite Hc. eauto 10.
  - destruct Hin as (Hc & _). rewrite Hc. intros [= <- <-]. simpl.
    rewrite Htr, <- !app_assoc. simpl. rewrite Hid.
    eexists; split; [reflexivity|]. rewrite Hc. repeat split; done.
  - destruct Hin as (Hc & _). rewrite Hc. intros [= <- <-]. simpl.
    rewrite Htr, <- !app_assoc. simpl. rewrite Hid.
    eexists; split; [reflexivity|]. rewrite Hc. repeat split; done.
  - done.
Qed.

Lemma createBookmark_jobs_witness :
  ∃ new,
    new = [EvBegin; EvCommit;
           EvAdd OpenAIQueue "openai" (mkJob "b5" None);
           EvAdd SearchIndexingQueue "search_indexing"
                 (mkJob "b5" (Some OpIndex))]
    ∧ jobsOn SearchIndexingQueue new
      = [("search_indexing", mkJob "b5" (Some OpIndex))]
    ∧ jobsOn OpenAIQueue new = [("openai", mkJob "b5" None)]
    ∧ jobsOn LinkCrawlerQueue new = [].
Proof.
  destruct (createBookmark_jobs Sample.alice (NewText "buy milk") "b5" 50
              Sample.world _ _ eq_refl) as (new & Htr & _ & Hs & _ & Ho & Hl).
  exists new. simpl in Htr. by subst new.
Defined.

(** ** deleteBookmark *)

Lemma elem_of_length_pos {A} (x : A) (l : list A) : x ∈ l → (0 < length l)%nat.
Proof. destruct l; [by intros ?%elem_of_nil|simpl; lia]. Qed.

Lemma deleteBookmarkMutation_spec user bookmarkId w :
  let hit b := bk_userId b = user_id user ∧ bk_id b = bookmarkId in
  let changes := length (filter hit (bookmarks (db w))) in
  let asset :=
    head (filter (λ a, ba_id a = bookmarkId) (bookmarkAssets (db w))) in
  let r := deleteBookmarkMutation user bookmarkId w in
  r.1 = Ok ()
  ∧ bookmarks (db r.2) = filter (λ b, ¬ hit b) (bookmarks (db w))
  ∧ trace r.2
    = trace w
      ++ [EvAdd SearchIndexingQueue "search_indexing"
                (mkJob bookmarkId (Some OpDelete))]
      ++ (if decide (0 < changes)%nat
          then match asset with
               | Some a => [EvDeleteAsset (user_id user) (ba_assetId a)]
               | None => []
               end
          else []).
Proof.
  unfold deleteBookmarkMutation, deleteBookmarks. run_M.
  set (hit := λ b, bk_userId b = user_id user ∧ bk_id b = bookmarkId).
  assert (Hsame : filter (λ b, ¬ hit b) (bookmarks (db w)) = bookmarks (db w)
                  ∨ length (filter hit (bookmarks (db w))) ≠ 0%nat).
  { destruct (decide (length (filter hit (bookmarks (db w))) = 0%nat)) as [E|E];
      [left|by right].
    apply nil_length_inv in E.
    induction (bookmarks (db w)) as [|b l IH]; [done|].
    rewrite filter_cons in E. rewrite filter_cons.
    destruct (decide (hit b)); [done|].
    rewrite decide_True by done. f_equal. by apply IH. }
  destruct (decide (length (filter hit (bookmarks (db w))) = 0%nat)) as [E|E];
    simpl.
  - destruct Hsame as [Hs|Hs]; [|done]. rewrite E. simpl.
    subst hit. simpl in Hs. by rewrite Hs.
  - destruct (decide (0 < length (filter hit (bookmarks (db w))))%nat); [|lia].
    destruct (head _); simpl; rewrite <- ?app_assoc, ?app_nil_r; done.
Qed.

(** C4 (as the code has it). deleteBookmark on a bookmark of the caller
    succeeds, removes the row, and releases exactly one asset, the one of the
    bookmark's asset row, when there is such a row, and none when there is
    not; the mutation releases an asset only when its delete statement
    removed at least one row; deleting an id that no bookmark has is refused
    with NOT_FOUND and changes nothing. *)
Theorem deleteBookmark_releases ctx user bookmarkId w :
  ctx_user ctx = Some user →
  bookmarksKey (db w) →
  let asset :=
    head (filter (λ a, ba_id a = bookmarkId) (bookmarkAssets (db w))) in
  let r := deleteBookmark ctx bookmarkId w in
  (∀ b, b ∈ bookmarks (db w) → bk_id b = bookmarkId →
        bk_userId b = user_id user →
        r.1 = Ok ()
        ∧ (bookmarkId ∉ map bk_id (bookmarks (db r.2)))
        ∧ released (trace r.2)
          = released (trace w)
            ++ (match asset with
                | Some a => [(user_id user, ba_assetId a)]
                | None => []
                end))
  ∧ (∀ w0, released (trace (snd (deleteBookmarkMutation user bookmarkId w0)))
           ≠ released (trace w0) →
           (0 < length (filter (λ b, bk_userId b = user_id user
                                     ∧ bk_id b = bookmarkId)
                               (bookmarks (db w0))))%nat)
  ∧ (bookmarkId ∉ map bk_id (bookmarks (db w)) →
     r = (Err (TRPCError NOT_FOUND (Some "Bookmark not found")), w)).
Proof.
  intros Hu Hk asset r. split; [|split].
  - intros b Hb Hid Ho. subst r. unfold deleteBookmark.
    rewrite (authedProcedure_user _ user) by done.
    rewrite (ensureBookmarkOwnership_pass _ user _ _ _ b) by done.
    destruct (deleteBookmarkMutation_spec user bookmarkId w) as (Hr & Hbk & Htr).
    split; [done|]. split.
    + rewrite Hbk. intros Hin. apply list_elem_of_fmap in Hin as (b' & E & Hin).
      apply list_elem_of_filter in Hin as [Hn Hin]. apply Hn. split; [|done].
      assert (b' = b) as ->; [|done].
      assert (Some b' = Some b) as [= ->]; [|done].
      rewrite <- (findFirst_key bk_id _ b' Hk Hin).
      rewrite <- (findFirst_key bk_id _ b Hk Hb). by rewrite <- E, Hid.
    + rewrite Htr. unfold released. rewrite !omap_app. simpl.
      rewrite decide_True.
      * fold asset. by destruct asset.
      * assert (b ∈ filter (λ b0, bk_userId b0 = user_id user
                                   ∧ bk_id b0 = bookmarkId) (bookmarks (db w)))
          as Hin by by apply list_elem_of_filter.
        by apply elem_of_length_pos in Hin.
  - intros w0 Hrel.
    destruct (deleteBookmarkMutation_spec user bookmarkId w0) as (_ & _ & Htr).
    rewrite Htr in Hrel. unfold released in Hrel. rewrite !omap_app in Hrel.
    simpl in Hrel. case_decide; [done|]. by rewrite app_nil_r in Hrel.
  - intros Hid. subst r. unfold deleteBookmark.
    rewrite (authedProcedure_user _ user) by done.
    by rewrite (ensureBookmarkOwnership_not_found _ user).
Qed.

Lemma deleteBookmark_releases_witness :
  let r := deleteBookmark Sample.alice "b2" Sample.world in
  r.1 = Ok ()
  ∧ ("b2" ∉ map bk_id (bookmarks (db r.2)))
  ∧ released (trace r.2) = [("alice", "a1")].
Proof.
  refine (proj1 (deleteBookmark_releases Sample.alice (mkUser "alice") "b2"
                   Sample.world eq_refl _)
                (mkBookmark "b2" "alice" 20 false true None (Some TsPending))
                _ eq_refl eq_refl); by_decide.
Defined.

(** C4, counterexample to the sentence as the specification has it: deleting
    an id that no bookmark has is an error, not a no-op. *)
Lemma deleteBookmark_nonexistent_is_error :
  ("b9" ∉ map bk_id (bookmarks (db Sample.world)))
  ∧ deleteBookmark Sample.alice "b9" Sample.world
    = (Err (TRPCError NOT_FOUND (Some "Bookmark not found")), Sample.world).
Proof. split; [by_decide|reflexivity]. Qed.

(** ** searchBookmarks *)

(** C7. Without a configured search client searchBookmarks never returns a
    result, empty or not: every call fails, and the call of an authenticated
    caller fails with the error that says search is not configured, leaving
    the world as it was. *)
Theorem searchBookmarks_not_configured ctx text w :
  (∀ r w', searchBookmarks None ctx text w ≠ (Ok r, w'))
  ∧ (∀ user, ctx_user ctx = Some user →
       searchBookmarks None ctx text w
       = (Err (TRPCError INTERNAL_SERVER_ERROR
                 (Some "Search functionality is not configured")), w)).
Proof.
  unfold searchBookmarks, authedProcedure. split.
  - intros r w'. by destruct (ctx_user ctx).
  - by intros user ->.
Qed.

Lemma searchBookmarks_not_configured_witness :
  searchBookmarks None Sample.alice "rocq" Sample.world
  = (Err (TRPCError INTERNAL_SERVER_ERROR
            (Some "Search functionality is not configured")), Sample.world).
Proof.
  exact (proj2 (searchBookmarks_not_configured Sample.alice "rocq" Sample.world)
               (mkUser "alice") eq_refl).
Defined.

Lemma sortInsert_elem {A} (gt : A → A → bool) (x y : A) (l : list A) :
  y ∈ sortInsert gt x l ↔ y = x ∨ y ∈ l.
Proof.
  induction l as [|z l IH]; simpl.
  - rewrite list_elem_of_singleton, elem_of_nil. tauto.
  - destruct (gt x z); rewrite !elem_of_cons, ?IH, ?elem_of_cons; tauto.
Qed.

Lemma sort_elem {A} (gt : A → A → bool) (y : A) (l : list A) :
  y ∈ sort gt l ↔ y ∈ l.
Proof.
  unfold sort. induction l as [|x l IH]; simpl; [done|].
  by rewrite sortInsert_elem, IH, elem_of_cons.
Qed.

(** What a successful search returns: nothing, or the converted rows of
    bookmarks of the caller whose ids are among the hits. *)
Lemma searchBookmarks_results client ctx user text w r w' :
  ctx_user ctx = Some user →
  searchBookmarks (Some client) ctx text w = (Ok r, w') →
  db w' = db w
  ∧ ∀ b, b ∈ r_bookmarks r →
         ∃ row, row ∈ bookmarks (db w)
                ∧ bk_userId row = user_id user
                ∧ b = toZodSchema (withRelations (db w) row).
Proof.
  intros Hu. unfold searchBookmarks, search.
  rewrite (authedProcedure_user _ user) by done. run_M.
  case_decide.
  - intros [= <- <-]. split; [done|]. by intros b ?%elem_of_nil.
  - intros [= <- <-]. split; [done|]. simpl. intros b Hb.
    apply list_elem_of_fmap in Hb as (q & -> & Hq).
    apply sort_elem in Hq. apply list_elem_of_fmap in Hq as (row & -> & Hrow).
    apply list_elem_of_filter in Hrow as [[Ho _] Hrow]. eauto.
Qed.



(** ** toZodSchema *)

Lemma findFirst_owned (l : list Bookmark) (row : Bookmark) :
  NoDup (map bk_id l) → row ∈ l →
  head (filter (λ b, bk_userId b = bk_userId row ∧ bk_id b = bk_id row) l)
  = Some row.
Proof.
  induction l as [|y l IH]; intros Hnd Hin.
  - by apply elem_of_nil in Hin.
  - simpl in Hnd. apply NoDup_cons in Hnd as [Hy Hnd].
    rewrite filter_cons. apply elem_of_cons in Hin as [->|Hin].
    + by rewrite decide_True.
    + destruct (decide (_ ∧ _)) as [[_ E]|E].
      * exfalso. apply Hy. rewrite E. by apply list_elem_of_fmap_2.
      * by apply IH.
Qed.

(** C9. The conversion to the public schema covers every combination of
    content rows: the link row wins, then the text row (a null text becoming
    the empty string), then the asset row, and with no content row at all the
    content is unknown; getBookmark by the owner succeeds with that conversion
    whatever rows exist, and every bookmark searchBookmarks returns is such a
    conversion. *)
Theorem toZodSchema_total (d : Db) (row : Bookmark) :
  let links := filter (λ l, bl_id l = bk_id row) (bookmarkLinks d) in
  let texts := filter (λ t, bt_id t = bk_id row) (bookmarkTexts d) in
  let assets := filter (λ a, ba_id a = bk_id row) (bookmarkAssets d) in
  let content := zb_content (toZodSchema (withRelations d row)) in
  (∀ l, head links = Some l → content = ContentLink l)
  ∧ (∀ t, links = [] → head texts = Some t →
       content = ContentText (match bt_text t with Some s => s | None => "" end))
  ∧ (∀ a, links = [] → texts = [] → head assets = Some a →
       content = ContentAsset (ba_assetType a) (ba_assetId a))
  ∧ (links = [] → texts = [] → assets = [] → content = ContentUnknown)
  ∧ (∀ ctx user w,
       ctx_user ctx = Some user → db w = d → bookmarksKey d →
       row ∈ bookmarks d → bk_userId row = user_id user →
       getBookmark ctx (bk_id row) w
       = (Ok (toZodSchema (withRelations d row)), w))
  ∧ (∀ client ctx user text w r w',
       ctx_user ctx = Some user → db w = d →
       searchBookmarks (Some client) ctx text w = (Ok r, w') →
       Forall (λ b, ∃ row', row' ∈ bookmarks d
                            ∧ b = toZodSchema (withRelations d row'))
              (r_bookmarks r)).
Proof.
  intros links texts assets content. subst content. unfold toZodSchema. simpl.
  fold links texts assets. repeat split.
  - by intros l ->.
  - intros t -> Ht. simpl. rewrite Ht. by destruct (bt_text t).
  - by intros a -> -> ->.
  - by intros -> -> ->.
  - intros ctx user w Hu <- Hk Hrow Ho. unfold getBookmark.
    rewrite (authedProcedure_user _ user) by done.
    rewrite (ensureBookmarkOwnership_pass _ user _ _ _ row) by done.
    run_M. rewrite <- Ho. by rewrite findFirst_owned.
  - intros client ctx user text w r w' Hu <- Hs. apply Forall_forall.
    intros b Hb. destruct (searchBookmarks_results _ _ _ _ _ _ _ Hu Hs) as [_ H].
    destruct (H b Hb) as (row' & ? & _ & ->). eauto.
Qed.

Lemma toZodSchema_total_witness :
  getBookmark Sample.alice "b4" Sample.world
  = (Ok (mkZBookmark [] ContentUnknown
           (mkBookmark "b4" "alice" 40 true false (Some "lost")
                       (Some TsFailure))),
     Sample.world).
Proof.
  pose proof (toZodSchema_total Sample.store
    (mkBookmark "b4" "alice" 40 true false (Some "lost") (Some TsFailure)))
    as (_ & _ & _ & _ & Hget & _).
  refine (eq_trans (Hget Sample.alice (mkUser "alice") Sample.world
                      eq_refl eq_refl _ _ eq_refl) _);
    [by_decide|by_decide|reflexivity].
Defined.

(** ** updateTags *)

Lemma filter_filter_impl {A} (P Q : A → Prop)
    `{∀ x, Decision (P x)} `{∀ x, Decision (Q x)} (l : list A) :
  (∀ x, P x → Q x) → filter P (filter Q l) = filter P l.
Proof.
  intros HPQ. induction l as [|x l IH]; [done|].
  rewrite !filter_cons. destruct (decide (Q x)) as [q|q].
  - rewrite filter_cons. by rewrite IH.
  - rewrite IH. destruct (decide (P x)) as [p|p]; [|done].
    by destruct (q (HPQ x p)).
Qed.

Lemma filter_all {A} (P : A → Prop) `{∀ x, Decision (P x)} (l : list A) :
  (∀ x, x ∈ l → P x) → filter P l = l.
Proof.
  induction l as [|x l IH]; intros Hall; [done|].
  rewrite filter_cons, decide_True by (apply Hall; left).
  f_equal. apply IH. intros y Hy. apply Hall. by right.
Qed.

Lemma filter_none {A} (P : A → Prop) `{∀ x, Decision (P x)} (l : list A) :
  (∀ x, x ∈ l → ¬ P x) → filter P l = [].
Proof.
  induction l as [|x l IH]; intros Hall; [done|].
  rewrite filter_cons, decide_False by (apply Hall; left).
  apply IH. intros y Hy. apply Hall. by right.
Qed.

(** An insert that skips conflicts only appends, and what it appends had no
    row of its key in the table. *)
Lemma insertTagRows_app genId k rows table :
  ∃ extra,
    insertTagRows genId k rows table = table ++ extra
    ∧ ∀ x, x ∈ extra →
           (tg_name x, tg_userId x) ∈ rows
           ∧ ¬ Exists (λ g, tg_userId g = tg_userId x ∧ tg_name g = tg_name x)
                      table.
Proof.
  revert k table. induction rows as [|[name userId] rows IH]; intros k table.
  - exists []. split; [by rewrite app_nil_r|]. by intros x ?%elem_of_nil.
  - simpl. case_decide as Hc.
    + destruct (IH (S k) table) as (extra & -> & Hx). exists extra.
      split; [done|]. intros x Hin. destruct (Hx x Hin). split; [by right|done].
    + destruct (IH (S k) (table ++ [mkBookmarkTag (genId k) name userId]))
        as (extra & -> & Hx).
      exists (mkBookmarkTag (genId k) name userId :: extra).
      split; [by rewrite <- app_assoc|]. intros x [->|Hin]%elem_of_cons.
      * simpl. split; [left|]. intros He. apply Hc. by right.
      * destruct (Hx x Hin) as [Hr Hn]. split; [by right|].
        intros He. apply Hn. apply Exists_app. by left.
Qed.

Lemma insertAttachmentRows_app rows table :
  ∃ extra,
    insertAttachmentRows rows table = table ++ extra
    ∧ ∀ x, x ∈ extra →
           x ∈ rows
           ∧ ¬ Exists (λ t, tob_bookmarkId t = tob_bookmarkId x
                            ∧ tob_tagId t = tob_tagId x) table.
Proof.
  revert table. induction rows as [|r rows IH]; intros table.
  - exists []. split; [by rewrite app_nil_r|]. by intros x ?%elem_of_nil.
  - simpl. case_decide as Hc.
    + destruct (IH table) as (extra & -> & Hx). exists extra.
      split; [done|]. intros x Hin. destruct (Hx x Hin). split; [by right|done].
    + destruct (IH (table ++ [r])) as (extra & -> & Hx).
      exists (r :: extra).
      split; [by rewrite <- app_assoc|]. intros x [->|Hin]%elem_of_cons.
      * split; [left|]. intros He. by apply Hc.
      * destruct (Hx x Hin) as [Hr Hn]. split; [by right|].
        intros He. apply Hn. apply Exists_app. by left.
Qed.

(** Every row handed to the insert has its key in the table afterwards. *)
Lemma insertAttachmentRows_has rows table r :
  r ∈ rows →
  Exists (λ t, tob_bookmarkId t = tob_bookmarkId r ∧ tob_tagId t = tob_tagId r)
         (insertAttachmentRows rows table).
Proof.
  revert table. induction rows as [|r' rows IH]; intros table Hin.
  - by apply elem_of_nil in Hin.
  - simpl. apply elem_of_cons in Hin as [->|Hin]; [|by apply IH].
    case_decide as Hc.
    + destruct (insertAttachmentRows_app rows table) as (extra & -> & _).
      apply Exists_app. by left.
    + destruct (insertAttachmentRows_app rows (table ++ [r'])) as (extra & -> & _).
      apply Exists_app. left. apply Exists_app. right. by constructor.
Qed.

(** A statement guarded by [list.length > 0] that does nothing on the empty
    list anyway. *)
Lemma guard_nonempty {A C} (l : list A) (f g : M C) (w : World) :
  (l = [] → f w = g w) →
  (if decide (0 < length l)%nat then f else g) w = f w.
Proof.
  intros H. case_decide; [done|]. symmetry. apply H.
  destruct l; [done|simpl in *; lia].
Qed.

Lemma afterDetach_nil bookmarkId d :
  afterDetach bookmarkId [] d = tagsOnBookmarks d.
Proof.
  unfold afterDetach. apply filter_all. intros x _ [_ ?%elem_of_nil]. done.
Qed.

(** The callback of updateTags, stage by stage. *)
Lemma updateTagsTx_run user bookmarkId attach detach genId w :
  let d := db w in
  let tags := afterCreate user attach genId d in
  updateTagsTx user bookmarkId attach detach genId w
  = match attach with
    | [] =>
      (Ok (), mkWorld (setTagsOnBookmarks (afterDetach bookmarkId detach d) d)
                      (trace w))
    | _ =>
      match attachedIds user attach tags with
      | [] =>
        (Err (DriverError "values() must be called with at least one value"),
         mkWorld (setBookmarkTags tags
                    (setTagsOnBookmarks (afterDetach bookmarkId detach d) d))
                 (trace w))
      | _ =>
        (Ok (),
         mkWorld (setTagsOnBookmarks
                    (afterAttach user bookmarkId attach detach genId d)
                    (setBookmarkTags tags d))
                 (trace w))
      end
    end.
Proof.
  intros d tags. unfold updateTagsTx. unfold mbind at 1, M_bind at 1.
  rewrite guard_nonempty.
  2: { intros ->. run_M. fold (afterDetach bookmarkId [] (db w)).
       rewrite afterDetach_nil. by destruct w as [[] ?]. }
  run_M. fold (afterDetach bookmarkId detach (db w)).
  destruct attach as [|a attach]; [done|].
  rewrite decide_False by done.
  assert ((if decide (0 < length
              (map (λ i, (at_tag i, user_id user))
                   (filter (λ i, at_tagId i = None) (a :: attach))))%nat
           then insertBookmarkTags genId
                  (map (λ i, (at_tag i, user_id user))
                       (filter (λ i, at_tagId i = None) (a :: attach)))
           else mret ())
            (mkWorld (setTagsOnBookmarks (afterDetach bookmarkId detach (db w))
                        (db w)) (trace w))
          = (Ok (), mkWorld (setBookmarkTags tags
                       (setTagsOnBookmarks (afterDetach bookmarkId detach d) d))
                     (trace w))) as Hcreate.
  { subst tags d. unfold afterCreate, insertBookmarkTags.
    destruct (map _ (filter (λ i, at_tagId i = None) (a :: attach))) eqn:E.
    - simpl. run_M. by destruct w as [[] ?].
    - rewrite decide_True by (simpl; lia). run_M. by destruct w as [[] ?]. }
  unfold mret, M_ret in Hcreate. rewrite Hcreate. clear Hcreate.
  simpl. unfold insertTagsOnBookmarks, afterAttach.
  change (map tg_id (filter _ tags))
    with (attachedIds user (a :: attach) tags).
  fold tags.
  destruct (attachedIds user (a :: attach) tags) eqn:E; [done|].
  run_M. subst tags d. by destruct w as [[] ?].
Qed.

(** updateTags behind the gate: the stages, after the commit. *)
Lemma updateTags_run ctx user bookmarkId attach detach genId w row :
  ctx_user ctx = Some user → bookmarksKey (db w) →
  row ∈ bookmarks (db w) → bk_id row = bookmarkId →
  bk_userId row = user_id user →
  let d := db w in
  let tags := afterCreate user attach genId d in
  updateTags ctx bookmarkId attach detach genId w
  = match attach with
    | [] =>
      (Ok (), mkWorld (setTagsOnBookmarks (afterDetach bookmarkId detach d) d)
                      (trace w ++ [EvBegin; EvCommit]))
    | _ =>
      match attachedIds user attach tags with
      | [] =>
        (Err (DriverError "values() must be called with at least one value"),
         mkWorld (setBookmarkTags tags
                    (setTagsOnBookmarks (afterDetach bookmarkId detach d) d))
                 (trace w ++ [EvBegin; EvCommit]))
      | _ =>
        (Ok (),
         mkWorld (setTagsOnBookmarks
                    (afterAttach user bookmarkId attach detach genId d)
                    (setBookmarkTags tags d))
                 (trace w ++ [EvBegin; EvCommit]))
      end
    end.
Proof.
  intros Hu Hk Hrow Hid Ho d tags. unfold updateTags.
  rewrite (authedProcedure_user _ user) by done.
  rewrite (ensureBookmarkOwnership_pass _ user _ _ _ row) by done.
  by rewrite transaction_run, updateTagsTx_run.
Qed.

Lemma updateTags_ok ctx user bookmarkId attach detach genId w row :
  ctx_user ctx = Some user → bookmarksKey (db w) →
  row ∈ bookmarks (db w) → bk_id row = bookmarkId →
  bk_userId row = user_id user →
  attach ≠ [] →
  attachedIds user attach (afterCreate user attach genId (db w)) ≠ [] →
  updateTags ctx bookmarkId attach detach genId w
  = (Ok (),
     mkWorld (setTagsOnBookmarks
                (afterAttach user bookmarkId attach detach genId (db w))
                (setBookmarkTags (afterCreate user attach genId (db w)) (db w)))
             (trace w ++ [EvBegin; EvCommit])).
Proof.
  intros Hu Hk Hrow Hid Ho Ha Hi.
  rewrite (updateTags_run _ user _ _ _ _ _ row) by done.
  destruct attach; [done|]. by destruct (attachedIds _ _ _).
Qed.

Lemma tags_of_result (atts : list TagOnBookmark) (tags : list BookmarkTag) d :
  bookmarkTags (setTagsOnBookmarks atts (setBookmarkTags tags d)) = tags
  ∧ tagsOnBookmarks (setTagsOnBookmarks atts (setBookmarkTags tags d)) = atts.
Proof. done. Qed.

(** C5. Attaching a tag name that is already attached changes nothing about
    it: when the caller has exactly one tag row of that name and the bookmark
    exactly one attachment row to it (made by a human or by the tagger), an
    updateTags call that attaches the name (and does not detach the tag)
    succeeds and leaves exactly that tag row and exactly that attachment row,
    with the provenance it had; a call that only attaches this one name leaves
    the whole store as it was. *)
Theorem updateTags_attach_idempotent
    ctx user bookmarkId attach detach genId w row name g t0 :
  ctx_user ctx = Some user → bookmarksKey (db w) →
  row ∈ bookmarks (db w) → bk_id row = bookmarkId →
  bk_userId row = user_id user →
  tagRows (db w) (user_id user) name = [g] →
  attachmentRows (db w) bookmarkId (tg_id g) = [t0] →
  name ∈ map at_tag attach →
  tg_id g ∉ detach →
  let r := updateTags ctx bookmarkId attach detach genId w in
  r.1 = Ok ()
  ∧ tagRows (db r.2) (user_id user) name = [g]
  ∧ attachmentRows (db r.2) bookmarkId (tg_id g) = [t0]
  ∧ (map at_tag attach = [name] → detach = [] → db r.2 = db w).
Proof.
  intros Hu Hk Hrow Hid Ho Htag Hatt Hname Hdet r. subst r.
  assert (Hg : g ∈ bookmarkTags (db w)
               ∧ tg_userId g = user_id user ∧ tg_name g = name).
  { assert (g ∈ tagRows (db w) (user_id user) name) as Hin
      by (rewrite Htag; left).
    apply list_elem_of_filter in Hin. tauto. }
  destruct Hg as (Hgin & Hgu & Hgn).
  assert (Ht0 : t0 ∈ afterDetach bookmarkId detach (db w)
                ∧ tob_bookmarkId t0 = bookmarkId ∧ tob_tagId t0 = tg_id g).
  { assert (t0 ∈ attachmentRows (db w) bookmarkId (tg_id g)) as Hin
      by (rewrite Hatt; left).
    apply list_elem_of_filter in Hin as [[Hb Ht] Hin]. split; [|done].
    apply list_elem_of_filter. split; [|done]. intros [_ Hd]. by rewrite Ht in Hd. }
  destruct Ht0 as (Ht0in & Ht0b & Ht0t).
  destruct (insertTagRows_app genId 0
              (map (λ i, (at_tag i, user_id user))
                   (filter (λ i, at_tagId i = None) attach))
              (bookmarkTags (db w))) as (extra & Hcre & Hextra).
  fold (afterCreate user attach genId (db w)) in Hcre.
  assert (Hids : tg_id g ∈ attachedIds user attach
                            (afterCreate user attach genId (db w))).
  { unfold attachedIds. apply list_elem_of_fmap. exists g. split; [done|].
    apply list_elem_of_filter. rewrite Hgu, Hgn, Hcre. split; [done|].
    apply elem_of_app. by left. }
  rewrite (updateTags_ok _ user _ _ _ _ _ row); try done.
  2: { intros ->. by apply elem_of_nil in Hname. }
  2: { intros E. rewrite E in Hids. by apply elem_of_nil in Hids. }
  cbn [fst snd]. split; [done|]. unfold afterAttach.
  destruct (insertAttachmentRows_app
              (map (λ i, mkTagOnBookmark bookmarkId i Human)
                   (attachedIds user attach (afterCreate user attach genId (db w))))
              (afterDetach bookmarkId detach (db w))) as (extra' & Hins & Hextra').
  split; [|split].
  - unfold tagRows. cbn [db]. rewrite (proj1 (tags_of_result _ _ _)).
    rewrite Hcre, filter_app. fold (tagRows (db w) (user_id user) name).
    rewrite Htag, (filter_none _ extra); [done|].
    intros x Hx [Hxu Hxn]. destruct (Hextra x Hx) as [_ Hno]. apply Hno.
    apply Exists_exists. exists g. by rewrite Hxu, Hxn.
  - unfold attachmentRows. cbn [db]. rewrite (proj2 (tags_of_result _ _ _)).
    rewrite Hins, filter_app. unfold afterDetach at 1.
    rewrite filter_filter_impl.
    2: { intros x [_ Hx] [_ Hd]. by rewrite Hx in Hd. }
    fold (attachmentRows (db w) bookmarkId (tg_id g)).
    rewrite Hatt, (filter_none _ extra'); [done|].
    intros x Hx [Hxb Hxt]. destruct (Hextra' x Hx) as [_ Hno]. apply Hno.
    apply Exists_exists. exists t0. by rewrite Hxb, Hxt.
  - intros Hone ->. cbn [db].
    assert (Hsame : afterCreate user attach genId (db w) = bookmarkTags (db w)).
    { rewrite Hcre. destruct extra as [|x extra]; [by rewrite app_nil_r|].
      exfalso. destruct (Hextra x) as [Hx Hno]; [left|].
      apply Hno. apply Exists_exists. exists g. split; [done|].
      apply list_elem_of_fmap in Hx as (it & [= Hn Hu'] & Hit).
      apply list_elem_of_filter in Hit as [_ Hit].
      assert (at_tag it ∈ map at_tag attach) as Hm
        by by apply list_elem_of_fmap_2.
      rewrite Hone in Hm. apply list_elem_of_singleton in Hm.
      rewrite Hgu, Hgn, Hn, Hu'. by rewrite Hm. }
    assert (Hi : attachedIds user attach (afterCreate user attach genId (db w))
                 = [tg_id g]).
    { unfold attachedIds. rewrite Hsame, Hone.
      rewrite (list_filter_iff _ (λ g0, tg_userId g0 = user_id user
                                        ∧ tg_name g0 = name)).
      - fold (tagRows (db w) (user_id user) name). by rewrite Htag.
      - intros x. by rewrite list_elem_of_singleton. }
    rewrite Hi, Hsame. rewrite afterDetach_nil in *. simpl.
    rewrite decide_True.
    2: { apply Exists_exists. by exists t0. }
    by destruct (db w).
Qed.

Lemma updateTags_attach_idempotent_witness :
  let r := updateTags Sample.alice "b1" [mkAttachItem None "rocq"] []
                      Sample.genId Sample.world in
  r.1 = Ok ()
  ∧ attachmentRows (db r.2) "b1" "t1" = [mkTagOnBookmark "b1" "t1" Ai]
  ∧ db r.2 = Sample.store.
Proof.
  pose proof (updateTags_attach_idempotent Sample.alice (mkUser "alice") "b1"
    [mkAttachItem None "rocq"] [] Sample.genId Sample.world
    (mkBookmark "b1" "alice" 10 false false None (Some TsSuccess))
    "rocq" (mkBookmarkTag "t1" "rocq" "alice") (mkTagOnBookmark "b1" "t1" Ai)
    eq_refl) as H.
  destruct H as (Hok & _ & Hatt & Hsame);
    [by_decide|by_decide|reflexivity|reflexivity|reflexivity|reflexivity
    |by_decide|by_decide|].
  split; [exact Hok|]. split; [exact Hatt|]. by apply Hsame.
Defined.

(** C10 (as the code has it). Behind the gate updateTags runs its detaches
    before its attaches: after a successful call the attachments are those
    the detach left, followed by the rows the attach appended, each for this
    bookmark and with provenance human; a tag of the caller whose name is
    listed in attach ends the call attached, also when its id is listed in
    detach. *)
Theorem updateTags_detach_then_attach
    ctx user bookmarkId attach detach genId w row :
  ctx_user ctx = Some user → bookmarksKey (db w) →
  row ∈ bookmarks (db w) → bk_id row = bookmarkId →
  bk_userId row = user_id user →
  let r := updateTags ctx bookmarkId attach detach genId w in
  (r.1 = Ok () →
   ∃ extra,
     tagsOnBookmarks (db r.2) = afterDetach bookmarkId detach (db w) ++ extra
     ∧ Forall (λ t, tob_bookmarkId t = bookmarkId
                    ∧ tob_attachedBy t = Human) extra)
  ∧ ∀ g, g ∈ bookmarkTags (db w) → tg_userId g = user_id user →
         tg_name g ∈ map at_tag attach →
         r.1 = Ok ()
         ∧ Exists (λ t, tob_bookmarkId t = bookmarkId ∧ tob_tagId t = tg_id g)
                  (tagsOnBookmarks (db r.2)).
Proof.
  intros Hu Hk Hrow Hid Ho r. split.
  - subst r. rewrite (updateTags_run _ user _ _ _ _ _ row) by done.
    destruct attach as [|a attach].
    { cbn [fst snd db trace]. intros _. exists [].
      rewrite app_nil_r. split; [by destruct (db w)|constructor]. }
    destruct (attachedIds _ _ _) as [|i ids]; [done|].
    cbn [fst snd db trace]. intros _. unfold afterAttach.
    rewrite (proj2 (tags_of_result _ _ _)).
    destruct (insertAttachmentRows_app
                (map (λ i, mkTagOnBookmark bookmarkId i Human)
                     (attachedIds user (a :: attach)
                        (afterCreate user (a :: attach) genId (db w))))
                (afterDetach bookmarkId detach (db w)))
      as (extra & Hins & Hextra).
    exists extra. split; [done|]. apply Forall_forall. intros x Hx.
    destruct (Hextra x Hx) as [Hin _].
    by apply list_elem_of_fmap in Hin as (i' & -> & _).
  - intros g Hg Hgu Hgn.
    destruct (insertTagRows_app genId 0
                (map (λ i, (at_tag i, user_id user))
                     (filter (λ i, at_tagId i = None) attach))
                (bookmarkTags (db w))) as (extra & Hcre & _).
    fold (afterCreate user attach genId (db w)) in Hcre.
    assert (Hids : tg_id g ∈ attachedIds user attach
                              (afterCreate user attach genId (db w))).
    { unfold attachedIds. apply list_elem_of_fmap. exists g. split; [done|].
      apply list_elem_of_filter. rewrite Hcre. split; [done|].
      apply elem_of_app. by left. }
    subst r. rewrite (updateTags_ok _ user _ _ _ _ _ row); try done.
    2: { intros ->. by apply elem_of_nil in Hgn. }
    2: { intros E. rewrite E in Hids. by apply elem_of_nil in Hids. }
    cbn [fst snd db]. split; [done|].
    rewrite (proj2 (tags_of_result _ _ _)). unfold afterAttach.
    apply (insertAttachmentRows_has _ _ (mkTagOnBookmark bookmarkId (tg_id g) Human)).
    by apply (list_elem_of_fmap_2 (λ i, mkTagOnBookmark bookmarkId i Human)).
Qed.

Lemma updateTags_detach_then_attach_witness :
  let r := updateTags Sample.alice "b1" [mkAttachItem (Some "t1") "rocq"] ["t1"]
                      Sample.genId Sample.world in
  r.1 = Ok ()
  ∧ Exists (λ t, tob_bookmarkId t = "b1" ∧ tob_tagId t = "t1")
           (tagsOnBookmarks (db r.2))
  ∧ tagsOnBookmarks (db r.2) = [mkTagOnBookmark "b1" "t1" Human].
Proof.
  pose proof (updateTags_detach_then_attach Sample.alice (mkUser "alice") "b1"
    [mkAttachItem (Some "t1") "rocq"] ["t1"] Sample.genId Sample.world
    (mkBookmark "b1" "alice" 10 false false None (Some TsSuccess))
    eq_refl) as H.
  destruct H as (_ & Hatt);
    [by_decide|by_decide|reflexivity|reflexivity|].
  destruct (Hatt (mkBookmarkTag "t1" "rocq" "alice")) as [Hok Hex];
    [by_decide|reflexivity|by_decide|].
  split; [exact Hok|]. split; [exact Hex|]. reflexivity.
Defined.

(** C10, counterexample to the sentence as the specification has it: the tag
    id t1 is listed in detach and, as the known id of the attach item, in
    attach; the attach goes by the name, which is that of t2, so t1 ends the
    call detached. *)
Lemma updateTags_id_in_both_not_attached :
  let r := updateTags Sample.alice "b1" [mkAttachItem (Some "t1") "todo"] ["t1"]
                      Sample.genId Sample.world in
  r.1 = Ok ()
  ∧ attachmentRows (db Sample.world) "b1" "t1" = [mkTagOnBookmark "b1" "t1" Ai]
  ∧ attachmentRows (db r.2) "b1" "t1" = []
  ∧ tagsOnBookmarks (db r.2) = [mkTagOnBookmark "b1" "t2" Human].
Proof. by vm_compute. Qed.

(** ** Sorting *)

Lemma sortInsert_perm {A} (gt : A → A → bool) (x : A) (l : list A) :
  sortInsert gt x l ≡ₚ x :: l.
Proof.
  induction l as [|y l IH]; simpl; [done|].
  destruct (gt x y); [|done]. rewrite IH. apply Permutation_swap.
Qed.

Lemma sort_perm {A} (gt : A → A → bool) (l : list A) : sort gt l ≡ₚ l.
Proof.
  unfold sort. induction l as [|x l IH]; simpl; [done|].
  by rewrite sortInsert_perm, IH.
Qed.

Section OrderByDesc.
Context {A : Type} (key : A → Time).

Lemma orderByDesc_insert_sorted x l :
  StronglySorted (descBy key) l →
  StronglySorted (descBy key) (sortInsert (λ a b, bool_decide (key a < key b)) x l).
Proof.
  induction l as [|y l IH]; intros Hs; simpl.
  - repeat constructor.
  - apply StronglySorted_inv in Hs as [Hs Hy]. case_bool_decide as Hlt.
    + constructor; [by apply IH|].
      apply Forall_forall. intros z Hz. apply sortInsert_elem in Hz as [->|Hz].
      * unfold descBy. lia.
      * rewrite Forall_forall in Hy. by apply Hy.
    + constructor; [by constructor|]. constructor; [unfold descBy; lia|].
      eapply Forall_impl; [exact Hy|]. unfold descBy. simpl. intros z Hz. lia.
Qed.

Lemma orderByDesc_sorted l : StronglySorted (descBy key) (orderByDesc key l).
Proof.
  unfold orderByDesc, sort. induction l as [|x l IH]; simpl; [constructor|].
  by apply orderByDesc_insert_sorted.
Qed.

(** Rows that already come newest first are left as they are. *)
Lemma orderByDesc_id l : StronglySorted (descBy key) l → orderByDesc key l = l.
Proof.
  unfold orderByDesc, sort. induction l as [|x l IH]; intros Hs; [done|].
  apply StronglySorted_inv in Hs as [Hs Hx]. simpl. rewrite IH by done.
  destruct l as [|y l]; [done|]. simpl.
  apply Forall_cons in Hx as [Hxy _]. unfold descBy in Hxy.
  by rewrite bool_decide_false by lia.
Qed.

Lemma orderByDesc_perm l : orderByDesc key l ≡ₚ l.
Proof. apply sort_perm. Qed.
End OrderByDesc.

(** ** The joined rows *)

Lemma joinRows_bind d sq : joinRows d sq = sq ≫= rowsFor d.
Proof. done. Qed.

Lemma leftJoin_nonempty {A} (l : list A) : leftJoin l ≠ [].
Proof. by destruct l. Qed.

Lemma bind_nonempty {A B} (f : A → list B) (l : list A) :
  l ≠ [] → (∀ x, f x ≠ []) → l ≫= f ≠ [].
Proof.
  destruct l as [|x l]; [done|]. intros _ Hf. rewrite bind_cons.
  specialize (Hf x). by destruct (f x).
Qed.

Lemma rowsFor_nonempty d b : rowsFor d b ≠ [].
Proof.
  unfold rowsFor.
  repeat (apply bind_nonempty; [apply leftJoin_nonempty|intros ?]). done.
Qed.

(** Every joined row of a bookmark carries that bookmark, and a tag only
    together with the attachment that joined it. *)
Lemma rowsFor_row d b r :
  r ∈ rowsFor d b →
  row_bookmarksSq r = b
  ∧ (row_tagsOnBookmarks r = None → row_bookmarkTags r = None).
Proof.
  unfold rowsFor. intros H.
  apply list_elem_of_bind in H as (t & H & Ht).
  apply list_elem_of_bind in H as (g & H & Hg).
  apply list_elem_of_bind in H as (l & H & _).
  apply list_elem_of_bind in H as (x & H & _).
  apply list_elem_of_bind in H as (a & H & _).
  apply list_elem_of_singleton in H as ->. simpl. split; [done|].
  intros ->. simpl in Hg. destruct g as [g|]; [|done].
  by apply list_elem_of_singleton in Hg.
Qed.

Lemma joinRows_sorted d sq :
  newestFirst sq →
  StronglySorted (descBy (λ r, bk_createdAt (row_bookmarksSq r)))
                 (joinRows d sq).
Proof.
  rewrite joinRows_bind. induction sq as [|b sq IH]; intros Hs; [constructor|].
  apply StronglySorted_inv in Hs as [Hs Hb]. rewrite bind_cons.
  apply StronglySorted_app_2; [| |by apply IH].
  - intros r1 r2 H1 H2. unfold descBy. apply rowsFor_row in H1 as [-> _].
    apply list_elem_of_bind in H2 as (b2 & H2 & Hb2).
    apply rowsFor_row in H2 as [-> _].
    rewrite Forall_forall in Hb. by apply Hb.
  - assert (Hall : ∀ r, r ∈ rowsFor d b → row_bookmarksSq r = b)
      by (intros r Hr; by apply rowsFor_row in Hr as [? _]).
    induction (rowsFor d b) as [|r rs IHr]; [constructor|].
    constructor.
    + apply IHr. intros r' Hr'. apply Hall. by right.
    + apply Forall_forall. intros r' Hr'. unfold descBy.
      rewrite (Hall r) by left. rewrite (Hall r') by by right. done.
Qed.

(** ** The reduce over the joined rows *)

Lemma reduce_app {A B} (f : B → A → M B) (l1 l2 : list A) (acc : B) w :
  reduce f (l1 ++ l2) acc w
  = match reduce f l1 acc w with
    | (Ok acc', w') => reduce f l2 acc' w'
    | (Err e, w') => (Err e, w')
    end.
Proof.
  revert acc w. induction l1 as [|x l1 IH]; intros acc w; [done|].
  simpl. unfold mbind, M_bind. destruct (f acc x w) as [[acc'|e] w']; [|done].
  apply IH.
Qed.

Lemma alterKey_entries (t : ZBookmarkTags) k acc bs :
  entriesOf acc bs → entriesOf (alterKey (pushTag t) k acc) bs.
Proof.
  intros [Hk Hr]. unfold entriesOf, alterKey. rewrite <- Hk. rewrite <- Hr.
  rewrite !map_map. split; apply map_ext; intros [k' v]; simpl;
    by case_decide.
Qed.

Lemma reduceRow_entries acc bs r w :
  ¬ inherited (bk_id (row_bookmarksSq r)) →
  entriesOf acc bs →
  (row_tagsOnBookmarks r = None → row_bookmarkTags r = None) →
  ∃ acc',
    reduceRow acc r w = (Ok acc', w)
    ∧ entriesOf acc'
        (if decide (bk_id (row_bookmarksSq r) ∈ map bk_id bs) then bs
         else bs ++ [row_bookmarksSq r]).
Proof.
  intros Hown Hacc Hinv. unfold reduceRow.
  set (acc1 := if decide (hasKey acc (bk_id (row_bookmarksSq r))
                          ∨ inherited (bk_id (row_bookmarksSq r))) then acc
               else acc ++ _).
  assert (Hacc1 : entriesOf acc1
            (if decide (bk_id (row_bookmarksSq r) ∈ map bk_id bs) then bs
             else bs ++ [row_bookmarksSq r])
          ∧ hasKey acc1 (bk_id (row_bookmarksSq r))).
  { subst acc1. destruct Hacc as [Hk Hr].
    destruct (decide (hasKey acc _ ∨ _)) as [[H|H]|H]; [|done|].
    - split; [|done]. unfold hasKey in H. rewrite Hk in H.
      by rewrite decide_True.
    - assert (¬ hasKey acc (bk_id (row_bookmarksSq r))) as H' by tauto.
      unfold hasKey in *. rewrite Hk in H'.
      rewrite decide_False by done. unfold entriesOf.
      rewrite !map_app, Hk, Hr. split; [done|].
      apply elem_of_app. right. simpl. left. }
  clearbody acc1. destruct Hacc1 as [Hacc1 Hhas].
  destruct (row_bookmarkTags r) as [tag|]; [|by eexists].
  destruct (row_tagsOnBookmarks r) as [t|]; [|by specialize (Hinv eq_refl)].
  rewrite decide_True by done.
  eexists. split; [done|]. by apply alterKey_entries.
Qed.

(** Further rows of a bookmark that already has its entry. *)
Lemma reduce_seen b rows acc bs w :
  ¬ inherited (bk_id b) →
  (∀ r, r ∈ rows → row_bookmarksSq r = b
                   ∧ (row_tagsOnBookmarks r = None → row_bookmarkTags r = None)) →
  bk_id b ∈ map bk_id bs →
  entriesOf acc bs →
  ∃ acc', reduce reduceRow rows acc w = (Ok acc', w) ∧ entriesOf acc' bs.
Proof.
  intros Hown. revert acc.
  induction rows as [|r rows IH]; intros acc Hrows Hb Hacc.
  - by exists acc.
  - destruct (Hrows r) as [Hr Hinv]; [left|].
    destruct (reduceRow_entries acc bs r w) as (acc1 & Hrun & Hacc1);
      [by rewrite Hr|done|done|].
    rewrite Hr, decide_True in Hacc1 by done.
    simpl. unfold mbind, M_bind. rewrite Hrun. apply IH; [|done|done].
    intros r' Hr'. apply Hrows. by right.
Qed.

(** All the rows of a bookmark not seen before: they add its entry. *)
Lemma reduce_rowsFor d b acc bs w :
  ¬ inherited (bk_id b) →
  bk_id b ∉ map bk_id bs →
  entriesOf acc bs →
  ∃ acc', reduce reduceRow (rowsFor d b) acc w = (Ok acc', w)
          ∧ entriesOf acc' (bs ++ [b]).
Proof.
  intros Hown Hb Hacc. pose proof (rowsFor_nonempty d b) as Hne.
  pose proof (rowsFor_row d b) as Hrows.
  destruct (rowsFor d b) as [|r rows]; [done|].
  destruct (Hrows r) as [Hr Hinv]; [left|].
  destruct (reduceRow_entries acc bs r w) as (acc1 & Hrun & Hacc1);
    [by rewrite Hr|done|done|].
  rewrite Hr, decide_False in Hacc1 by done.
  simpl. unfold mbind, M_bind. rewrite Hrun.
  apply (reduce_seen b);
    [done| |rewrite map_app; apply elem_of_app; right; left|done].
  intros r' Hr'. apply Hrows. by right.
Qed.

Lemma reduce_joinRows d sq acc bs w :
  Forall (λ b, ¬ inherited (bk_id b)) sq →
  NoDup (map bk_id (bs ++ sq)) →
  entriesOf acc bs →
  ∃ acc', reduce reduceRow (joinRows d sq) acc w = (Ok acc', w)
          ∧ entriesOf acc' (bs ++ sq).
Proof.
  rewrite joinRows_bind. revert acc bs.
  induction sq as [|b sq IH]; intros acc bs Hown Hnd Hacc.
  - exists acc. by rewrite app_nil_r.
  - apply Forall_cons in Hown as [Hownb Hown].
    rewrite bind_cons, reduce_app.
    assert (Hb : bk_id b ∉ map bk_id bs).
    { rewrite map_app in Hnd. apply NoDup_app in Hnd as (_ & Hd & _).
      intros Hin. apply (Hd _ Hin). simpl. left. }
    destruct (reduce_rowsFor d b acc bs w Hownb Hb Hacc) as (acc1 & -> & Hacc1).
    destruct (IH acc1 (bs ++ [b])) as (acc' & Hrun & Hacc');
      [done|by rewrite <- app_assoc|done|].
    exists acc'. split; [done|]. by rewrite <- app_assoc in Hacc'.
Qed.

(** ** Object.values on plain keys *)

Lemma objectValues_plain {V} (o : list (string * V)) :
  Forall (λ kv, arrayIndex kv.1 = None) o → objectValues o = map snd o.
Proof.
  intros Hplain. unfold objectValues.
  assert (omap (λ kv : string * V,
                  option_map (λ n, (n, kv.2)) (arrayIndex kv.1)) o = []) as ->.
  { induction Hplain as [|kv o Hkv _ IH]; [done|]. simpl. by rewrite Hkv. }
  simpl. f_equal. apply filter_all. by apply Forall_forall.
Qed.

(** ** The page *)

Lemma matching_perm d user input :
  matching d user input
  ≡ₚ filter (bookmarksSqWhere d user input) (bookmarks d).
Proof. apply orderByDesc_perm. Qed.

Lemma matching_sorted d user input : newestFirst (matching d user input).
Proof. apply (orderByDesc_sorted bk_createdAt). Qed.

Lemma matching_elem d user input b :
  b ∈ matching d user input ↔ bookmarksSqWhere d user input b ∧ b ∈ bookmarks d.
Proof. rewrite matching_perm. apply list_elem_of_filter. Qed.

Lemma matching_NoDup d user input :
  bookmarksKey d → NoDup (map bk_id (matching d user input)).
Proof.
  intros Hk. change (NoDup (bk_id <$> matching d user input)).
  rewrite matching_perm. apply (sublist_NoDup _ (bk_id <$> bookmarks d)); [done|].
  apply fmap_sublist, sublist_filter.
Qed.

Lemma newestFirst_take n l : newestFirst l → newestFirst (take n l).
Proof.
  intros Hs. rewrite <- (take_drop n l) in Hs.
  by apply StronglySorted_app_1_l in Hs.
Qed.

(** What getBookmarks computes: the first [limit] of the matching bookmarks,
    and as the next cursor the createdAt of the one after them. *)
Lemma getBookmarks_run DEFAULT ctx user input w :
  ctx_user ctx = Some user → bookmarksKey (db w) → plainIds (db w) →
  ownIds (db w) →
  let n := effectiveLimit DEFAULT input in
  let all := matching (db w) user input in
  ∃ r, getBookmarks DEFAULT ctx input w = (Ok r, w)
       ∧ map zb_rest (r_bookmarks r) = take n all
       ∧ r_nextCursor r = bk_createdAt <$> (all !! n).
Proof.
  intros Hu Hk Hplain Hown n all. unfold getBookmarks.
  rewrite (authedProcedure_user _ user) by done.
  case_decide as Hids.
  { eexists. split; [done|]. simpl.
    assert (all = []) as ->; [|by rewrite take_nil].
    subst all. unfold matching.
    rewrite (filter_none _ (bookmarks (db w))); [done|].
    intros b _ (_ & _ & _ & Hin & _). rewrite Hids in Hin. simpl in Hin.
    by apply elem_of_nil in Hin. }
  run_M. fold n. fold (matching (db w) user input). fold all.
  set (sq := take (n + 1) all).
  assert (Hsq : newestFirst sq) by apply newestFirst_take, matching_sorted.
  rewrite (orderByDesc_id _ (joinRows (db w) sq)) by by apply joinRows_sorted.
  assert (Hnd : NoDup (map bk_id ([] ++ sq))).
  { simpl. change (NoDup (bk_id <$> sq)).
    apply (sublist_NoDup _ (bk_id <$> all)); [by apply matching_NoDup|].
    apply fmap_sublist, sublist_take. }
  assert (Hownsq : Forall (λ b, ¬ inherited (bk_id b)) sq).
  { apply Forall_forall. intros b Hb.
    apply (elem_of_sublist _ all) in Hb; [|apply sublist_take].
    apply matching_elem in Hb as [_ Hb].
    unfold ownIds in Hown. rewrite Forall_forall in Hown. by apply Hown. }
  destruct (reduce_joinRows (db w) sq [] [] w Hownsq Hnd)
    as (acc & -> & Hkeys & Hrest); [done|].
  simpl in Hkeys, Hrest.
  rewrite objectValues_plain.
  2: { apply Forall_forall. intros kv Hkv.
       assert (kv.1 ∈ map bk_id sq) as Hin
         by (rewrite <- Hkeys; by apply list_elem_of_fmap_2).
       apply list_elem_of_fmap in Hin as (b & -> & Hb).
       apply (elem_of_sublist _ all) in Hb; [|apply sublist_take].
       apply matching_elem in Hb as [_ Hb].
       unfold plainIds in Hplain. rewrite Forall_forall in Hplain. by apply Hplain. }
  assert (Harr : map zb_rest (map snd acc) = sq) by by rewrite map_map.
  assert (Hlen : length (map snd acc) = length sq) by by rewrite <- Harr, !length_map.
  rewrite Hlen. clear Hkeys Hrest.
  assert (Hsqlen : length sq = Nat.min (n + 1) (length all))
    by (subst sq; apply length_take).
  case_decide as Hlt.
  - eexists. split; [done|]. simpl.
    assert (length all > n)%nat as Hall by lia.
    assert (length sq - 1 = n)%nat as -> by lia. split.
    + change (zb_rest <$> take n (map snd acc) = take n all).
      rewrite fmap_take. change (take n (map zb_rest (map snd acc)) = take n all).
      rewrite Harr. subst sq. rewrite take_take. f_equal. lia.
    + rewrite last_lookup, Hlen, Hsqlen.
      replace (Init.Nat.pred ((n + 1) `min` length all))%nat with n by lia.
      assert (sq !! n = all !! n) as <-
        by (subst sq; by rewrite lookup_take_lt by lia).
      rewrite <- Harr. generalize (map snd acc). intros l.
      change (map zb_rest l) with (zb_rest <$> l).
      rewrite list_lookup_fmap. by destruct (l !! n).
  - eexists. split; [done|]. simpl.
    assert (length all ≤ n)%nat as Hall by lia. split.
    + rewrite Harr. subst sq. rewrite !take_ge by lia. done.
    + by rewrite lookup_ge_None_2.
Qed.

Lemma newestFirst_rest (l : list ZBookmark) :
  newestFirst (map zb_rest l) →
  StronglySorted (descBy (λ b, bk_createdAt (zb_rest b))) l.
Proof.
  unfold newestFirst. induction l as [|x l IH]; simpl; intros Hs; [constructor|].
  apply StronglySorted_inv in Hs as [Hs Hx]. constructor; [by apply IH|].
  apply Forall_forall. intros y Hy. rewrite Forall_forall in Hx. apply Hx.
  by apply (list_elem_of_fmap_2 zb_rest).
Qed.

(** C8 (as the code has it). On a store with its primary key, whose ids are
    neither numerals nor names of members of Object.prototype, getBookmarks
    with limit n, where an unset limit and a limit of zero both stand for
    DEFAULT_NUM_BOOKMARKS_PER_PAGE, returns at most n bookmarks, newest
    first, each no newer than the cursor when one is given: they are the
    first n of the matching bookmarks taken newest first, and nextCursor is
    the createdAt of the matching bookmark that follows them when more than n
    match, and null otherwise. *)
Theorem getBookmarks_page DEFAULT ctx user input w :
  ctx_user ctx = Some user → bookmarksKey (db w) → plainIds (db w) →
  ownIds (db w) →
  let n := effectiveLimit DEFAULT input in
  let all := matching (db w) user input in
  ∃ r, getBookmarks DEFAULT ctx input w = (Ok r, w)
       ∧ (length (r_bookmarks r) ≤ n)%nat
       ∧ StronglySorted (descBy (λ b, bk_createdAt (zb_rest b)))
                        (r_bookmarks r)
       ∧ (∀ c, gb_cursor input = Some c →
               Forall (λ b, bk_createdAt (zb_rest b) ≤ c) (r_bookmarks r))
       ∧ all ≡ₚ filter (bookmarksSqWhere (db w) user input) (bookmarks (db w))
       ∧ newestFirst all
       ∧ map zb_rest (r_bookmarks r) = take n all
       ∧ r_nextCursor r
         = if decide (n < length all)%nat then bk_createdAt <$> all !! n
           else None.
Proof.
  intros Hu Hk Hplain Hown n all.
  destruct (getBookmarks_run DEFAULT ctx user input w Hu Hk Hplain Hown)
    as (r & Hrun & Hpage & Hnext).
  fold n all in Hpage, Hnext. exists r. split; [done|].
  pose proof (matching_sorted (db w) user input) as Hsorted. fold all in Hsorted.
  repeat split.
  - rewrite <- (length_map zb_rest), Hpage, length_take. lia.
  - apply newestFirst_rest. rewrite Hpage. by apply newestFirst_take.
  - intros c Hc. apply Forall_forall. intros b Hb.
    assert (zb_rest b ∈ take n all) as Hin
      by (rewrite <- Hpage; by apply (list_elem_of_fmap_2 zb_rest)).
    apply (elem_of_sublist _ all) in Hin; [|apply sublist_take].
    apply matching_elem in Hin as [(_ & _ & _ & _ & _ & _ & Hcur) _].
    by rewrite Hc in Hcur.
  - apply matching_perm.
  - done.
  - done.
  - rewrite Hnext. case_decide; [done|]. by rewrite lookup_ge_None_2 by lia.
Qed.

Lemma getBookmarks_page_witness :
  ∃ r, getBookmarks 20 Sample.alice
         (mkGetBookmarksRequest None None None None None (Some 2%nat) (Some 40))
         Sample.world = (Ok r, Sample.world)
       ∧ map (λ b, bk_id (zb_rest b)) (r_bookmarks r) = ["b4"; "b2"]
       ∧ (length (r_bookmarks r) ≤ 2)%nat
       ∧ r_nextCursor r = Some 10.
Proof.
  destruct (getBookmarks_page 20 Sample.alice (mkUser "alice")
              (mkGetBookmarksRequest None None None None None (Some 2%nat)
                                     (Some 40))
              Sample.world eq_refl)
    as (r & Hrun & Hlen & _ & _ & _ & _ & Hpage & Hnext);
    [by_decide|by_decide|by_decide|].
  exists r. split; [exact Hrun|]. split.
  - rewrite <- (map_map zb_rest bk_id), Hpage. reflexivity.
  - split; [exact Hlen|]. rewrite Hnext. reflexivity.
Defined.

(** C8, counterexamples to the sentence as the specification has it. With a
    limit of zero the page is not empty: the limit is taken as unset and the
    default page size applies. With a bookmark whose id is the numeral 7 the
    page is not in descending createdAt order: that bookmark, the oldest,
    comes first. With a bookmark whose id is the word constructor and a limit
    of one, four bookmarks match, yet the page holds the second newest of
    them and nextCursor is null. *)
Lemma getBookmarks_page_counterexamples :
  let everything := mkGetBookmarksRequest None None None None None in
  (∃ r, (getBookmarks 20 Sample.alice (everything (Some 0%nat) None)
           Sample.world).1 = Ok r
        ∧ map (λ b, bk_id (zb_rest b)) (r_bookmarks r) = ["b4"; "b2"; "b1"]
        ∧ ¬ (length (r_bookmarks r) ≤ 0)%nat)
  ∧ (∃ r, (getBookmarks 20 Sample.alice (everything None None)
             Sample.numeralId).1 = Ok r
          ∧ map (λ b, (bk_id (zb_rest b), bk_createdAt (zb_rest b)))
                (r_bookmarks r)
            = [("7", 5); ("b4", 40); ("b2", 20); ("b1", 10)]
          ∧ ¬ StronglySorted (descBy (λ b, bk_createdAt (zb_rest b)))
                             (r_bookmarks r))
  ∧ (∃ r, (getBookmarks 20 Sample.alice (everything (Some 1%nat) None)
             Sample.inheritedId).1 = Ok r
          ∧ map bk_id (matching (db Sample.inheritedId) (mkUser "alice")
                         (everything (Some 1%nat) None))
            = ["constructor"; "b4"; "b2"; "b1"]
          ∧ map (λ b, bk_id (zb_rest b)) (r_bookmarks r) = ["b4"]
          ∧ r_nextCursor r = None).
Proof.
  intros everything. split; [|split].
  - eexists. split; [by vm_compute|]. split; [reflexivity|]. simpl. lia.
  - eexists. split; [by vm_compute|]. split; [reflexivity|].
    intros Hs. apply StronglySorted_inv in Hs as [_ Hf].
    apply Forall_inv in Hf. unfold descBy in Hf. simpl in Hf. lia.
  - eexists. split; [by vm_compute|]. split; [by vm_compute|].
    split; reflexivity.
Qed.

(** * Further properties of the router and of the bookmark card *)

(** ** The gate, without assuming the primary key *)

Lemma elem_of_head_filter {A} (P : A → Prop) `{∀ x, Decision (P x)}
    (l : list A) (x : A) :
  head (filter P l) = Some x → x ∈ l ∧ P x.
Proof.
  intros Hh. assert (x ∈ filter P l) as Hin.
  { destruct (filter P l); [done|]. injection Hh as ->. left. }
  apply list_elem_of_filter in Hin. tauto.
Qed.

(** A gated call either stops at the gate, leaving the world as it was, or
    runs the mutation for the caller, who owns a bookmark of the id. *)
Lemma gate_cases {A} ctx bookmarkId (next : User → M A) w :
  (∃ e, authedProcedure ctx
          (λ user, ensureBookmarkOwnership ctx bookmarkId (next user)) w
        = (Err e, w))
  ∨ (∃ user row,
       ctx_user ctx = Some user
       ∧ row ∈ bookmarks (db w) ∧ bk_id row = bookmarkId
       ∧ bk_userId row = user_id user
       ∧ authedProcedure ctx
           (λ user, ensureBookmarkOwnership ctx bookmarkId (next user)) w
         = next user w).
Proof.
  unfold authedProcedure, ensureBookmarkOwnership.
  destruct (ctx_user ctx) as [user|] eqn:Hu; [|left; by eexists].
  run_M.
  destruct (head (filter _ (bookmarks (db w)))) as [row|] eqn:Hrow;
    [|left; by eexists].
  apply elem_of_head_filter in Hrow as [Hin Hid].
  case_decide as Ho; [left; by eexists|].
  right. exists user, row. repeat split; try done.
Qed.

(** ** What the gated procedures do *)

Ltac gate :=
  match goal with
  | |- context [authedProcedure ?ctx
                  (λ user, ensureBookmarkOwnership ?ctx ?id (@?next user)) ?w] =>
    destruct (gate_cases ctx id next w)
      as [[? Hgate]|(user & row & Hu & Hrow & Hid & Ho & Hgate)];
    rewrite Hgate; clear Hgate
  end.

Lemma world_eta w : mkWorld (db w) (trace w) = w.
Proof. by destruct w. Qed.

Lemma db_eta d :
  mkDb (bookmarks d) (bookmarkLinks d) (bookmarkTexts d) (bookmarkAssets d)
       (bookmarkTags d) (tagsOnBookmarks d) (bookmarksInLists d) = d.
Proof. by destruct d. Qed.

Lemma map_id_when {A} (P : A → Prop) `{∀ x, Decision (P x)} (f : A → A)
    (l : list A) :
  filter P l = [] → map (λ x, if decide (P x) then f x else x) l = l.
Proof.
  induction l as [|x l IH]; [done|]. rewrite filter_cons. simpl.
  destruct (decide (P x)); [done|]. intros Hf. by rewrite IH.
Qed.

(** updateBookmark: stopped at the gate, refused for having nothing to set,
    or done; the row is always found behind the gate. *)
Lemma updateBookmark_cases ctx input w :
  let r := updateBookmark ctx input w in
  (∃ e, r = (Err e, w))
  ∨ (∃ user row,
       ctx_user ctx = Some user
       ∧ head (filter (λ b, bk_userId b = user_id user
                            ∧ bk_id b = ub_bookmarkId input)
                      (bookmarks (db w))) = Some row
       ∧ r = (Ok (setColumns input row),
              mkWorld
                (setBookmarks
                   (map (λ b, if decide (bk_userId b = user_id user
                                         ∧ bk_id b = ub_bookmarkId input)
                              then setColumns input b else b)
                        (bookmarks (db w))) (db w))
                (trace w ++ [EvAdd SearchIndexingQueue "search_indexing"
                               (mkJob (ub_bookmarkId input) (Some OpIndex))]))).
Proof.
  intros r. subst r. unfold updateBookmark. gate; [left; by eexists|].
  run_M.
  assert (row ∈ filter (λ b, bk_userId b = user_id user
                             ∧ bk_id b = ub_bookmarkId input)
                       (bookmarks (db w))) as Hin
    by by apply list_elem_of_filter.
  destruct (filter _ (bookmarks (db w))) as [|r rest] eqn:Hf;
    [by apply elem_of_nil in Hin|].
  destruct (ub_archived input), (ub_favourited input), (ub_note input);
    simpl; try (right; exists user, r; rewrite Hf; by repeat split).
  left. by eexists.
Qed.

(** updateBookmarkText: refused by the parser, stopped at the gate, not
    found because the bookmark has no text row, or done. *)
Lemma updateBookmarkText_cases ctx bookmarkId text w :
  let r := updateBookmarkText ctx bookmarkId text w in
  (∃ e, r = (Err e, w))
  ∨ (∃ user row,
       ctx_user ctx = Some user
       ∧ row ∈ bookmarks (db w) ∧ bk_id row = bookmarkId
       ∧ bk_userId row = user_id user
       ∧ filter (λ t, bt_id t = bookmarkId) (bookmarkTexts (db w)) ≠ []
       ∧ r = (Ok (),
              mkWorld
                (setBookmarkTexts
                   (map (λ t, if decide (bt_id t = bookmarkId)
                              then mkBookmarkText (bt_id t) (Some text) else t)
                        (bookmarkTexts (db w))) (db w))
                (trace w ++ [EvAdd SearchIndexingQueue "search_indexing"
                               (mkJob bookmarkId (Some OpIndex))]))).
Proof.
  intros r. subst r. unfold updateBookmarkText.
  destruct (decide (2000 < Z.of_nat (String.length text)))
    as [Hlong|Hlen].
  { left. unfold authedProcedure. destruct (ctx_user ctx); by eexists. }
  cbv iota. gate; [left; by eexists|].
  run_M. destruct (filter _ (bookmarkTexts (db w))) as [|t ts] eqn:Hf; simpl.
  - left. eexists. rewrite map_id_when by done.
    unfold setBookmarkTexts. by rewrite db_eta, world_eta.
  - right. exists user, row. by repeat split.
Qed.

Lemma deleteBookmarks_run userId bookmarkId w :
  let hit b := bk_userId b = userId ∧ bk_id b = bookmarkId in
  deleteBookmarks userId bookmarkId w
  = (Ok (length (filter hit (bookmarks (db w)))),
     if decide (filter hit (bookmarks (db w)) = []) then w
     else mkWorld
            (mkDb (filter (λ b, ¬ hit b) (bookmarks (db w)))
                  (filter (λ l, bl_id l ≠ bookmarkId) (bookmarkLinks (db w)))
                  (filter (λ t, bt_id t ≠ bookmarkId) (bookmarkTexts (db w)))
                  (filter (λ a, ba_id a ≠ bookmarkId) (bookmarkAssets (db w)))
                  (bookmarkTags (db w))
                  (filter (λ t, tob_bookmarkId t ≠ bookmarkId)
                          (tagsOnBookmarks (db w)))
                  (filter (λ t, bil_bookmarkId t ≠ bookmarkId)
                          (bookmarksInLists (db w))))
            (trace w)).
Proof.
  intros hit. unfold deleteBookmarks. run_M.
  destruct (filter hit (bookmarks (db w))) as [|b bs] eqn:Hf; simpl.
  - subst hit. simpl in Hf. rewrite Hf. by destruct w.
  - subst hit. simpl in Hf. by rewrite Hf.
Qed.

(** deleteBookmark: stopped at the gate, or done: the row and what hangs on
    it are gone, the index is told, and the asset, if any, is released. *)
Lemma deleteBookmark_cases ctx bookmarkId w :
  let r := deleteBookmark ctx bookmarkId w in
  (∃ e, r = (Err e, w))
  ∨ (∃ user row,
       ctx_user ctx = Some user
       ∧ row ∈ bookmarks (db w) ∧ bk_id row = bookmarkId
       ∧ bk_userId row = user_id user
       ∧ r = (Ok (),
              mkWorld
                (mkDb (filter (λ b, ¬ (bk_userId b = user_id user
                                       ∧ bk_id b = bookmarkId))
                              (bookmarks (db w)))
                      (filter (λ l, bl_id l ≠ bookmarkId) (bookmarkLinks (db w)))
                      (filter (λ t, bt_id t ≠ bookmarkId) (bookmarkTexts (db w)))
                      (filter (λ a, ba_id a ≠ bookmarkId)
                              (bookmarkAssets (db w)))
                      (bookmarkTags (db w))
                      (filter (λ t, tob_bookmarkId t ≠ bookmarkId)
                              (tagsOnBookmarks (db w)))
                      (filter (λ t, bil_bookmarkId t ≠ bookmarkId)
                              (bookmarksInLists (db w))))
                (trace w
                 ++ [EvAdd SearchIndexingQueue "search_indexing"
                       (mkJob bookmarkId (Some OpDelete))]
                 ++ match head (filter (λ a, ba_id a = bookmarkId)
                                       (bookmarkAssets (db w))) with
                    | Some a => [EvDeleteAsset (user_id user) (ba_assetId a)]
                    | None => []
                    end))).
Proof.
  intros r. subst r. unfold deleteBookmark. gate; [left; by eexists|].
  right. exists user, row. repeat split; try done.
  unfold deleteBookmarkMutation. unfold mbind at 1, M_bind at 1, getDb.
  unfold mbind at 1, M_bind at 1. rewrite deleteBookmarks_run.
  assert (row ∈ filter (λ b, bk_userId b = user_id user ∧ bk_id b = bookmarkId)
                       (bookmarks (db w))) as Hin
    by by apply list_elem_of_filter.
  destruct (filter _ (bookmarks (db w))) as [|b bs] eqn:Hf;
    [by apply elem_of_nil in Hin|].
  rewrite (decide_False (P := b :: bs = [])) by done.
  rewrite (decide_True (P := (0 < length (b :: bs))%nat)) by (simpl; lia).
  run_M.
  destruct (head _); run_M; by rewrite <- ?app_assoc, ?app_nil_r.
Qed.

Lemma recrawlBookmark_cases ctx bookmarkId w :
  let r := recrawlBookmark ctx bookmarkId w in
  (∃ e, r = (Err e, w))
  ∨ (∃ user row,
       ctx_user ctx = Some user
       ∧ row ∈ bookmarks (db w) ∧ bk_id row = bookmarkId
       ∧ bk_userId row = user_id user
       ∧ r = (Ok (), mkWorld (db w)
                       (trace w ++ [EvAdd LinkCrawlerQueue "crawl"
                                      (mkJob bookmarkId None)]))).
Proof.
  intros r. subst r. unfold recrawlBookmark. gate; [left; by eexists|].
  right. exists user, row. by repeat split.
Qed.

(** getBookmark: stopped at the gate, or answered; the row is always found
    behind the gate. *)
Lemma getBookmark_cases ctx bookmarkId w :
  let r := getBookmark ctx bookmarkId w in
  (∃ e, r = (Err e, w))
  ∨ (∃ user row,
       ctx_user ctx = Some user
       ∧ head (filter (λ b, bk_userId b = user_id user ∧ bk_id b = bookmarkId)
                      (bookmarks (db w))) = Some row
       ∧ r = (Ok (converted (db w) row), w)).
Proof.
  intros r. subst r. unfold getBookmark. gate; [left; by eexists|].
  run_M.
  assert (row ∈ filter (λ b, bk_userId b = user_id user ∧ bk_id b = bookmarkId)
                       (bookmarks (db w))) as Hin
    by by apply list_elem_of_filter.
  destruct (filter _ (bookmarks (db w))) as [|b bs] eqn:Hf;
    [by apply elem_of_nil in Hin|].
  right. exists user, b. rewrite ?Hf. by repeat split.
Qed.

(** The stages of updateTags behind the gate, whatever the store. *)
Lemma updateTagsTransaction_run user bookmarkId attach detach genId w :
  let d := db w in
  let tags := afterCreate user attach genId d in
  transaction (updateTagsTx user bookmarkId attach detach genId) w
  = match attach with
    | [] =>
      (Ok (), mkWorld (setTagsOnBookmarks (afterDetach bookmarkId detach d) d)
                      (trace w ++ [EvBegin; EvCommit]))
    | _ =>
      match attachedIds user attach tags with
      | [] =>
        (Err (DriverError "values() must be called with at least one value"),
         mkWorld (setBookmarkTags tags
                    (setTagsOnBookmarks (afterDetach bookmarkId detach d) d))
                 (trace w ++ [EvBegin; EvCommit]))
      | _ =>
        (Ok (),
         mkWorld (setTagsOnBookmarks
                    (afterAttach user bookmarkId attach detach genId d)
                    (setBookmarkTags tags d))
                 (trace w ++ [EvBegin; EvCommit]))
      end
    end.
Proof. intros d tags. by rewrite transaction_run, updateTagsTx_run. Qed.

Lemma updateTags_cases ctx bookmarkId attach detach genId w :
  let r := updateTags ctx bookmarkId attach detach genId w in
  (∃ e, r = (Err e, w))
  ∨ (∃ user row,
       ctx_user ctx = Some user
       ∧ row ∈ bookmarks (db w) ∧ bk_id row = bookmarkId
       ∧ bk_userId row = user_id user
       ∧ r = transaction (updateTagsTx user bookmarkId attach detach genId) w).
Proof.
  intros r. subst r. unfold updateTags. gate; [left; by eexists|].
  right. exists user, row. by repeat split.
Qed.

(** ** The integrity of the store is kept *)

Lemma NoDup_map_snoc {A B} (f : A → B) (l : list A) (x : A) :
  NoDup (map f l) → f x ∉ map f l → NoDup (map f (l ++ [x])).
Proof.
  intros Hnd Hx. rewrite map_app. apply NoDup_app. split; [done|]. split.
  - intros y Hy [->|H]%elem_of_cons; [done|by apply elem_of_nil in H].
  - apply NoDup_singleton.
Qed.

Lemma NoDup_map_filter {A B} (f : A → B) (P : A → Prop)
    `{∀ x, Decision (P x)} (l : list A) :
  NoDup (map f l) → NoDup (map f (filter P l)).
Proof.
  intros Hnd. apply (sublist_NoDup _ (f <$> l)); [done|].
  apply fmap_sublist, sublist_filter.
Qed.

Lemma map_key_alter {A B} (f : A → B) (g : A → A) (l : list A) :
  (∀ x, f (g x) = f x) → map f (map g l) = map f l.
Proof. intros Hg. rewrite map_map. by apply map_ext. Qed.

Lemma createBookmarkTx_fresh user input newId now w b w' :
  createBookmarkTx user input newId now w = (Ok b, w') →
  (newId ∉ map bk_id (bookmarks (db w)))
  ∧ match input with
    | NewLink _ => newId ∉ map bl_id (bookmarkLinks (db w))
    | NewText _ => newId ∉ map bt_id (bookmarkTexts (db w))
    | NewAsset _ _ => newId ∉ map ba_id (bookmarkAssets (db w))
    | NewUnknown => False
    end.
Proof.
  unfold createBookmarkTx, insertBookmarks, insertBookmarkLinks,
    insertBookmarkTexts, insertBookmarkAssets. run_M.
  destruct (decide (newId ∈ map bk_id (bookmarks (db w)))); [done|]. simpl.
  destruct input; simpl; [| | |done]; by case_decide.
Qed.

(** A failing run of the callback of createBookmark: the bookmark insert was
    refused and the store is as it was, or the bookmark row is in and what
    came after it failed. *)
Lemma createBookmarkTx_err user input newId now w e w' :
  createBookmarkTx user input newId now w = (Err e, w') →
  trace w' = trace w
  ∧ (db w' = db w
     ∨ (newId ∉ map bk_id (bookmarks (db w)))
       ∧ db w' = setBookmarks
                   (bookmarks (db w)
                    ++ [mkBookmark newId (user_id user) now false false None
                                   (Some TsPending)])
                   (db w)).
Proof.
  unfold createBookmarkTx, insertBookmarks, insertBookmarkLinks,
    insertBookmarkTexts, insertBookmarkAssets. run_M.
  destruct (decide (newId ∈ map bk_id (bookmarks (db w)))).
  { intros [= <- <-]. split; [done|by left]. }
  simpl. destruct input; simpl; try case_decide; simpl; try done;
    intros [= <- <-]; (split; [done|by right]).
Qed.

(** createBookmark: no caller; or the callback fails, after the commit; or
    the new rows and the two jobs. *)
Lemma createBookmark_cases ctx input newId now w :
  let r := createBookmark ctx input newId now w in
  let w0 := mkWorld (db w) (trace w ++ [EvBegin; EvCommit]) in
  (ctx_user ctx = None ∧ r = (Err (TRPCError UNAUTHORIZED None), w))
  ∨ (∃ user e d',
       ctx_user ctx = Some user
       ∧ r = (Err e, mkWorld d' (trace w0))
       ∧ createBookmarkTx user input newId now w0
         = (Err e, mkWorld d' (trace w0)))
  ∨ (∃ user b d' job,
       ctx_user ctx = Some user
       ∧ r = (Ok b, mkWorld d'
                (trace w ++ [EvBegin; EvCommit; job;
                             EvAdd SearchIndexingQueue "search_indexing"
                                   (mkJob newId (Some OpIndex))]))
       ∧ createBookmarkTx user input newId now w0
         = (Ok b, mkWorld d' (trace w0))
       ∧ job = match input with
               | NewLink _ => EvAdd LinkCrawlerQueue "crawl" (mkJob newId None)
               | _ => EvAdd OpenAIQueue "openai" (mkJob newId None)
               end).
Proof.
  intros r w0. assert (Er : r = createBookmark ctx input newId now w) by done.
  clearbody r. unfold createBookmark, authedProcedure in Er.
  destruct (ctx_user ctx) as [user|] eqn:Hu; [|by left].
  right.
  pose proof (createBookmarkTx_spec user input newId now w0) as Htx.
  unfold mbind at 1, M_bind at 1 in Er. rewrite transaction_run in Er.
  fold w0 in Er.
  destruct (createBookmarkTx user input newId now w0) as [[b|e] [d1 tr1]] eqn:Hrun.
  - right. destruct Htx as (Htr & Hrest & _ & _ & _ & _ & _ & Hin).
    simpl in Htr, Hrest, Hin. subst tr1.
    assert (Hid : bk_id (zb_rest b) = newId) by by rewrite Hrest.
    exists user, b, d1. destruct input.
    + destruct Hin as (l & Hc & _). rewrite Hc in Er. run_M. rewrite Hid in Er.
      eexists. rewrite <- !app_assoc in Er. simpl in Er. by repeat split.
    + destruct Hin as (Hc & _). rewrite Hc in Er. run_M. rewrite Hid in Er.
      eexists. rewrite <- !app_assoc in Er. simpl in Er. by repeat split.
    + destruct Hin as (Hc & _). rewrite Hc in Er. run_M. rewrite Hid in Er.
      eexists. rewrite <- !app_assoc in Er. simpl in Er. by repeat split.
    + done.
  - left. simpl in Htx. subst tr1. exists user, e, d1. by repeat split.
Qed.

Lemma Forall_ref_snoc {A} (f : A → Id) (rows : list A) (bs : list Bookmark) b :
  Forall (λ x, f x ∈ map bk_id bs) rows →
  Forall (λ x, f x ∈ map bk_id (bs ++ [b])) rows.
Proof.
  intros H. eapply Forall_impl; [exact H|]. simpl. intros x Hx.
  rewrite map_app. apply elem_of_app. by left.
Qed.

Lemma wellFormed_insertBookmark d (b : Bookmark) :
  wellFormed d → bk_id b ∉ map bk_id (bookmarks d) →
  wellFormed (setBookmarks (bookmarks d ++ [b]) d).
Proof.
  intros (W1 & W2 & W3 & W4 & W5 & W6 & W7 & W8 & W9 & W10 & W11) Hb.
  unfold wellFormed. simpl.
  repeat split; try done; try by apply Forall_ref_snoc.
  - by apply NoDup_map_snoc.
  - eapply Forall_impl; [exact W11|]. simpl. intros t [H1 H2]. split; [|done].
    rewrite map_app. apply elem_of_app. by left.
Qed.

Lemma createBookmarkTx_wellFormed user input newId now w :
  wellFormed (db w) →
  wellFormed (db (createBookmarkTx user input newId now w).2).
Proof.
  intros Hwf.
  destruct (createBookmarkTx user input newId now w) as [[b|e] w'] eqn:Hrun.
  2: { apply createBookmarkTx_err in Hrun as [_ [Hd|[Hb Hd]]];
         cbn [snd]; rewrite Hd; [done|].
       by apply wellFormed_insertBookmark. }
  simpl.
  pose proof (createBookmarkTx_fresh _ _ _ _ _ _ _ Hrun) as [Hb Hc].
  pose proof (createBookmarkTx_spec user input newId now w) as Htx.
  rewrite Hrun in Htx. simpl in Htx, Hc.
  destruct Htx as (_ & Hrest & _ & Hbk & Htags & Htobs & _ & Hin).
  destruct Hwf as (W1 & W2 & W3 & W4 & W5 & W6 & W7 & W8 & W9 & W10 & W11).
  assert (Hid : bk_id (zb_rest b) = newId) by by rewrite Hrest.
  assert (Hnew : newId ∈ map bk_id (bookmarks (db w) ++ [zb_rest b])).
  { rewrite map_app. apply elem_of_app. right. simpl. rewrite Hid. left. }
  unfold wellFormed. rewrite Hbk, Htags, Htobs.
  assert (W1' : NoDup (map bk_id (bookmarks (db w) ++ [zb_rest b])))
    by (apply NoDup_map_snoc; [done|by rewrite Hid]).
  assert (W11' : Forall (λ t, tob_bookmarkId t
                              ∈ map bk_id (bookmarks (db w) ++ [zb_rest b])
                              ∧ tob_tagId t ∈ map tg_id (bookmarkTags (db w)))
                        (tagsOnBookmarks (db w))).
  { eapply Forall_impl; [exact W11|]. simpl. intros t [H1 H2]. split; [|done].
    rewrite map_app. apply elem_of_app. by left. }
  destruct input.
  - destruct Hin as (l & _ & Hl & _ & -> & -> & ->).
    repeat split; try done; try by apply Forall_ref_snoc.
    + apply NoDup_map_snoc; [done|by rewrite Hl].
    + apply Forall_app. split; [by apply Forall_ref_snoc|].
      apply Forall_singleton. by rewrite Hl.
  - destruct Hin as (_ & -> & -> & ->).
    repeat split; try done; try by apply Forall_ref_snoc.
    + by apply NoDup_map_snoc.
    + apply Forall_app. split; [by apply Forall_ref_snoc|].
      by apply Forall_singleton.
  - destruct Hin as (_ & -> & -> & ->).
    repeat split; try done; try by apply Forall_ref_snoc.
    + by apply NoDup_map_snoc.
    + apply Forall_app. split; [by apply Forall_ref_snoc|].
      by apply Forall_singleton.
  - done.
Qed.

(** X1. createBookmark keeps the integrity of the store: ids stay unique in
    every table it writes, and the new content row refers to the new
    bookmark. *)
Theorem createBookmark_wellFormed ctx input newId now w :
  wellFormed (db w) →
  wellFormed (db (createBookmark ctx input newId now w).2).
Proof.
  intros Hwf.
  destruct (createBookmark_cases ctx input newId now w)
    as [[_ ->]|[(user & e & d' & _ & -> & Hrun)
               |(user & b & d' & job & _ & -> & Hrun & _)]];
    [done| |].
  - pose proof (createBookmarkTx_wellFormed user input newId now
                  (mkWorld (db w) (trace w ++ [EvBegin; EvCommit])) Hwf) as H.
    by rewrite Hrun in H.
  - pose proof (createBookmarkTx_wellFormed user input newId now
                  (mkWorld (db w) (trace w ++ [EvBegin; EvCommit])) Hwf) as H.
    by rewrite Hrun in H.
Qed.

Lemma createBookmark_wellFormed_witness :
  wellFormed
    (db (createBookmark Sample.alice (NewLink " https://rocq-prover.org ")
           "b5" 50 Sample.world).2).
Proof.
  apply (createBookmark_wellFormed Sample.alice
           (NewLink " https://rocq-prover.org ") "b5" 50 Sample.world).
  by_decide.
Defined.

Lemma insertTagRows_NoDup genId k rows table :
  NoDup (map tg_id table) →
  NoDup (map (λ g, (tg_userId g, tg_name g)) table) →
  NoDup (map tg_id (insertTagRows genId k rows table))
  ∧ NoDup (map (λ g, (tg_userId g, tg_name g))
               (insertTagRows genId k rows table)).
Proof.
  revert k table. induction rows as [|[name userId] rows IH];
    intros k table Hids Hnames; [done|].
  simpl. case_decide as Hc; [by apply IH|].
  apply IH.
  - apply NoDup_map_snoc; [done|]. simpl. intros Hin. apply Hc. by left.
  - apply NoDup_map_snoc; [done|]. simpl. intros Hin. apply Hc. right.
    apply list_elem_of_fmap in Hin as (g & [= Hu Hn] & Hg).
    apply Exists_exists. by exists g.
Qed.

Lemma insertAttachmentRows_NoDup rows table :
  NoDup (map (λ t, (tob_bookmarkId t, tob_tagId t)) table) →
  NoDup (map (λ t, (tob_bookmarkId t, tob_tagId t))
             (insertAttachmentRows rows table)).
Proof.
  revert table. induction rows as [|r rows IH]; intros table Hnd; [done|].
  simpl. case_decide as Hc; [by apply IH|].
  apply IH. apply NoDup_map_snoc; [done|]. intros Hin. apply Hc.
  apply list_elem_of_fmap in Hin as (t & [= Hb Ht] & Hin).
  apply Exists_exists. by exists t.
Qed.

Lemma wellFormed_updateTagsTransaction user bookmarkId attach detach genId w :
  wellFormed (db w) →
  bookmarkId ∈ map bk_id (bookmarks (db w)) →
  wellFormed
    (db (transaction (updateTagsTx user bookmarkId attach detach genId) w).2).
Proof.
  intros Hwf Hid. rewrite updateTagsTransaction_run.
  pose proof Hwf as (W1 & W2 & W3 & W4 & W5 & W6 & W7 & W8 & W9 & W10 & W11).
  assert (Hdet : NoDup (map (λ t, (tob_bookmarkId t, tob_tagId t))
                            (afterDetach bookmarkId detach (db w)))
                 ∧ Forall (λ t, tob_bookmarkId t ∈ map bk_id (bookmarks (db w))
                                ∧ tob_tagId t ∈ map tg_id (bookmarkTags (db w)))
                          (afterDetach bookmarkId detach (db w))).
  { unfold afterDetach. split; [by apply NoDup_map_filter|].
    apply Forall_forall. intros t [_ Hin]%list_elem_of_filter.
    rewrite Forall_forall in W11. by apply W11. }
  destruct Hdet as [D1 D2].
  destruct attach as [|a attach].
  { simpl. unfold wellFormed. simpl. by repeat split. }
  set (attach' := a :: attach) in *.
  destruct (insertTagRows_NoDup genId 0
              (map (λ i, (at_tag i, user_id user))
                   (filter (λ i, at_tagId i = None) attach'))
              (bookmarkTags (db w)) W5 W6) as [T1 T2].
  destruct (insertTagRows_app genId 0
              (map (λ i, (at_tag i, user_id user))
                   (filter (λ i, at_tagId i = None) attach'))
              (bookmarkTags (db w))) as (extra & Hcre & _).
  fold (afterCreate user attach' genId (db w)) in T1, T2, Hcre.
  assert (D3 : Forall (λ t, tob_bookmarkId t ∈ map bk_id (bookmarks (db w))
                            ∧ tob_tagId t
                              ∈ map tg_id (afterCreate user attach' genId (db w)))
                      (afterDetach bookmarkId detach (db w))).
  { eapply Forall_impl; [exact D2|]. simpl. intros t [H1 H2]. split; [done|].
    rewrite Hcre, map_app. apply elem_of_app. by left. }
  destruct (attachedIds user attach' (afterCreate user attach' genId (db w)))
    as [|i ids] eqn:Eids.
  { cbn [snd db]. unfold wellFormed. simpl. by repeat split. }
  clear Eids i ids.
  cbn [snd db]. unfold wellFormed.
  rewrite (proj1 (tags_of_result _ _ _)), (proj2 (tags_of_result _ _ _)).
  assert (bookmarks (setTagsOnBookmarks
            (afterAttach user bookmarkId attach' detach genId (db w))
            (setBookmarkTags (afterCreate user attach' genId (db w)) (db w)))
          = bookmarks (db w)) as -> by done.
  assert (bookmarkLinks (setTagsOnBookmarks
            (afterAttach user bookmarkId attach' detach genId (db w))
            (setBookmarkTags (afterCreate user attach' genId (db w)) (db w)))
          = bookmarkLinks (db w)) as -> by done.
  assert (bookmarkTexts (setTagsOnBookmarks
            (afterAttach user bookmarkId attach' detach genId (db w))
            (setBookmarkTags (afterCreate user attach' genId (db w)) (db w)))
          = bookmarkTexts (db w)) as -> by done.
  assert (bookmarkAssets (setTagsOnBookmarks
            (afterAttach user bookmarkId attach' detach genId (db w))
            (setBookmarkTags (afterCreate user attach' genId (db w)) (db w)))
          = bookmarkAssets (db w)) as -> by done.
  repeat split; try done.
  - unfold afterAttach. by apply insertAttachmentRows_NoDup.
  - unfold afterAttach.
    destruct (insertAttachmentRows_app
                (map (λ i, mkTagOnBookmark bookmarkId i Human)
                     (attachedIds user attach'
                        (afterCreate user attach' genId (db w))))
                (afterDetach bookmarkId detach (db w)))
      as (extra' & -> & Hextra').
    apply Forall_app. split; [done|].
    apply Forall_forall. intros t Ht. destruct (Hextra' t Ht) as [Hin _].
    apply list_elem_of_fmap in Hin as (i & -> & Hi). simpl. split; [done|].
    unfold attachedIds in Hi.
    apply list_elem_of_fmap in Hi as (g & -> & Hg).
    apply list_elem_of_filter in Hg as [_ Hg].
    by apply (list_elem_of_fmap_2 tg_id).
Qed.

(** X2. Every procedure behind the gate keeps the integrity of the store,
    whether the call succeeds or fails. *)
Theorem call_wellFormed ctx m w :
  wellFormed (db w) → wellFormed (db (call ctx m w).2).
Proof.
  intros Hwf.
  pose proof Hwf as (W1 & W2 & W3 & W4 & W5 & W6 & W7 & W8 & W9 & W10 & W11).
  destruct m as [input|bookmarkId text|bookmarkId|bookmarkId|bookmarkId
                |bookmarkId attach detach genId]; simpl.
  - destruct (updateBookmark_cases ctx input w)
      as [[e ->]|(user & row & _ & _ & ->)]; [done|].
    simpl. unfold wellFormed. simpl.
    rewrite (map_key_alter bk_id).
    2: { intros b. by case_decide. }
    by repeat split.
  - destruct (updateBookmarkText_cases ctx bookmarkId text w)
      as [[e ->]|(user & row & _ & _ & _ & _ & _ & ->)]; [done|].
    simpl. unfold wellFormed. simpl.
    assert (Hids : map bt_id
                     (map (λ t, if decide (bt_id t = bookmarkId)
                                then mkBookmarkText (bt_id t) (Some text)
                                else t) (bookmarkTexts (db w)))
                   = map bt_id (bookmarkTexts (db w))).
    { apply map_key_alter. intros t. by case_decide. }
    rewrite Hids. repeat split; try done.
    apply Forall_forall. intros t Ht.
    apply list_elem_of_fmap in Ht as (t0 & -> & Ht0).
    rewrite Forall_forall in W9. specialize (W9 t0 Ht0). by case_decide.
  - destruct (deleteBookmark_cases ctx bookmarkId w)
      as [[e ->]|(user & row & _ & Hrow & Hid & Ho & ->)]; [done|].
    simpl. unfold wellFormed. simpl.
    assert (Hkeep : ∀ k, k ≠ bookmarkId → k ∈ map bk_id (bookmarks (db w)) →
              k ∈ map bk_id (filter (λ b, ¬ (bk_userId b = user_id user
                                              ∧ bk_id b = bookmarkId))
                                    (bookmarks (db w)))).
    { intros k Hk Hin. apply list_elem_of_fmap in Hin as (b & -> & Hb).
      apply (list_elem_of_fmap_2 bk_id). apply list_elem_of_filter.
      split; [|done]. by intros [_ ?]. }
    repeat split; try by apply NoDup_map_filter.
    + done.
    + done.
    + apply Forall_forall. intros l [Hl Hin]%list_elem_of_filter.
      rewrite Forall_forall in W8. by apply Hkeep, W8.
    + apply Forall_forall. intros t [Ht Hin]%list_elem_of_filter.
      rewrite Forall_forall in W9. by apply Hkeep, W9.
    + apply Forall_forall. intros a [Ha Hin]%list_elem_of_filter.
      rewrite Forall_forall in W10. by apply Hkeep, W10.
    + apply Forall_forall. intros t [Ht Hin]%list_elem_of_filter.
      rewrite Forall_forall in W11. destruct (W11 t Hin). split; [|done].
      by apply Hkeep.
  - destruct (recrawlBookmark_cases ctx bookmarkId w)
      as [[e ->]|(user & row & _ & _ & _ & _ & ->)]; done.
  - destruct (getBookmark_cases ctx bookmarkId w)
      as [[e ->]|(user & row & _ & _ & ->)]; done.
  - destruct (updateTags_cases ctx bookmarkId attach detach genId w)
      as [[e ->]|(user & row & _ & Hrow & Hid & _ & ->)]; [done|].
    assert (∀ r : Result () * World, (failure r).2 = r.2) as ->
      by (by intros [[?|?] ?]).
    apply wellFormed_updateTagsTransaction; [done|].
    rewrite <- Hid. by apply (list_elem_of_fmap_2 bk_id).
Qed.

Lemma call_wellFormed_witness :
  wellFormed
    (db (call Sample.alice
           (MUpdateTags "b1" [mkAttachItem None "paper"; mkAttachItem None "todo"]
                        ["t1"] Sample.genId)
           Sample.world).2).
Proof.
  apply (call_wellFormed Sample.alice
           (MUpdateTags "b1" [mkAttachItem None "paper"; mkAttachItem None "todo"]
                        ["t1"] Sample.genId)
           Sample.world).
  by_decide.
Defined.

(** ** Failures, jobs and what never changes *)

(** A gated call: stopped before its mutation or refused by it, the world
    as it was; or an updateTags whose attach failed, after its detach and its
    new tags; or done. *)
Lemma call_cases ctx m w :
  (∃ e, call ctx m w = (Some e, w))
  ∨ (∃ user bookmarkId attach detach genId e,
       ctx_user ctx = Some user
       ∧ m = MUpdateTags bookmarkId attach detach genId
       ∧ call ctx m w
         = (Some e,
            mkWorld (setBookmarkTags (afterCreate user attach genId (db w))
                       (setTagsOnBookmarks
                          (afterDetach bookmarkId detach (db w)) (db w)))
                    (trace w ++ [EvBegin; EvCommit])))
  ∨ (∃ d' new,
       call ctx m w = (None, mkWorld d' (trace w ++ new))
       ∧ noAddInTx false new = true
       ∧ jobs new = jobsOf m
       ∧ (released new ≠ [] → ∃ bookmarkId, m = MDeleteBookmark bookmarkId)).
Proof.
  destruct m as [input|bookmarkId text|bookmarkId|bookmarkId|bookmarkId
                |bookmarkId attach detach genId]; simpl.
  - destruct (updateBookmark_cases ctx input w)
      as [[e ->]|(user & row & _ & _ & ->)]; [left; by eexists|].
    right; right. eexists _, _. by repeat split.
  - destruct (updateBookmarkText_cases ctx bookmarkId text w)
      as [[e ->]|(user & row & _ & _ & _ & _ & _ & ->)]; [left; by eexists|].
    right; right. eexists _, _. by repeat split.
  - destruct (deleteBookmark_cases ctx bookmarkId w)
      as [[e ->]|(user & row & _ & _ & _ & _ & ->)]; [left; by eexists|].
    right; right. eexists _, _. split; [done|].
    destruct (head _); simpl; repeat split; eauto.
  - destruct (recrawlBookmark_cases ctx bookmarkId w)
      as [[e ->]|(user & row & _ & _ & _ & _ & ->)]; [left; by eexists|].
    right; right. eexists _, _. by repeat split.
  - destruct (getBookmark_cases ctx bookmarkId w)
      as [[e ->]|(user & row & _ & _ & ->)]; [left; by eexists|].
    right; right. exists (db w), []. rewrite app_nil_r, world_eta.
    by repeat split.
  - destruct (updateTags_cases ctx bookmarkId attach detach genId w)
      as [[e ->]|(user & row & Hu & _ & _ & _ & ->)]; [left; by eexists|].
    rewrite updateTagsTransaction_run. destruct attach as [|a attach].
    { right; right. eexists _, _. by repeat split. }
    destruct (attachedIds _ _ _).
    + right; left. by eexists user, _, _, _, _, _.
    + right; right. eexists _, _. by repeat split.
Qed.

(** X3. A failing call of a gated procedure hands no job to any queue and
    releases no asset. It leaves the store as it was, with one exception: an
    updateTags whose attach fails behind the gate has by then removed the
    attachments listed in detach and created the tags that attach names
    without an id, and these changes stay. *)
Theorem call_failure ctx m w e :
  (call ctx m w).1 = Some e →
  (∃ new, trace (call ctx m w).2 = trace w ++ new
          ∧ jobs new = [] ∧ released new = [])
  ∧ (db (call ctx m w).2 = db w
     ∨ ∃ user bookmarkId attach detach genId,
         ctx_user ctx = Some user
         ∧ m = MUpdateTags bookmarkId attach detach genId
         ∧ db (call ctx m w).2
           = setBookmarkTags (afterCreate user attach genId (db w))
               (setTagsOnBookmarks (afterDetach bookmarkId detach (db w))
                                   (db w))).
Proof.
  intros He.
  destruct (call_cases ctx m w)
    as [[e' Hc]|[(user & bookmarkId & attach & detach & genId & e' & Hu & Hm
                  & Hc)|(d' & new & Hc & _)]]; rewrite Hc in *.
  - split; [|by left]. exists []. by rewrite app_nil_r.
  - split; [by eexists|]. right. by exists user, bookmarkId, attach, detach, genId.
  - done.
Qed.

Lemma call_failure_witness :
  let r := call Sample.alice
             (MUpdateTags "b1" [mkAttachItem (Some "t1") "paper"] ["t1"]
                          Sample.genId)
             Sample.world in
  r.1 = Some (DriverError "values() must be called with at least one value")
  ∧ (∃ new, trace r.2 = new ∧ jobs new = [] ∧ released new = [])
  ∧ tagsOnBookmarks Sample.store = [mkTagOnBookmark "b1" "t1" Ai]
  ∧ tagsOnBookmarks (db r.2) = [].
Proof.
  pose proof (call_failure Sample.alice
                (MUpdateTags "b1" [mkAttachItem (Some "t1") "paper"] ["t1"]
                             Sample.genId)
                Sample.world
                (DriverError "values() must be called with at least one value")
                eq_refl) as [Htrace _].
  split; [reflexivity|]. split; [exact Htrace|]. split; reflexivity.
Defined.

(** X4. A successful call of a gated procedure hands over exactly the jobs of
    its kind: one search_indexing job (index for updateBookmark and
    updateBookmarkText, delete for deleteBookmark), one crawl job for
    recrawlBookmark whatever the content of the bookmark, and none for
    getBookmark and updateTags; no job is handed over inside a transaction,
    and only deleteBookmark releases an asset. *)
Theorem call_jobs ctx m w :
  (call ctx m w).1 = None →
  ∃ new, trace (call ctx m w).2 = trace w ++ new
         ∧ noAddInTx false new = true
         ∧ jobs new = jobsOf m
         ∧ (released new ≠ [] → ∃ bookmarkId, m = MDeleteBookmark bookmarkId).
Proof.
  intros Hok.
  destruct (call_cases ctx m w)
    as [[e' Hc]|[(? & ? & ? & ? & ? & e' & _ & _ & Hc)
                |(d' & new & Hc & H1 & H2 & H3)]];
    rewrite Hc in *; [done|done|].
  by exists new.
Qed.

Lemma call_jobs_witness :
  ∃ new, trace (call Sample.alice (MRecrawlBookmark "b2") Sample.world).2 = new
         ∧ noAddInTx false new = true
         ∧ jobs new = [(LinkCrawlerQueue, "crawl", mkJob "b2" None)]
         ∧ (released new ≠ [] →
            ∃ bookmarkId, MRecrawlBookmark "b2" = MDeleteBookmark bookmarkId).
Proof.
  exact (call_jobs Sample.alice (MRecrawlBookmark "b2") Sample.world eq_refl).
Defined.

(** X5. No gated procedure changes the identity, the owner, the creation time
    or the tagging status of a bookmark: every bookmark of the store after a
    call was in the store before it with the same four fields. *)
Theorem call_immutable ctx m w b' :
  b' ∈ bookmarks (db (call ctx m w).2) →
  ∃ b, b ∈ bookmarks (db w)
       ∧ bk_id b = bk_id b' ∧ bk_userId b = bk_userId b'
       ∧ bk_createdAt b = bk_createdAt b'
       ∧ bk_taggingStatus b = bk_taggingStatus b'.
Proof.
  destruct m as [input|bookmarkId text|bookmarkId|bookmarkId|bookmarkId
                |bookmarkId attach detach genId]; simpl.
  - destruct (updateBookmark_cases ctx input w)
      as [[e ->]|(user & row & _ & _ & ->)]; simpl; [by exists b'|].
    intros Hb. apply list_elem_of_fmap in Hb as (b & -> & Hb).
    exists b. by case_decide.
  - destruct (updateBookmarkText_cases ctx bookmarkId text w)
      as [[e ->]|(user & row & _ & _ & _ & _ & _ & ->)]; simpl; by exists b'.
  - destruct (deleteBookmark_cases ctx bookmarkId w)
      as [[e ->]|(user & row & _ & _ & _ & _ & ->)]; simpl; [by exists b'|].
    intros [_ Hb]%list_elem_of_filter. by exists b'.
  - destruct (recrawlBookmark_cases ctx bookmarkId w)
      as [[e ->]|(user & row & _ & _ & _ & _ & ->)]; simpl; by exists b'.
  - destruct (getBookmark_cases ctx bookmarkId w)
      as [[e ->]|(user & row & _ & _ & ->)]; simpl; by exists b'.
  - destruct (updateTags_cases ctx bookmarkId attach detach genId w)
      as [[e ->]|(user & row & _ & _ & _ & _ & ->)]; simpl; [by exists b'|].
    rewrite updateTagsTransaction_run. destruct attach as [|a attach].
    { simpl. by exists b'. }
    destruct (attachedIds _ _ _); simpl; by exists b'.
Qed.

Lemma call_immutable_witness :
  ∃ b, b ∈ bookmarks Sample.store
       ∧ bk_id b = "b1" ∧ bk_userId b = "alice" ∧ bk_createdAt b = 10
       ∧ bk_taggingStatus b = Some TsSuccess.
Proof.
  refine (call_immutable Sample.alice
            (MUpdateBookmark (mkUpdateBookmarksRequest "b1" (Some true) None
                                                       (Some "read")))
            Sample.world
            (mkBookmark "b1" "alice" 10 true false (Some "read") (Some TsSuccess))
            _).
  by_decide.
Defined.

(** ** One tenant's calls and another tenant's bookmarks *)

(** What a bookmark looks like depends on the rows of its id only, and on the
    tags attached to it. *)
Lemma converted_ext d d' b :
  filter (λ l, bl_id l = bk_id b) (bookmarkLinks d')
  = filter (λ l, bl_id l = bk_id b) (bookmarkLinks d) →
  filter (λ t, bt_id t = bk_id b) (bookmarkTexts d')
  = filter (λ t, bt_id t = bk_id b) (bookmarkTexts d) →
  filter (λ a, ba_id a = bk_id b) (bookmarkAssets d')
  = filter (λ a, ba_id a = bk_id b) (bookmarkAssets d) →
  filter (λ t, tob_bookmarkId t = bk_id b) (tagsOnBookmarks d')
  = filter (λ t, tob_bookmarkId t = bk_id b) (tagsOnBookmarks d) →
  (∀ t, t ∈ tagsOnBookmarks d → tob_bookmarkId t = bk_id b →
        head (filter (λ g, tg_id g = tob_tagId t) (bookmarkTags d'))
        = head (filter (λ g, tg_id g = tob_tagId t) (bookmarkTags d))) →
  converted d' b = converted d b.
Proof.
  intros Hl Ht Ha Hto Htags. unfold converted, withRelations.
  rewrite Hl, Ht, Ha, Hto.
  assert (map (λ t, (t, head (filter (λ g, tg_id g = tob_tagId t)
                                     (bookmarkTags d'))))
              (filter (λ t, tob_bookmarkId t = bk_id b) (tagsOnBookmarks d))
          = map (λ t, (t, head (filter (λ g, tg_id g = tob_tagId t)
                                       (bookmarkTags d))))
                (filter (λ t, tob_bookmarkId t = bk_id b) (tagsOnBookmarks d)))
    as ->; [|done].
  apply map_ext_in. intros t Hin. apply list_elem_of_In in Hin.
  apply list_elem_of_filter in Hin as [Hb Hin]. f_equal. by apply Htags.
Qed.

Lemma filter_key_map {A} (key : A → Id) (g : A → A) (k k0 : Id) (l : list A) :
  (∀ x, key (g x) = key x) → k ≠ k0 →
  filter (λ x, key x = k)
         (map (λ x, if decide (key x = k0) then g x else x) l)
  = filter (λ x, key x = k) l.
Proof.
  intros Hg Hk. induction l as [|x l IH]; [done|]. simpl.
  rewrite !filter_cons. destruct (decide (key x = k0)) as [E|E].
  - rewrite (decide_False (P := key x = k)) by congruence.
    rewrite (decide_False (P := key (g x) = k)) by (rewrite Hg; congruence).
    done.
  - by rewrite IH.
Qed.

Lemma head_filter_app {A} (P : A → Prop) `{∀ x, Decision (P x)}
    (l1 l2 : list A) :
  Exists P l1 → head (filter P (l1 ++ l2)) = head (filter P l1).
Proof.
  intros He. rewrite filter_app. apply Exists_exists in He as (x & Hx & HP).
  assert (x ∈ filter P l1) as Hin by by apply list_elem_of_filter.
  destruct (filter P l1); [by apply elem_of_nil in Hin|done].
Qed.

(** X6. A call of a gated procedure by one user changes nothing about the
    bookmarks of the other users: each is still in the store, and looks the
    same through the public schema. *)
Theorem call_other_tenants ctx user m w b :
  ctx_user ctx = Some user →
  wellFormed (db w) →
  b ∈ bookmarks (db w) → bk_userId b ≠ user_id user →
  b ∈ bookmarks (db (call ctx m w).2)
  ∧ converted (db (call ctx m w).2) b = converted (db w) b.
Proof.
  intros Hu Hwf Hb Hother.
  pose proof Hwf as (W1 & W2 & W3 & W4 & W5 & W6 & W7 & W8 & W9 & W10 & W11).
  assert (Hne : ∀ user' row, ctx_user ctx = Some user' →
            row ∈ bookmarks (db w) → bk_userId row = user_id user' →
            bk_id b ≠ bk_id row).
  { intros user' row Hu' Hrow Ho E. rewrite Hu in Hu'. injection Hu' as <-.
    assert (Some b = Some row) as [= ->]; [|done].
    rewrite <- (findFirst_key bk_id _ b W1 Hb).
    rewrite <- (findFirst_key bk_id _ row W1 Hrow). by rewrite E. }
  destruct m as [input|bookmarkId text|bookmarkId|bookmarkId|bookmarkId
                |bookmarkId attach detach genId]; simpl.
  - destruct (updateBookmark_cases ctx input w)
      as [[e ->]|(user' & row & Hu' & _ & ->)]; simpl; [done|].
    rewrite Hu in Hu'. injection Hu' as <-. split; [|done].
    apply list_elem_of_fmap. exists b. split; [|done].
    rewrite decide_False; [done|]. by intros [? _].
  - destruct (updateBookmarkText_cases ctx bookmarkId text w)
      as [[e ->]|(user' & row & Hu' & Hrow & Hid & Ho & _ & ->)];
      simpl; [done|].
    split; [done|]. apply converted_ext; try done. simpl.
    apply (filter_key_map bt_id); [done|].
    rewrite <- Hid. by apply (Hne user').
  - destruct (deleteBookmark_cases ctx bookmarkId w)
      as [[e ->]|(user' & row & Hu' & Hrow & Hid & Ho & ->)]; simpl; [done|].
    assert (bk_id b ≠ bookmarkId) as Hk
      by (rewrite <- Hid; by apply (Hne user')).
    split.
    + apply list_elem_of_filter. split; [|done]. by intros [_ ?].
    + apply converted_ext; simpl; try done.
      all: apply filter_filter_impl; intros x Hx; congruence.
  - destruct (recrawlBookmark_cases ctx bookmarkId w)
      as [[e ->]|(user' & row & _ & _ & _ & _ & ->)]; done.
  - destruct (getBookmark_cases ctx bookmarkId w)
      as [[e ->]|(user' & row & _ & _ & ->)]; done.
  - destruct (updateTags_cases ctx bookmarkId attach detach genId w)
      as [[e ->]|(user' & row & Hu' & Hrow & Hid & Ho & ->)]; simpl; [done|].
    assert (bk_id b ≠ bookmarkId) as Hk
      by (rewrite <- Hid; by apply (Hne user')).
    assert (∀ r : Result () * World, (failure r).2 = r.2) as ->
      by (by intros [[?|?] ?]).
    rewrite updateTagsTransaction_run.
    assert (Hdet : filter (λ t, tob_bookmarkId t = bk_id b)
                          (afterDetach bookmarkId detach (db w))
                   = filter (λ t, tob_bookmarkId t = bk_id b)
                            (tagsOnBookmarks (db w))).
    { unfold afterDetach. apply filter_filter_impl. intros x Hx [Hx' _].
      congruence. }
    destruct attach as [|a attach].
    { simpl. split; [done|]. by apply converted_ext. }
    set (attach' := a :: attach) in *.
    destruct (insertTagRows_app genId 0
                (map (λ i, (at_tag i, user_id user'))
                     (filter (λ i, at_tagId i = None) attach'))
                (bookmarkTags (db w))) as (extra & Hcre & _).
    fold (afterCreate user' attach' genId (db w)) in Hcre.
    assert (Htags : ∀ t, t ∈ tagsOnBookmarks (db w) →
              head (filter (λ g, tg_id g = tob_tagId t)
                           (afterCreate user' attach' genId (db w)))
              = head (filter (λ g, tg_id g = tob_tagId t)
                             (bookmarkTags (db w)))).
    { intros t Ht. rewrite Hcre.
      apply head_filter_app. rewrite Forall_forall in W11.
      destruct (W11 t Ht) as [_ Hin].
      apply list_elem_of_fmap in Hin as (g & Hg & Hgin).
      apply Exists_exists. by exists g. }
    destruct (attachedIds user' attach' (afterCreate user' attach' genId (db w)))
      as [|i ids] eqn:Eids.
    { cbn [snd db]. split; [done|]. apply converted_ext; try done.
      intros t Ht _. by apply Htags. }
    clear Eids i ids.
    cbn [snd db]. split; [done|].
    apply converted_ext; try done.
    + rewrite (proj2 (tags_of_result _ _ _)). unfold afterAttach.
      destruct (insertAttachmentRows_app
                  (map (λ i, mkTagOnBookmark bookmarkId i Human)
                       (attachedIds user' attach'
                          (afterCreate user' attach' genId (db w))))
                  (afterDetach bookmarkId detach (db w)))
        as (extra' & -> & Hextra').
      rewrite filter_app, Hdet, (filter_none _ extra'); [by rewrite app_nil_r|].
      intros x Hx Hxb. destruct (Hextra' x Hx) as [Hin _].
      apply list_elem_of_fmap in Hin as (i & -> & _). simpl in Hxb. congruence.
    + intros t Ht Htb. rewrite (proj1 (tags_of_result _ _ _)).
      by apply Htags.
Qed.

Lemma call_other_tenants_witness :
  let b3 := mkBookmark "b3" "bob" 30 false false None (Some TsPending) in
  let d' := db (call Sample.alice (MDeleteBookmark "b1") Sample.world).2 in
  b3 ∈ bookmarks d' ∧ converted d' b3 = converted Sample.store b3.
Proof.
  refine (call_other_tenants Sample.alice (mkUser "alice") (MDeleteBookmark "b1")
            Sample.world
            (mkBookmark "b3" "bob" 30 false false None (Some TsPending))
            eq_refl _ _ _); by_decide.
Defined.

(** ** Writing, then reading *)

Lemma getBookmark_owner ctx user w row :
  ctx_user ctx = Some user → bookmarksKey (db w) →
  row ∈ bookmarks (db w) → bk_userId row = user_id user →
  getBookmark ctx (bk_id row) w = (Ok (converted (db w) row), w).
Proof.
  intros Hu Hk Hrow Ho. unfold getBookmark.
  rewrite (authedProcedure_user _ user) by done.
  rewrite (ensureBookmarkOwnership_pass _ user _ _ _ row) by done.
  run_M. rewrite <- Ho. by rewrite findFirst_owned.
Qed.

Lemma filter_fresh {A} (f : A → Id) (ids : list Id) (k : Id) (rows : list A) :
  Forall (λ x, f x ∈ ids) rows → k ∉ ids → filter (λ x, f x = k) rows = [].
Proof.
  intros Hall Hk. apply filter_none. intros x Hx E.
  rewrite Forall_forall in Hall. apply Hk. rewrite <- E. by apply Hall.
Qed.

(** X7. On a store that keeps its integrity, the bookmark createBookmark
    returns is the bookmark a getBookmark of the new id by the same caller
    returns right after. *)
Theorem createBookmark_then_getBookmark ctx input newId now w b w' :
  wellFormed (db w) →
  createBookmark ctx input newId now w = (Ok b, w') →
  getBookmark ctx newId w' = (Ok b, w').
Proof.
  intros Hwf Hcreate.
  destruct (createBookmark_cases ctx input newId now w)
    as [[_ Hc]|[(user & e & d' & _ & Hc & _)
               |(user & b0 & d' & job & Hu & Hc & Hrun & _)]];
    rewrite Hc in Hcreate; [done|done|].
  injection Hcreate as -> <-.
  pose proof (createBookmarkTx_wellFormed user input newId now
                (mkWorld (db w) (trace w ++ [EvBegin; EvCommit])) Hwf) as Hwf'.
  pose proof (createBookmarkTx_fresh _ _ _ _ _ _ _ Hrun) as [Hfresh _].
  pose proof (createBookmarkTx_spec user input newId now
                (mkWorld (db w) (trace w ++ [EvBegin; EvCommit]))) as Htx.
  rewrite Hrun in Htx, Hwf'. simpl in Htx, Hwf', Hfresh.
  destruct Htx as (_ & Hrest & Htags0 & Hbk & _ & Htobs & _ & Hin).
  destruct Hwf as (_ & _ & _ & _ & _ & _ & _ & W8 & W9 & W10 & W11).
  assert (Hid : bk_id (zb_rest b) = newId) by by rewrite Hrest.
  rewrite <- Hid at 1.
  rewrite (getBookmark_owner _ user); simpl.
  2: done.
  2: by destruct Hwf'.
  2: { rewrite Hbk. apply elem_of_app. right. left. }
  2: by rewrite Hrest.
  f_equal. f_equal. unfold converted, toZodSchema, withRelations. simpl.
  rewrite Htobs, Hid.
  rewrite (filter_fresh tob_bookmarkId (map bk_id (bookmarks (db w))));
    [|by eapply Forall_impl; [exact W11|]; simpl; intros ? [? _]|done].
  simpl. destruct b as [tags content rest]. simpl in *. subst tags.
  f_equal. destruct input.
  - destruct Hin as (l & -> & Hl & _ & -> & _).
    rewrite filter_app, (filter_fresh bl_id _ _ _ W8 Hfresh). simpl.
    rewrite filter_cons, decide_True by done. done.
  - destruct Hin as (-> & -> & -> & _).
    rewrite (filter_fresh bl_id _ _ _ W8 Hfresh). simpl.
    rewrite filter_app, (filter_fresh bt_id _ _ _ W9 Hfresh). simpl.
    rewrite filter_cons, decide_True by done. done.
  - destruct Hin as (-> & -> & -> & ->).
    rewrite (filter_fresh bl_id _ _ _ W8 Hfresh). simpl.
    rewrite (filter_fresh bt_id _ _ _ W9 Hfresh). simpl.
    rewrite filter_app, (filter_fresh ba_id _ _ _ W10 Hfresh). simpl.
    rewrite filter_cons, decide_True by done. done.
  - done.
Qed.

Lemma createBookmark_then_getBookmark_witness :
  let w' := (createBookmark Sample.alice (NewText "buy milk") "b5" 50
               Sample.world).2 in
  getBookmark Sample.alice "b5" w'
  = (Ok (mkZBookmark [] (ContentText "buy milk")
           (mkBookmark "b5" "alice" 50 false false None (Some TsPending))), w').
Proof.
  refine (createBookmark_then_getBookmark Sample.alice (NewText "buy milk")
            "b5" 50 Sample.world _ _ _ eq_refl).
  by_decide.
Defined.

(** X8. What updateBookmark returns is what is stored: a getBookmark by the
    same caller right after shows the returned row, the columns that were
    set changed and the others as they were, with the content and the tags
    the bookmark had. *)
Theorem updateBookmark_then_getBookmark ctx input w r w' :
  bookmarksKey (db w) →
  updateBookmark ctx input w = (Ok r, w') →
  ∃ row, row ∈ bookmarks (db w)
         ∧ bk_id row = ub_bookmarkId input
         ∧ r = setColumns input row
         ∧ getBookmark ctx (ub_bookmarkId input) w'
           = (Ok (mkZBookmark (zb_tags (converted (db w) row))
                              (zb_content (converted (db w) row)) r), w').
Proof.
  intros Hk Hup.
  destruct (updateBookmark_cases ctx input w)
    as [[e Hc]|(user & row & Hu & Hrow & Hc)]; rewrite Hc in Hup; [done|].
  injection Hup as <- <-.
  apply elem_of_head_filter in Hrow as [Hrow [Ho Hid]].
  exists row. repeat split; try done.
  set (d' := setBookmarks _ (db w)).
  assert (Hids : map bk_id (bookmarks d') = map bk_id (bookmarks (db w))).
  { subst d'. simpl. apply map_key_alter. intros b. by case_decide. }
  assert (Hin : setColumns input row ∈ bookmarks d').
  { subst d'. simpl. apply list_elem_of_fmap. exists row. split; [|done].
    by rewrite decide_True. }
  rewrite <- Hid.
  change (bk_id row) with (bk_id (setColumns input row)).
  rewrite (getBookmark_owner _ user); [done|done| |done|done].
  unfold bookmarksKey. cbn [db]. by rewrite Hids.
Qed.

Lemma updateBookmark_then_getBookmark_witness :
  let input := mkUpdateBookmarksRequest "b1" None (Some true) None in
  let w' := (updateBookmark Sample.alice input Sample.world).2 in
  ∃ row, row ∈ bookmarks Sample.store
         ∧ bk_id row = "b1"
         ∧ mkBookmark "b1" "alice" 10 false true None (Some TsSuccess)
           = setColumns input row
         ∧ getBookmark Sample.alice "b1" w'
           = (Ok (mkZBookmark
                    (zb_tags (converted Sample.store row))
                    (zb_content (converted Sample.store row))
                    (mkBookmark "b1" "alice" 10 false true None
                                (Some TsSuccess))), w').
Proof.
  refine (updateBookmark_then_getBookmark Sample.alice
            (mkUpdateBookmarksRequest "b1" None (Some true) None)
            Sample.world _ _ _ eq_refl).
  by_decide.
Defined.

(** X9. updateBookmarkText takes a text of at most 2000 code units and works
    on text bookmarks only. A longer text is refused with BAD_REQUEST and
    changes nothing. With a text that passes, on a bookmark of the caller
    that has no text row the call fails with NOT_FOUND and changes nothing;
    when it succeeds, a getBookmark right after shows the new text (for a
    bookmark without a link row). *)
Theorem updateBookmarkText_then_getBookmark ctx user bookmarkId text w row :
  ctx_user ctx = Some user → wellFormed (db w) →
  row ∈ bookmarks (db w) → bk_id row = bookmarkId →
  bk_userId row = user_id user →
  let r := updateBookmarkText ctx bookmarkId text w in
  (2000 < Z.of_nat (String.length text) →
   ∃ msg, r = (Err (TRPCError BAD_REQUEST msg), w))
  ∧ (Z.of_nat (String.length text) ≤ 2000 →
     (filter (λ t, bt_id t = bookmarkId) (bookmarkTexts (db w)) = [] →
      r = (Err (TRPCError NOT_FOUND (Some "Bookmark not found")), w))
     ∧ (filter (λ t, bt_id t = bookmarkId) (bookmarkTexts (db w)) ≠ [] →
        r.1 = Ok ()
        ∧ ∃ z, getBookmark ctx bookmarkId r.2 = (Ok z, r.2)
               ∧ zb_rest z = row
               ∧ zb_tags z = zb_tags (converted (db w) row)
               ∧ (filter (λ l, bl_id l = bookmarkId) (bookmarkLinks (db w)) = []
                  → zb_content z = ContentText text))).
Proof.
  intros Hu Hwf Hrow Hid Ho r. subst r bookmarkId.
  pose proof Hwf as (W1 & _).
  unfold updateBookmarkText.
  rewrite (authedProcedure_user _ user) by done. split.
  { intros Hlong. exists None. by rewrite decide_True. }
  intros Hlen. rewrite decide_False by lia.
  rewrite (ensureBookmarkOwnership_pass _ user _ _ _ row) by done.
  run_M. split.
  - intros Hf. rewrite Hf. simpl. rewrite map_id_when by done.
    unfold setBookmarkTexts. by rewrite db_eta, world_eta.
  - intros Hf.
    destruct (filter _ (bookmarkTexts (db w))) as [|t ts] eqn:Ef; [done|].
    simpl. split; [done|].
    set (d' := setBookmarkTexts _ (db w)).
    eexists.
    rewrite (getBookmark_owner _ user); [|done|done|done|done].
    split; [done|]. split; [done|]. split; [done|].
    intros Hl. unfold converted, toZodSchema, withRelations. simpl.
    rewrite Hl. simpl.
    assert (Hmap : ∀ l, filter (λ x, bt_id x = bk_id row)
                          (map (λ x, if decide (bt_id x = bk_id row)
                                     then mkBookmarkText (bt_id x) (Some text)
                                     else x) l)
                        = map (λ x, mkBookmarkText (bt_id x) (Some text))
                              (filter (λ x, bt_id x = bk_id row) l)).
    { induction l as [|x l IH]; [done|]. simpl. rewrite !filter_cons.
      destruct (decide (bt_id x = bk_id row)) as [E|E]; simpl.
      - rewrite decide_True by done. simpl. by rewrite IH.
      - rewrite decide_False by done. by rewrite IH. }
    rewrite Hmap, Ef. done.
Qed.

Lemma updateBookmarkText_then_getBookmark_witness :
  let r := updateBookmarkText Sample.bob "b3" "buy oat milk" Sample.world in
  r.1 = Ok ()
  ∧ ∃ z, getBookmark Sample.bob "b3" r.2 = (Ok z, r.2)
         ∧ zb_content z = ContentText "buy oat milk".
Proof.
  intros r.
  destruct (proj2 (proj2 (updateBookmarkText_then_getBookmark Sample.bob
                            (mkUser "bob") "b3" "buy oat milk" Sample.world
                            (mkBookmark "b3" "bob" 30 false false None
                                        (Some TsPending))
                            eq_refl ltac:(by_decide) ltac:(by_decide)
                            eq_refl eq_refl)
                         ltac:(by_decide))
                  ltac:(by_decide))
    as (Hok & z & Hget & _ & _ & Hcontent).
  split; [exact Hok|]. exists z. split; [exact Hget|].
  apply Hcontent. reflexivity.
Defined.

(** A call on an id that no bookmark has: refused by the parser, or not
    found. *)
Lemma call_not_found ctx user m w :
  ctx_user ctx = Some user →
  target m ∉ map bk_id (bookmarks (db w)) →
  call ctx m w
  = (Some (if decide (parses m)
           then TRPCError NOT_FOUND (Some "Bookmark not found")
           else TRPCError BAD_REQUEST None), w).
Proof.
  intros Hu Hid. destruct m; simpl in *;
    unfold updateBookmark, updateBookmarkText, deleteBookmark,
      recrawlBookmark, getBookmark, updateTags;
    rewrite (authedProcedure_user _ user) by done;
    try by rewrite (ensureBookmarkOwnership_not_found _ user).
  destruct (decide (Z.of_nat (String.length text) ≤ 2000)).
  - rewrite decide_False by lia.
    by rewrite (ensureBookmarkOwnership_not_found _ user).
  - by rewrite decide_True by lia.
Qed.

(** X10. A successful deleteBookmark removes the bookmark for good and
    nothing else: any gated call on the id by any caller fails afterwards and
    changes nothing, with NOT_FOUND when its input passes the parser; and
    every other bookmark is still in the store and looks as it did. *)
Theorem deleteBookmark_then ctx bookmarkId w w' :
  wellFormed (db w) →
  deleteBookmark ctx bookmarkId w = (Ok (), w') →
  (∀ ctx' user' m, ctx_user ctx' = Some user' → target m = bookmarkId →
     ∃ e, call ctx' m w' = (Some e, w')
          ∧ (parses m → e = TRPCError NOT_FOUND (Some "Bookmark not found")))
  ∧ (∀ b, b ∈ bookmarks (db w) → bk_id b ≠ bookmarkId →
          b ∈ bookmarks (db w') ∧ converted (db w') b = converted (db w) b).
Proof.
  intros Hwf Hdel. pose proof Hwf as (W1 & _).
  destruct (deleteBookmark_cases ctx bookmarkId w)
    as [[e Hc]|(user & row & Hu & Hrow & Hid & Ho & Hc)];
    rewrite Hc in Hdel; [done|].
  injection Hdel as <-. split.
  - intros ctx' user' m Hu' Ht. eexists. split.
    + apply (call_not_found _ user'); [done|].
      rewrite Ht. simpl. intros Hin.
      apply list_elem_of_fmap in Hin as (b & E & Hb).
      apply list_elem_of_filter in Hb as [Hn Hb]. apply Hn. split; [|done].
      assert (Some b = Some row) as [= ->]; [|done].
      rewrite <- (findFirst_key bk_id _ b W1 Hb).
      rewrite <- (findFirst_key bk_id _ row W1 Hrow). by rewrite <- E, Hid.
    + intros Hp. by rewrite decide_True.
  - intros b Hb Hk. simpl. split.
    + apply list_elem_of_filter. split; [|done]. by intros [_ ?].
    + apply converted_ext; simpl; try done.
      all: apply filter_filter_impl; intros x Hx; congruence.
Qed.

Lemma deleteBookmark_then_witness :
  let w' := (deleteBookmark Sample.alice "b2" Sample.world).2 in
  ∃ e, call Sample.alice (MGetBookmark "b2") w' = (Some e, w')
       ∧ e = TRPCError NOT_FOUND (Some "Bookmark not found").
Proof.
  destruct (proj1 (deleteBookmark_then Sample.alice "b2" Sample.world _
                     ltac:(by_decide) eq_refl)
                  Sample.alice (mkUser "alice") (MGetBookmark "b2")
                  eq_refl eq_refl) as (e & Hcall & He).
  exists e. split; [exact Hcall|]. apply He. exact I.
Defined.

(** ** getBookmarks and getBookmark agree *)

Lemma alterKey_snoc {V} (f : V → V) (k : string) (pre : list (string * V)) z :
  k ∉ map fst pre → alterKey f k (pre ++ [(k, z)]) = pre ++ [(k, f z)].
Proof.
  intros Hk. unfold alterKey. rewrite map_app. simpl.
  rewrite decide_True by done. f_equal.
  induction pre as [|[k' v] pre IH]; [done|]. simpl.
  rewrite decide_False.
  - f_equal. apply IH. intros Hin. apply Hk. simpl. by right.
  - simpl. intros ->. apply Hk. simpl. left.
Qed.

Lemma reduceRow_seen pre z r w :
  bk_id (row_bookmarksSq r) ∉ map fst pre →
  (row_tagsOnBookmarks r = None → row_bookmarkTags r = None) →
  reduceRow (pre ++ [(bk_id (row_bookmarksSq r), z)]) r w
  = (Ok (pre ++ [(bk_id (row_bookmarksSq r),
                  mkZBookmark (zb_tags z ++ option_list (rowTag r))
                              (zb_content z) (zb_rest z))]), w).
Proof.
  intros Hk Hinv. unfold reduceRow.
  assert (Hhas : hasKey (pre ++ [(bk_id (row_bookmarksSq r), z)])
                        (bk_id (row_bookmarksSq r))).
  { unfold hasKey. rewrite map_app. apply elem_of_app. right. left. }
  rewrite decide_True by by left.
  unfold rowTag.
  destruct (row_bookmarkTags r) as [g|].
  - destruct (row_tagsOnBookmarks r) as [t|]; [|by specialize (Hinv eq_refl)].
    rewrite decide_True by done. run_M. by rewrite alterKey_snoc.
  - run_M. rewrite app_nil_r. by destruct z.
Qed.

Lemma reduce_seen_exact b rows pre z w :
  (∀ r, r ∈ rows → row_bookmarksSq r = b
                   ∧ (row_tagsOnBookmarks r = None → row_bookmarkTags r = None)) →
  bk_id b ∉ map fst pre →
  reduce reduceRow rows (pre ++ [(bk_id b, z)]) w
  = (Ok (pre ++ [(bk_id b,
                  mkZBookmark (zb_tags z ++ omap rowTag rows)
                              (zb_content z) (zb_rest z))]), w).
Proof.
  revert z. induction rows as [|r rows IH]; intros z Hrows Hk.
  - simpl. run_M. rewrite app_nil_r. by destruct z.
  - destruct (Hrows r) as [Hr Hinv]; [left|].
    simpl. unfold mbind, M_bind. rewrite <- Hr at 1.
    rewrite reduceRow_seen; [|by rewrite Hr|done]. rewrite Hr.
    rewrite IH; [|intros r' Hr'; apply Hrows; by right|done].
    simpl. rewrite <- app_assoc. do 4 f_equal.
    by destruct (rowTag r).
Qed.

Lemma reduceRow_first acc r w :
  ¬ inherited (bk_id (row_bookmarksSq r)) →
  bk_id (row_bookmarksSq r) ∉ map fst acc →
  (row_tagsOnBookmarks r = None → row_bookmarkTags r = None) →
  reduceRow acc r w
  = (Ok (acc ++ [(bk_id (row_bookmarksSq r),
                  mkZBookmark (option_list (rowTag r)) (rowContent r)
                              (row_bookmarksSq r))]), w).
Proof.
  intros Hown Hk Hinv. unfold reduceRow.
  rewrite decide_False by (unfold hasKey; tauto).
  fold (rowContent r). unfold rowTag.
  destruct (row_bookmarkTags r) as [g|].
  - destruct (row_tagsOnBookmarks r) as [t|]; [|by specialize (Hinv eq_refl)].
    rewrite decide_True.
    2: { unfold hasKey. rewrite map_app. apply elem_of_app. right. left. }
    run_M. by rewrite alterKey_snoc.
  - by run_M.
Qed.

(** All the rows of one bookmark, met for the first time, add one entry: the
    content of the first row and the tags of all of them. *)
Lemma reduce_rows_exact b r rows acc w :
  ¬ inherited (bk_id b) →
  (∀ r', r' ∈ r :: rows →
         row_bookmarksSq r' = b
         ∧ (row_tagsOnBookmarks r' = None → row_bookmarkTags r' = None)) →
  bk_id b ∉ map fst acc →
  reduce reduceRow (r :: rows) acc w
  = (Ok (acc ++ [(bk_id b,
                  mkZBookmark (omap rowTag (r :: rows)) (rowContent r) b)]), w).
Proof.
  intros Hown Hrows Hk. destruct (Hrows r) as [Hr Hinv]; [left|].
  simpl. unfold mbind, M_bind.
  rewrite reduceRow_first; [|by rewrite Hr|by rewrite Hr|done]. rewrite Hr.
  rewrite (reduce_seen_exact b); [|intros r' Hr'; apply Hrows; by right|done].
  simpl. do 4 f_equal. by destruct (rowTag r).
Qed.

Lemma filter_key_unique {A} (f : A → Id) (k : Id) (l : list A) :
  NoDup (map f l) →
  filter (λ x, f x = k) l = option_list (head (filter (λ x, f x = k) l)).
Proof.
  induction l as [|a l IH]; intros Hnd; [done|].
  simpl in Hnd. apply NoDup_cons in Hnd as [Ha Hnd].
  rewrite filter_cons. destruct (decide (f a = k)) as [E|E]; [|by apply IH].
  simpl. f_equal. apply filter_none. intros y Hy Ey. apply Ha.
  rewrite E, <- Ey. by apply (list_elem_of_fmap_2 f).
Qed.

Lemma leftJoin_unique {A} (f : A → Id) (k : Id) (l : list A) :
  NoDup (map f l) →
  leftJoin (filter (λ x, f x = k) l) = [head (filter (λ x, f x = k) l)].
Proof.
  intros Hnd. rewrite (filter_key_unique f k l Hnd).
  by destruct (head (filter (λ x, f x = k) l)).
Qed.

Lemma omap_bind {A B C} (f : B → option C) (k : A → list B) (l : list A) :
  omap f (l ≫= k) = l ≫= (λ x, omap f (k x)).
Proof.
  induction l as [|x l IH]; [done|]. by rewrite !bind_cons, omap_app, IH.
Qed.

Lemma bind_singletons {A B} (h : A → B) (l : list A) :
  l ≫= (λ x, [h x]) = map h l.
Proof. induction l as [|x l IH]; [done|]. rewrite bind_cons, IH. done. Qed.

Lemma bind_ext_in {A B} (f g : A → list B) (l : list A) :
  (∀ x, x ∈ l → f x = g x) → l ≫= f = l ≫= g.
Proof.
  induction l as [|x l IH]; intros H; [done|].
  rewrite !bind_cons, (H x) by left. f_equal. apply IH.
  intros y Hy. apply H. by right.
Qed.

(** On a store that keeps its integrity the joined rows of a bookmark all
    carry the content rows the relational query loads, and their tags are
    the attachments of the bookmark, each with its tag. *)
Lemma rowsFor_wellFormed d b :
  wellFormed d →
  (∀ r, r ∈ rowsFor d b → rowContent r = zb_content (converted d b))
  ∧ omap rowTag (rowsFor d b) = zb_tags (converted d b).
Proof.
  intros (W1 & W2 & W3 & W4 & W5 & W6 & W7 & W8 & W9 & W10 & W11).
  unfold rowsFor.
  rewrite (leftJoin_unique bl_id _ _ W2), (leftJoin_unique bt_id _ _ W3),
    (leftJoin_unique ba_id _ _ W4).
  split.
  - intros r H.
    apply list_elem_of_bind in H as (t & H & _).
    apply list_elem_of_bind in H as (g & H & _).
    rewrite !bind_singleton in H.
    by apply list_elem_of_singleton in H as ->.
  - rewrite omap_bind. unfold converted, toZodSchema, withRelations. simpl.
    set (T := filter (λ t, tob_bookmarkId t = bk_id b) (tagsOnBookmarks d)).
    assert (HT : ∀ t, t ∈ T → t ∈ tagsOnBookmarks d)
      by (intros t [_ ?]%list_elem_of_filter; done).
    clearbody T. destruct T as [|t0 T]; [done|].
    change (leftJoin (t0 :: T)) with (Some <$> (t0 :: T)).
    rewrite list_fmap_bind, map_map.
    rewrite <- (bind_singletons _ (t0 :: T)).
    apply bind_ext_in. intros t Ht. simpl.
    rewrite (list_filter_iff _ (λ g, tg_id g = tob_tagId t)) by (intros; split; done).
    rewrite (leftJoin_unique tg_id _ _ W5).
    rewrite Forall_forall in W11. destruct (W11 t (HT t Ht)) as [_ Hin].
    apply list_elem_of_fmap in Hin as (g & Hg & Hgin).
    assert (g ∈ filter (λ g, tg_id g = tob_tagId t) (bookmarkTags d)) as Hf
      by by apply list_elem_of_filter.
    destruct (filter (λ g, tg_id g = tob_tagId t) (bookmarkTags d)) as [|g0 gs];
      [by apply elem_of_nil in Hf|].
    done.
Qed.

Lemma reduce_joinRows_exact d sq acc w :
  wellFormed d →
  Forall (λ b, ¬ inherited (bk_id b)) sq →
  NoDup (map fst acc ++ map bk_id sq) →
  reduce reduceRow (joinRows d sq) acc w
  = (Ok (acc ++ map (λ b, (bk_id b, converted d b)) sq), w).
Proof.
  intros Hwf. rewrite joinRows_bind. revert acc.
  induction sq as [|b sq IH]; intros acc Hown Hnd.
  - simpl. run_M. by rewrite app_nil_r.
  - apply Forall_cons in Hown as [Hownb Hown].
    rewrite bind_cons, reduce_app.
    assert (Hb : bk_id b ∉ map fst acc).
    { apply NoDup_app in Hnd as (_ & Hd & _). intros Hin.
      apply (Hd _ Hin). simpl. left. }
    pose proof (rowsFor_nonempty d b) as Hne.
    pose proof (rowsFor_row d b) as Hrows.
    destruct (rowsFor_wellFormed d b Hwf) as [Hcontent Htags].
    destruct (rowsFor d b) as [|r rows]; [done|].
    rewrite (reduce_rows_exact b) by done.
    rewrite Htags, (Hcontent r) by left.
    assert (mkZBookmark (zb_tags (converted d b)) (zb_content (converted d b)) b
            = converted d b) as -> by done.
    rewrite IH.
    + simpl. by rewrite <- app_assoc.
    + done.
    + rewrite map_app. simpl. rewrite <- app_assoc. simpl.
      simpl in Hnd. apply NoDup_app in Hnd as (Hn1 & Hn2 & Hn3).
      apply NoDup_cons in Hn3 as [Hn3 Hn4].
      apply NoDup_app. split; [done|]. split.
      * intros x Hx [->|Hin]%elem_of_cons; [done|].
        apply (Hn2 x Hx). by right.
      * by constructor.
Qed.

Lemma getBookmarks_exact DEFAULT ctx user input w :
  ctx_user ctx = Some user → wellFormed (db w) → plainIds (db w) →
  ownIds (db w) →
  let n := effectiveLimit DEFAULT input in
  let all := matching (db w) user input in
  ∃ r, getBookmarks DEFAULT ctx input w = (Ok r, w)
       ∧ r_bookmarks r = map (converted (db w)) (take n all).
Proof.
  intros Hu Hwf Hplain Hown n all. pose proof Hwf as (Hk & _).
  unfold getBookmarks. rewrite (authedProcedure_user _ user) by done.
  case_decide as Hids.
  { eexists. split; [done|]. simpl.
    assert (all = []) as ->; [|by rewrite take_nil].
    subst all. unfold matching.
    rewrite (filter_none _ (bookmarks (db w))); [done|].
    intros b _ (_ & _ & _ & Hin & _). rewrite Hids in Hin. simpl in Hin.
    by apply elem_of_nil in Hin. }
  run_M. fold n. fold (matching (db w) user input). fold all.
  set (sq := take (n + 1) all).
  assert (Hsq : newestFirst sq) by apply newestFirst_take, matching_sorted.
  rewrite (orderByDesc_id _ (joinRows (db w) sq)) by by apply joinRows_sorted.
  assert (Hnd : NoDup (map fst ([] : list (string * ZBookmark))
                       ++ map bk_id sq)).
  { simpl. change (NoDup (bk_id <$> sq)).
    apply (sublist_NoDup _ (bk_id <$> all)); [by apply matching_NoDup|].
    apply fmap_sublist, sublist_take. }
  assert (Hownsq : Forall (λ b, ¬ inherited (bk_id b)) sq).
  { apply Forall_forall. intros b Hb.
    apply (elem_of_sublist _ all) in Hb; [|apply sublist_take].
    apply matching_elem in Hb as [_ Hb].
    unfold ownIds in Hown. rewrite Forall_forall in Hown. by apply Hown. }
  rewrite (reduce_joinRows_exact _ _ _ _ Hwf Hownsq Hnd). simpl.
  rewrite objectValues_plain.
  2: { apply Forall_forall. intros kv Hkv.
       apply list_elem_of_fmap in Hkv as (b & -> & Hb). simpl.
       apply (elem_of_sublist _ all) in Hb; [|apply sublist_take].
       apply matching_elem in Hb as [_ Hb].
       unfold plainIds in Hplain. rewrite Forall_forall in Hplain.
       by apply Hplain. }
  rewrite map_map. simpl.
  change (map (λ x, converted (db w) x) sq) with (map (converted (db w)) sq).
  rewrite length_map.
  assert (Hsqlen : length sq = Nat.min (n + 1) (length all))
    by (subst sq; apply length_take).
  case_decide as Hlt.
  - eexists. split; [done|]. simpl.
    assert (length sq - 1 = n)%nat as -> by lia.
    change (take n (converted (db w) <$> sq) = converted (db w) <$> take n all).
    rewrite <- fmap_take. subst sq. rewrite take_take. do 2 f_equal. lia.
  - eexists. split; [done|]. simpl. subst sq. by rewrite !take_ge by lia.
Qed.

(** X11. On a store that keeps its integrity, whose ids are neither numerals
    nor names of members of Object.prototype, getBookmarks shows each
    bookmark of its page exactly as getBookmark shows it: the same row,
    content and tags. *)
Theorem getBookmarks_as_getBookmark DEFAULT ctx user input w :
  ctx_user ctx = Some user → wellFormed (db w) → plainIds (db w) →
  ownIds (db w) →
  ∃ r, getBookmarks DEFAULT ctx input w = (Ok r, w)
       ∧ Forall (λ z, getBookmark ctx (bk_id (zb_rest z)) w = (Ok z, w))
                (r_bookmarks r).
Proof.
  intros Hu Hwf Hplain Hown.
  destruct (getBookmarks_exact DEFAULT ctx user input w Hu Hwf Hplain Hown)
    as (r & Hrun & Hpage).
  exists r. split; [done|]. rewrite Hpage. apply Forall_forall.
  intros z Hz. apply list_elem_of_fmap in Hz as (b & -> & Hb).
  apply (elem_of_sublist _ (matching (db w) user input)) in Hb;
    [|apply sublist_take].
  apply matching_elem in Hb as [(Ho & _) Hb].
  apply (getBookmark_owner _ user); try done. by destruct Hwf.
Qed.

Lemma getBookmarks_as_getBookmark_witness :
  ∃ r, getBookmarks 20 Sample.alice
         (mkGetBookmarksRequest None None None None None None None) Sample.world
       = (Ok r, Sample.world)
       ∧ Forall (λ z, getBookmark Sample.alice (bk_id (zb_rest z)) Sample.world
                      = (Ok z, Sample.world))
                (r_bookmarks r).
Proof.
  refine (getBookmarks_as_getBookmark 20 Sample.alice (mkUser "alice")
            (mkGetBookmarksRequest None None None None None None None)
            Sample.world eq_refl _ _ _); by_decide.
Defined.

(** ** getBookmarks on any store *)

(** The reduce on any rows that keep the invariant of the join: it fails only
    on a row whose bookmark id names a member of Object.prototype, and what
    it has gathered comes from the rows. *)
Lemma reduce_Forall (Q : Bookmark → Prop) rows acc w :
  Forall (λ r, (row_tagsOnBookmarks r = None → row_bookmarkTags r = None)
               ∧ Q (row_bookmarksSq r)) rows →
  Forall (λ kv : string * ZBookmark, Q (zb_rest kv.2)) acc →
  match reduce reduceRow rows acc w with
  | (Ok acc', w') =>
    w' = w ∧ Forall (λ kv : string * ZBookmark, Q (zb_rest kv.2)) acc'
  | (Err e, w') =>
    w' = w ∧ Exists (λ r, inherited (bk_id (row_bookmarksSq r))) rows
  end.
Proof.
  intros Hrows. revert acc. induction Hrows as [|r rows [Hinv Hq] _ IH];
    intros acc Hacc.
  - done.
  - simpl. unfold mbind, M_bind. unfold reduceRow at 1.
    set (acc1 := if decide (hasKey acc (bk_id (row_bookmarksSq r))
                            ∨ inherited (bk_id (row_bookmarksSq r))) then acc
                 else acc ++ _).
    assert (Hacc1 : Forall (λ kv : string * ZBookmark, Q (zb_rest kv.2)) acc1
                    ∧ (¬ hasKey acc1 (bk_id (row_bookmarksSq r)) →
                       inherited (bk_id (row_bookmarksSq r)))).
    { subst acc1. destruct (decide (hasKey acc _ ∨ _)) as [[H|H]|H].
      - done.
      - done.
      - split.
        + apply Forall_app. split; [done|]. by apply Forall_singleton.
        + intros Hn. destruct Hn. unfold hasKey. rewrite map_app.
          apply elem_of_app. right. left. }
    clearbody acc1. destruct Hacc1 as [Hacc1 Hkey].
    assert (Hnext : ∀ acc2,
              Forall (λ kv : string * ZBookmark, Q (zb_rest kv.2)) acc2 →
              match reduce reduceRow rows acc2 w with
              | (Ok acc', w') =>
                w' = w ∧ Forall (λ kv : string * ZBookmark, Q (zb_rest kv.2)) acc'
              | (Err e, w') =>
                w' = w
                ∧ Exists (λ r, inherited (bk_id (row_bookmarksSq r))) (r :: rows)
              end).
    { intros acc2 Hacc2. specialize (IH acc2 Hacc2).
      destruct (reduce reduceRow rows acc2 w) as [[acc'|e] w']; [done|].
      destruct IH as [-> IH]. split; [done|]. by right. }
    destruct (row_bookmarkTags r) as [tag|]; [|by apply Hnext].
    destruct (row_tagsOnBookmarks r) as [t|]; [|by specialize (Hinv eq_refl)].
    case_decide as Hhas.
    + run_M. apply Hnext. unfold alterKey. apply Forall_forall.
      intros kv Hkv. apply list_elem_of_fmap in Hkv as (kv0 & -> & Hkv0).
      rewrite Forall_forall in Hacc1. specialize (Hacc1 kv0 Hkv0).
      by case_decide.
    + run_M. split; [done|]. left. by apply Hkey.
Qed.

Lemma objectValues_elem {V} (o : list (string * V)) (v : V) :
  v ∈ objectValues o → v ∈ map snd o.
Proof.
  unfold objectValues. intros [Hin|Hin]%elem_of_app.
  - apply list_elem_of_fmap in Hin as (p & -> & Hp).
    apply sort_elem in Hp. apply list_elem_of_omap in Hp as (kv & Hkv & Hp).
    destruct (arrayIndex kv.1); [|done]. simpl in Hp. injection Hp as <-.
    simpl. by apply (list_elem_of_fmap_2 snd).
  - apply list_elem_of_fmap in Hin as (kv & -> & Hkv).
    apply list_elem_of_filter in Hkv as [_ Hkv].
    by apply (list_elem_of_fmap_2 snd).
Qed.

(** getBookmarks on any store: it leaves the world as it was; what it
    returns comes from the matching bookmarks, and it fails only on a store
    with a bookmark whose id names a member of Object.prototype. *)
Lemma getBookmarks_any DEFAULT ctx user input w :
  ctx_user ctx = Some user →
  match getBookmarks DEFAULT ctx input w with
  | (Ok r, w') =>
    w' = w
    ∧ Forall (λ z, zb_rest z ∈ bookmarks (db w)
                   ∧ bookmarksSqWhere (db w) user input (zb_rest z))
             (r_bookmarks r)
  | (Err e, w') => w' = w ∧ ¬ ownIds (db w)
  end.
Proof.
  intros Hu. unfold getBookmarks. rewrite (authedProcedure_user _ user) by done.
  case_decide as Hids; [done|].
  run_M. fold (matching (db w) user input).
  set (rows := orderByDesc _ (joinRows (db w) _)).
  assert (Hrows : Forall
            (λ r, (row_tagsOnBookmarks r = None → row_bookmarkTags r = None)
                  ∧ (row_bookmarksSq r ∈ bookmarks (db w)
                     ∧ bookmarksSqWhere (db w) user input (row_bookmarksSq r)))
            rows).
  { apply Forall_forall. intros r Hr. subst rows.
    apply sort_elem in Hr. rewrite joinRows_bind in Hr.
    apply list_elem_of_bind in Hr as (b & Hr & Hb).
    apply rowsFor_row in Hr as [-> Hinv]. split; [done|].
    apply (elem_of_sublist _ (matching (db w) user input)) in Hb;
      [|apply sublist_take].
    apply matching_elem in Hb. tauto. }
  pose proof (reduce_Forall
                (λ b, b ∈ bookmarks (db w) ∧ bookmarksSqWhere (db w) user input b)
                rows [] w Hrows) as Hred.
  destruct (reduce reduceRow rows [] w) as [[acc|e] w'].
  2: { destruct Hred as [-> Hex]; [constructor|]. split; [done|].
       intros Hown. apply Exists_exists in Hex as (r & Hr & Hinh).
       rewrite Forall_forall in Hrows. destruct (Hrows r Hr) as (_ & Hin & _).
       unfold ownIds in Hown. rewrite Forall_forall in Hown.
       by apply (Hown _ Hin). }
  destruct Hred as [-> Hacc]; [constructor|].
  assert (Hvals : Forall (λ z, zb_rest z ∈ bookmarks (db w)
                               ∧ bookmarksSqWhere (db w) user input (zb_rest z))
                         (objectValues acc)).
  { apply Forall_forall. intros z Hz. apply objectValues_elem in Hz.
    apply list_elem_of_fmap in Hz as (kv & -> & Hkv).
    rewrite Forall_forall in Hacc. by apply Hacc. }
  case_decide; (split; [done|]); simpl; [|done].
  by apply Forall_take.
Qed.

(** X12. On a store where no bookmark id names a member of Object.prototype,
    getBookmarks cannot fail for an authenticated caller, whatever else the
    store holds: neither the invariant of its reduce nor the push onto the
    tags ever throws; and it leaves the world as it was. *)
Theorem getBookmarks_total DEFAULT ctx user input w :
  ctx_user ctx = Some user → ownIds (db w) →
  ∃ r, getBookmarks DEFAULT ctx input w = (Ok r, w).
Proof.
  intros Hu Hown. pose proof (getBookmarks_any DEFAULT ctx user input w Hu) as H.
  destruct (getBookmarks DEFAULT ctx input w) as [[r|e] w'].
  - destruct H as [-> _]. by exists r.
  - by destruct H as [_ H].
Qed.

Lemma getBookmarks_total_witness :
  ∃ r, getBookmarks 20 Sample.alice
         (mkGetBookmarksRequest None None None None None None None)
         Sample.strayLink
       = (Ok r, Sample.strayLink).
Proof.
  refine (getBookmarks_total 20 Sample.alice (mkUser "alice")
            (mkGetBookmarksRequest None None None None None None None)
            Sample.strayLink eq_refl _).
  by_decide.
Defined.

(** X13. Whatever the store holds, every bookmark getBookmarks returns is a
    bookmark of the store that belongs to the caller and passes each filter
    of the request that is set: the flags, the ids, the tag, the list and the
    cursor. *)
Theorem getBookmarks_scope DEFAULT ctx user input w r w' :
  ctx_user ctx = Some user →
  getBookmarks DEFAULT ctx input w = (Ok r, w') →
  Forall (λ z, zb_rest z ∈ bookmarks (db w)
               ∧ bk_userId (zb_rest z) = user_id user
               ∧ bookmarksSqWhere (db w) user input (zb_rest z))
         (r_bookmarks r).
Proof.
  intros Hu Hrun.
  pose proof (getBookmarks_any DEFAULT ctx user input w Hu) as Hall.
  rewrite Hrun in Hall. destruct Hall as [_ Hall].
  eapply Forall_impl; [exact Hall|]. simpl. intros z [Hin Hw].
  split; [done|]. split; [|done]. by destruct Hw.
Qed.

Lemma getBookmarks_scope_witness :
  let input := mkGetBookmarksRequest None (Some false) None None None None None in
  let res := getBookmarks 20 Sample.alice input Sample.world in
  let found := match res.1 with Ok r => r_bookmarks r | Err _ => [] end in
  map (λ z, bk_id (zb_rest z)) found = ["b2"; "b1"]
  ∧ Forall (λ z, zb_rest z ∈ bookmarks Sample.store
                 ∧ bk_userId (zb_rest z) = "alice"
                 ∧ bookmarksSqWhere Sample.store (mkUser "alice") input
                                    (zb_rest z))
           found.
Proof.
  intros input res found. split; [by vm_compute|].
  refine (getBookmarks_scope 20 Sample.alice (mkUser "alice") input Sample.world
            (mkGetBookmarksResponse found None) (snd res) eq_refl _).
  by vm_compute.
Defined.

(** ** From one page to the next *)

Lemma sortInsert_filter {A} (key : A → Time) (Q : A → Prop)
    `{∀ x, Decision (Q x)} (x : A) (s : list A) :
  StronglySorted (descBy key) s →
  filter Q (sortInsert (λ a b, bool_decide (key a < key b)) x s)
  = if decide (Q x)
    then sortInsert (λ a b, bool_decide (key a < key b)) x (filter Q s)
    else filter Q s.
Proof.
  induction s as [|y s IH]; intros Hs.
  - simpl. rewrite filter_cons. by case_decide.
  - apply StronglySorted_inv in Hs as [Hs Hy]. simpl.
    case_bool_decide as Hlt.
    + rewrite !filter_cons, IH by done.
      destruct (decide (Q y)), (decide (Q x)); simpl; try done.
      by rewrite bool_decide_true.
    + rewrite !filter_cons. destruct (decide (Q x)); [|done].
      destruct (decide (Q y)); simpl.
      * by rewrite bool_decide_false.
      * destruct (filter Q s) as [|z zs] eqn:Ef; [done|]. simpl.
        assert (z ∈ filter Q s) as Hz by (rewrite Ef; left).
        apply list_elem_of_filter in Hz as [_ Hz].
        rewrite Forall_forall in Hy. specialize (Hy z Hz). unfold descBy in Hy.
        by rewrite bool_decide_false by lia.
Qed.

(** Filtering the rows before or after ordering them gives the same rows in
    the same order. *)
Lemma orderByDesc_filter {A} (key : A → Time) (Q : A → Prop)
    `{∀ x, Decision (Q x)} (l : list A) :
  filter Q (orderByDesc key l) = orderByDesc key (filter Q l).
Proof.
  induction l as [|x l IH]; [done|].
  unfold orderByDesc, sort in *. simpl.
  rewrite sortInsert_filter by apply (orderByDesc_sorted key).
  rewrite filter_cons. destruct (decide (Q x)); simpl; by rewrite IH.
Qed.

(** In rows that come newest first with distinct times, those no newer than
    the row at position n are the rows from position n on. *)
Lemma filter_le_drop {A} (key : A → Time) (l : list A) (n : nat) (x : A) :
  StronglySorted (descBy key) l → NoDup (map key l) → l !! n = Some x →
  filter (λ y, key y ≤ key x) l = drop n l.
Proof.
  intros Hs Hnd Hx.
  assert (Hsplit : l = take n l ++ x :: drop (S n) l)
    by (symmetry; by apply take_drop_middle).
  assert (Hdrop : drop n l = x :: drop (S n) l).
  { rewrite Hsplit at 1. rewrite drop_app_length'; [done|].
    rewrite length_take. apply lookup_lt_Some in Hx. lia. }
  rewrite Hdrop. rewrite Hsplit at 1. rewrite Hsplit in Hs, Hnd.
  apply StronglySorted_app in Hs as (Hcross & _ & Hs2).
  apply StronglySorted_inv in Hs2 as [_ Hrest].
  rewrite map_app in Hnd. apply NoDup_app in Hnd as (_ & Hdis & _).
  rewrite filter_app, filter_none, filter_all; [done| |].
  - intros y [->|Hy]%elem_of_cons; [lia|].
    rewrite Forall_forall in Hrest. by apply Hrest.
  - intros y Hy Hle.
    assert (key x ≤ key y) as Hge by (apply (Hcross y x Hy); left).
    apply (Hdis (key y)); [by apply (list_elem_of_fmap_2 key)|].
    replace (key y) with (key x) by lia. simpl. left.
Qed.

(** The request of the next page selects, of the bookmarks the request
    matched, those no newer than the cursor. *)
Lemma matching_nextPage d user input c x :
  x ∈ matching d user input → bk_createdAt x = c →
  matching d user (nextPage c input)
  = filter (λ b, bk_createdAt b ≤ c) (matching d user input).
Proof.
  intros Hx Hc. unfold matching.
  rewrite orderByDesc_filter, list_filter_filter. f_equal.
  apply list_filter_iff. intros b.
  apply matching_elem in Hx as [(_ & _ & _ & _ & _ & _ & Hcur) _].
  unfold bookmarksSqWhere, nextPage. simpl.
  destruct (gb_cursor input) as [c0|]; simpl in *; [|tauto].
  split; [|tauto]. intros (? & ? & ? & ? & ? & ? & ?). repeat split; try done.
  lia.
Qed.

(** X14. Following the cursor, on a store with its primary key whose ids are
    neither numerals nor names of members of Object.prototype: when the
    matching bookmarks have distinct creation times and a page came with a
    next cursor, the same request with that cursor returns the bookmarks that
    follow the page, so that the two pages together are the first 2 * limit
    matching bookmarks, none missed and none twice. *)
Theorem getBookmarks_next_page DEFAULT ctx user input w r c :
  ctx_user ctx = Some user → bookmarksKey (db w) → plainIds (db w) →
  ownIds (db w) →
  NoDup (map bk_createdAt (matching (db w) user input)) →
  getBookmarks DEFAULT ctx input w = (Ok r, w) →
  r_nextCursor r = Some c →
  let n := effectiveLimit DEFAULT input in
  ∃ r', getBookmarks DEFAULT ctx (nextPage c input) w = (Ok r', w)
        ∧ map zb_rest (r_bookmarks r ++ r_bookmarks r')
          = take (n + n) (matching (db w) user input)
        ∧ NoDup (map (λ z, bk_id (zb_rest z)) (r_bookmarks r ++ r_bookmarks r')).
Proof.
  intros Hu Hk Hplain Hown Htimes Hrun Hcur n.
  destruct (getBookmarks_run DEFAULT ctx user input w Hu Hk Hplain Hown)
    as (r0 & Hrun0 & Hpage & Hnext).
  rewrite Hrun in Hrun0. injection Hrun0 as <-. fold n in Hpage, Hnext.
  rewrite Hcur in Hnext. symmetry in Hnext.
  apply fmap_Some in Hnext as (x & Hx & Hc).
  destruct (getBookmarks_run DEFAULT ctx user (nextPage c input) w Hu Hk Hplain
              Hown) as (r' & Hrun' & Hpage' & _).
  change (effectiveLimit DEFAULT (nextPage c input)) with n in Hpage'.
  rewrite (matching_nextPage _ _ _ _ x) in Hpage'
    by (by eapply list_elem_of_lookup_2 || done).
  rewrite Hc, (filter_le_drop bk_createdAt _ n x) in Hpage'
    by (apply matching_sorted || done).
  exists r'. split; [done|].
  assert (Hboth : map zb_rest (r_bookmarks r ++ r_bookmarks r')
                  = take (n + n) (matching (db w) user input)).
  { rewrite map_app, Hpage, Hpage'. apply take_take_drop. }
  split; [done|].
  rewrite <- (map_map zb_rest bk_id), Hboth.
  change (NoDup (bk_id <$> take (n + n) (matching (db w) user input))).
  apply (sublist_NoDup _ (bk_id <$> matching (db w) user input)).
  - by apply matching_NoDup.
  - apply fmap_sublist, sublist_take.
Qed.

Lemma getBookmarks_next_page_witness :
  let input := mkGetBookmarksRequest None None None None None (Some 1%nat) None in
  let first := match (getBookmarks 20 Sample.alice input Sample.world).1 with
               | Ok r => r_bookmarks r
               | Err _ => []
               end in
  ∃ r', getBookmarks 20 Sample.alice (nextPage 20 input) Sample.world
        = (Ok r', Sample.world)
        ∧ map (λ z, bk_id (zb_rest z)) (first ++ r_bookmarks r') = ["b4"; "b2"].
Proof.
  intros input first.
  destruct (getBookmarks_next_page 20 Sample.alice (mkUser "alice") input
              Sample.world (mkGetBookmarksResponse first (Some 20)) 20
              eq_refl ltac:(by_decide) ltac:(by_decide) ltac:(by_decide)
              ltac:(by_decide) ltac:(by vm_compute) eq_refl)
    as (r' & Hrun & Hboth & _).
  exists r'. split; [exact Hrun|].
  change (r_bookmarks (mkGetBookmarksResponse first (Some 20))) with first
    in Hboth.
  rewrite <- (map_map zb_rest bk_id), Hboth. reflexivity.
Defined.

(** ** The order of the search results *)

Lemma rank_fold_is_Some (hits : list Hit) (acc : gmap string Q) (k : Id) :
  is_Some (foldl (λ (acc : gmap string Q) r,
                    if decide (hit_id r = "__proto__") then acc
                    else <[hit_id r := hit_rankingScore r]> acc) acc hits !! k)
  ↔ is_Some (acc !! k) ∨ (k ∈ map hit_id hits ∧ k ≠ "__proto__").
Proof.
  revert acc. induction hits as [|h hits IH]; intros acc; simpl.
  - rewrite elem_of_nil. tauto.
  - rewrite IH, elem_of_cons. case_decide as Hp.
    + split; [tauto|]. intros [?|[[->|?] ?]]; tauto.
    + rewrite lookup_insert_is_Some'. split.
      * intros [[<-|?]|[? ?]]; tauto.
      * intros [?|[[->|?] ?]]; tauto.
Qed.

(** Every id among the hits has a score, but for [__proto__]. *)
Lemma rankOf_is_Some (hits : list Hit) (k : Id) :
  is_Some (rankOf hits k) ↔ k ∈ map hit_id hits ∧ k ≠ "__proto__".
Proof.
  unfold rankOf, idToRank. rewrite rank_fold_is_Some, lookup_empty.
  split; [intros [[? [=]]|?]; done|by right].
Qed.

Lemma sortInsert_byRank (hits : list Hit) (x : BookmarkQueryReturnType)
    (l : list BookmarkQueryReturnType) :
  let R := λ a b, byRank hits (bk_id (q_rest a)) (bk_id (q_rest b)) in
  is_Some (rankOf hits (bk_id (q_rest x))) →
  Forall (λ y, is_Some (rankOf hits (bk_id (q_rest y)))) l →
  StronglySorted R l →
  StronglySorted R (sortInsert (rankGt (idToRank hits)) x l).
Proof.
  intros R [rx Hx]. induction l as [|y l IH]; intros Hall Hs; simpl.
  - repeat constructor.
  - apply StronglySorted_inv in Hs as [Hs Hy].
    apply Forall_cons in Hall as [Hsy Hall].
    unfold rankGt at 1. fold (rankOf hits (bk_id (q_rest y))).
    fold (rankOf hits (bk_id (q_rest x))). rewrite Hx.
    destruct (rankOf hits (bk_id (q_rest y))) as [ry|] eqn:Ey.
    + destruct (Qle_bool ry rx) eqn:Hle; simpl.
      * apply Qle_bool_iff in Hle. constructor; [by constructor|].
        constructor; [by exists rx, ry|].
        eapply Forall_impl; [exact Hy|]. intros z (ry' & rz & Hy' & Hz & Hzy).
        exists rx, rz. repeat split; try done.
        rewrite Ey in Hy'. injection Hy' as <-. by eapply Qle_trans.
      * constructor; [by apply IH|]. apply Forall_forall. intros z Hz.
        apply sortInsert_elem in Hz as [->|Hz].
        -- exists ry, rx. repeat split; try done.
           apply Qlt_le_weak, Qnot_le_lt. intros Hc.
           apply Qle_bool_iff in Hc. congruence.
        -- rewrite Forall_forall in Hy. by apply Hy.
    + by destruct Hsy.
Qed.

Lemma sort_byRank (hits : list Hit) (l : list BookmarkQueryReturnType) :
  Forall (λ y, is_Some (rankOf hits (bk_id (q_rest y)))) l →
  StronglySorted (λ a b, byRank hits (bk_id (q_rest a)) (bk_id (q_rest b)))
    (sort (rankGt (idToRank hits)) l).
Proof.
  unfold sort. induction l as [|x l IH]; intros Hall; simpl; [constructor|].
  apply Forall_cons in Hall as [Hx Hall].
  apply sortInsert_byRank; [done| |by apply IH].
  apply Forall_forall. intros y Hy. apply (sort_elem _ y l) in Hy.
  rewrite Forall_forall in Hall. by apply Hall.
Qed.

(** X15. With a search engine configured, searchBookmarks answers every
    authenticated caller, sends the engine one query and leaves the store as
    it was. It returns, once each, the caller's bookmarks whose id is among
    the hits, as the public schema shows them, and never a next cursor. On a
    store where no bookmark id names a member of Object.prototype, they come
    by ranking score with the highest first. *)
Theorem searchBookmarks_ranked client ctx user text w :
  ctx_user ctx = Some user →
  let hits := client text (searchParams user) in
  ∃ r, searchBookmarks (Some client) ctx text w
       = (Ok r, mkWorld (db w) (trace w ++ [EvSearch text (searchParams user)]))
       ∧ r_nextCursor r = None
       ∧ r_bookmarks r
         ≡ₚ map (converted (db w))
                (filter (λ b, bk_userId b = user_id user
                              ∧ bk_id b ∈ map hit_id hits)
                        (bookmarks (db w)))
       ∧ (ownIds (db w) →
          StronglySorted
            (λ a b, byRank hits (bk_id (zb_rest a)) (bk_id (zb_rest b)))
            (r_bookmarks r)).
Proof.
  intros Hu hits. unfold searchBookmarks, search.
  rewrite (authedProcedure_user _ user) by done. run_M.
  fold (searchParams user). fold hits. case_decide as Hlen.
  - eexists. split; [done|]. simpl. split; [done|].
    apply nil_length_inv in Hlen. rewrite Hlen. simpl.
    rewrite filter_none; [split; [done|]; intros _; constructor|].
    intros b _ [_ Hin]. by apply elem_of_nil in Hin.
  - eexists. split; [done|]. simpl. split; [done|]. split.
    + change (map toZodSchema) with (fmap (M := list) toZodSchema).
      rewrite sort_perm. by rewrite <- list_fmap_compose.
    + intros Hown.
      apply (StronglySorted_fmap toZodSchema
               (λ a b, byRank hits (bk_id (q_rest a)) (bk_id (q_rest b)))).
      { done. }
      apply sort_byRank. apply Forall_forall. intros q Hq.
      apply list_elem_of_fmap in Hq as (b & -> & Hb).
      apply list_elem_of_filter in Hb as [[_ Hin] Hb].
      apply rankOf_is_Some. split; [done|]. simpl. intros E.
      unfold ownIds in Hown. rewrite Forall_forall in Hown.
      apply (Hown b Hb). rewrite E. unfold inherited, objectPrototype.
      by_decide.
Qed.

Lemma searchBookmarks_ranked_witness :
  let hits := Sample.leakyClient "milk" (searchParams (mkUser "alice")) in
  ∃ r, (searchBookmarks (Some Sample.leakyClient) Sample.alice "milk"
          Sample.world).1 = Ok r
       ∧ StronglySorted
           (λ a b, byRank hits (bk_id (zb_rest a)) (bk_id (zb_rest b)))
           (r_bookmarks r).
Proof.
  intros hits.
  destruct (searchBookmarks_ranked Sample.leakyClient Sample.alice
              (mkUser "alice") "milk" Sample.world eq_refl)
    as (r & Hrun & _ & _ & Hsorted).
  exists r. split; [exact (f_equal fst Hrun)|]. apply Hsorted. by_decide.
Defined.

(** ** What updateTags can reach *)

(** X16. A successful updateTags changes only the tags and the attachments.
    It never removes or changes a tag: the tags it adds belong to the caller
    and carry a name that attach listed without a tag id. The attachments of
    other bookmarks stay as they were, and every attachment it adds is one of
    this bookmark to a tag of the caller whose name attach lists, whatever
    tag ids the request carries. *)
Theorem updateTags_reach ctx user bookmarkId attach detach genId w w' :
  ctx_user ctx = Some user →
  updateTags ctx bookmarkId attach detach genId w = (Ok (), w') →
  let d := db w in
  let d' := db w' in
  (bookmarks d' = bookmarks d ∧ bookmarkLinks d' = bookmarkLinks d
   ∧ bookmarkTexts d' = bookmarkTexts d ∧ bookmarkAssets d' = bookmarkAssets d
   ∧ bookmarksInLists d' = bookmarksInLists d)
  ∧ (∃ new, bookmarkTags d' = bookmarkTags d ++ new
            ∧ Forall (λ g, tg_userId g = user_id user
                           ∧ ∃ i, i ∈ attach ∧ at_tagId i = None
                                  ∧ at_tag i = tg_name g) new)
  ∧ filter (λ t, tob_bookmarkId t ≠ bookmarkId) (tagsOnBookmarks d')
    = filter (λ t, tob_bookmarkId t ≠ bookmarkId) (tagsOnBookmarks d)
  ∧ ∀ t, t ∈ tagsOnBookmarks d' → t ∉ tagsOnBookmarks d →
         tob_bookmarkId t = bookmarkId
         ∧ ∃ g, g ∈ bookmarkTags d' ∧ tg_id g = tob_tagId t
                ∧ tg_userId g = user_id user
                ∧ tg_name g ∈ map at_tag attach.
Proof.
  intros Hu Hrun d d'.
  destruct (updateTags_cases ctx bookmarkId attach detach genId w)
    as [(e & He)|(user' & row & Hu' & _ & _ & _ & Htx)];
    [rewrite He in Hrun; discriminate|].
  rewrite Hu in Hu'. injection Hu' as <-.
  rewrite Htx, updateTagsTransaction_run in Hrun. fold d in Hrun.
  assert (Hother : ∀ extra,
    Forall (λ t, tob_bookmarkId t = bookmarkId) extra →
    filter (λ t, tob_bookmarkId t ≠ bookmarkId)
           (afterDetach bookmarkId detach d ++ extra)
    = filter (λ t, tob_bookmarkId t ≠ bookmarkId) (tagsOnBookmarks d)).
  { intros extra Hex. rewrite filter_app, (filter_none _ extra), app_nil_r.
    - unfold afterDetach. rewrite list_filter_filter. apply list_filter_iff.
      intros t. tauto.
    - intros t Ht. rewrite Forall_forall in Hex. specialize (Hex t Ht). tauto. }
  assert (Hold : ∀ t, t ∈ afterDetach bookmarkId detach d → t ∈ tagsOnBookmarks d).
  { intros t Ht. unfold afterDetach in Ht.
    by apply list_elem_of_filter in Ht as [_ ?]. }
  destruct attach as [|a attach].
  { injection Hrun as <-. subst d'. simpl. split; [done|]. split.
    - exists []. by rewrite app_nil_r.
    - split.
      + rewrite <- (app_nil_r (afterDetach _ _ _)). by apply Hother.
      + intros t Ht Hn. destruct Hn. by apply Hold. }
  set (tags := afterCreate user (a :: attach) genId d) in *.
  destruct (attachedIds user (a :: attach) tags) as [|i0 is0] eqn:Eids;
    [discriminate|].
  injection Hrun as <-. subst d'. cbn [db].
  destruct (tags_of_result
              (afterAttach user bookmarkId (a :: attach) detach genId d) tags d)
    as [-> ->].
  split; [by destruct d|].
  destruct (insertTagRows_app genId 0
              (map (λ i, (at_tag i, user_id user))
                   (filter (λ i, at_tagId i = None) (a :: attach)))
              (bookmarkTags d)) as (new & Hnew & Hin).
  fold (afterCreate user (a :: attach) genId d) in Hnew. fold tags in Hnew.
  destruct (insertAttachmentRows_app
              (map (λ i, mkTagOnBookmark bookmarkId i Human)
                   (attachedIds user (a :: attach) tags))
              (afterDetach bookmarkId detach d)) as (extra & Hextra & Hrows).
  unfold afterAttach. fold tags.
  assert (Hrow : ∀ t, t ∈ extra →
            tob_bookmarkId t = bookmarkId
            ∧ ∃ g, g ∈ tags ∧ tg_id g = tob_tagId t
                   ∧ tg_userId g = user_id user
                   ∧ tg_name g ∈ map at_tag (a :: attach)).
  { intros t Ht. destruct (Hrows t Ht) as [Hr _].
    apply list_elem_of_fmap in Hr as (i & -> & Hi). split; [done|].
    unfold attachedIds in Hi. apply list_elem_of_fmap in Hi as (g & -> & Hg).
    apply list_elem_of_filter in Hg as [[? ?] ?]. by exists g. }
  split; [|split].
  - exists new. split; [done|]. apply Forall_forall. intros g Hg.
    destruct (Hin g Hg) as [Hr _].
    apply list_elem_of_fmap in Hr as (i & [= Hn Ho] & Hi).
    apply list_elem_of_filter in Hi as [? ?]. split; [done|]. by exists i.
  - rewrite Hextra. apply Hother. apply Forall_forall. intros t Ht.
    by destruct (Hrow t Ht).
  - intros t Ht Hn. rewrite Hextra in Ht.
    apply elem_of_app in Ht as [Ht|Ht]; [destruct Hn; by apply Hold|].
    by apply Hrow.
Qed.

Lemma updateTags_reach_witness :
  let d' := db (updateTags Sample.alice "b2"
                  [mkAttachItem (Some "t1") "todo"; mkAttachItem None "paper"]
                  [] Sample.genId Sample.world).2 in
  bookmarks d' = bookmarks Sample.store
  ∧ filter (λ t, tob_bookmarkId t ≠ "b2") (tagsOnBookmarks d')
    = tagsOnBookmarks Sample.store.
Proof.
  intros d'.
  destruct (updateTags_reach Sample.alice (mkUser "alice") "b2"
              [mkAttachItem (Some "t1") "todo"; mkAttachItem None "paper"]
              [] Sample.genId Sample.world _ eq_refl eq_refl)
    as ((Hb & _) & _ & Hother & _).
  split; [exact Hb|exact Hother].
Defined.

(** ** The loading state of a card *)

(** X17. A card stops loading for good: once a bookmark is not loading it is
    not loading at any later time, whatever its content and tagging status,
    and from 30 seconds after its creation it is never loading; the card's
    query then polls no more. *)
Theorem isBookmarkStillLoading_expires (now now' : Time) (bookmark : ZBookmark) :
  now ≤ now' →
  isBookmarkStillLoading now bookmark = false
  ∨ bk_createdAt (zb_rest bookmark) + MAX_LOADING_MSEC ≤ now →
  isBookmarkStillLoading now' bookmark = false
  ∧ refetchInterval now' (Some bookmark) = None.
Proof.
  intros Hle Hnow.
  assert (H : isBookmarkStillLoading now' bookmark = false);
    [|by unfold refetchInterval; rewrite H].
  unfold isBookmarkStillLoading, isBookmarkStillTagging,
    isBookmarkStillCrawling in *.
  destruct Hnow as [Hnow|Hnow].
  - apply orb_false_iff in Hnow as [Ht Hc]. apply orb_false_iff. split.
    + apply andb_false_iff in Ht as [Ht|Ht]; apply andb_false_iff;
        [by left|right].
      apply bool_decide_eq_false in Ht. apply bool_decide_eq_false. lia.
    + destruct (zb_content bookmark); try done.
      apply andb_false_iff in Hc as [Hc|Hc]; apply andb_false_iff;
        [by left|right].
      apply bool_decide_eq_false in Hc. apply bool_decide_eq_false. lia.
  - apply orb_false_iff. split.
    + apply andb_false_iff. right. apply bool_decide_eq_false. lia.
    + destruct (zb_content bookmark); try done.
      apply andb_false_iff. right. apply bool_decide_eq_false. lia.
Qed.

Lemma isBookmarkStillLoading_expires_witness :
  let b := mkZBookmark [] (ContentText "buy milk")
             (mkBookmark "b3" "bob" 30 false false None (Some TsPending)) in
  isBookmarkStillLoading 40000 b = false
  ∧ refetchInterval 40000 (Some b) = None.
Proof.
  refine (isBookmarkStillLoading_expires 30030 40000
            (mkZBookmark [] (ContentText "buy milk")
               (mkBookmark "b3" "bob" 30 false false None (Some TsPending)))
            _ _).
  - by_decide.
  - right. by_decide.
Defined.

(** X18. The card of a bookmark that createBookmark has just returned polls
    every second until 30 seconds after the creation time, and not after:
    the new bookmark waits for its tags, whatever its content. *)
Theorem createBookmark_card_polls ctx input newId now w b w' (t : Time) :
  createBookmark ctx input newId now w = (Ok b, w') →
  refetchInterval t (Some b)
  = if decide (t - now < MAX_LOADING_MSEC) then Some 1000 else None.
Proof.
  intros Hrun.
  destruct (createBookmark_cases ctx input newId now w)
    as [[_ He]|[(user & e & d' & _ & He & _)
               |(user & b' & d' & job & _ & Hr & Htx & _)]];
    [rewrite He in Hrun; discriminate|rewrite He in Hrun; discriminate|].
  rewrite Hr in Hrun. injection Hrun as -> <-.
  pose proof (createBookmarkTx_spec user input newId now
                (mkWorld (db w) (trace w ++ [EvBegin; EvCommit]))) as Hspec.
  rewrite Htx in Hspec. destruct Hspec as (_ & Hrest & _).
  unfold refetchInterval, isBookmarkStillLoading, isBookmarkStillTagging.
  rewrite Hrest. simpl. case_decide.
  - by rewrite bool_decide_true.
  - rewrite bool_decide_false by done. simpl.
    unfold isBookmarkStillCrawling. rewrite Hrest. simpl.
    destruct (zb_content b); try done.
    by rewrite (bool_decide_false (t - now < MAX_LOADING_MSEC)), andb_false_r
      by done.
Qed.

Lemma createBookmark_card_polls_witness :
  let b := mkZBookmark [] (ContentText "buy milk")
             (mkBookmark "b5" "alice" 50 false false None (Some TsPending)) in
  refetchInterval 30049 (Some b) = Some 1000
  ∧ refetchInterval 30050 (Some b) = None.
Proof.
  split.
  - exact (createBookmark_card_polls Sample.alice (NewText "buy milk") "b5" 50
             Sample.world _ _ 30049 eq_refl).
  - exact (createBookmark_card_polls Sample.alice (NewText "buy milk") "b5" 50
             Sample.world _ _ 30050 eq_refl).
Defined.
